(** * OIDC bearer-token authentication (store/auth.py)

    A shallow embedding of [OIDCAuthentication]: the JWKS cache
    ([get_jwks]), key resolution ([get_key_for_token]), token validation
    ([validate_token]) and the entry point ([authenticate]) with its
    customer reconciliation.

    Python values are embedded as [pyval]; exceptions as [exc]; the
    methods run in a state-and-exception monad over [world], which holds
    everything the methods read or change: the process environment, the
    class-level and the instance-level [_jwks_cache], the clock, the JWKS
    endpoint, and the customer table. *)

From Stdlib Require Import ZArith String Ascii List Bool Lia.
From stdpp Require Import base option gmap strings.
Import ListNotations.

Local Open Scope string_scope.
Local Open Scope Z_scope.

(** ** Python values *)

(** The values that [json.loads] produces (numbers are taken as integers). *)
#[warnings="-register-all"]
Inductive pyval :=
| PNone
| PBool (b : bool)
| PInt (n : Z)
| PStr (s : string)
| PList (l : list pyval)
| PDict (d : list (string * pyval)).

(** [bool(v)]: what [if v] and [not v] test. *)
Definition truthy (v : pyval) : bool :=
  match v with
  | PNone => false
  | PBool b => b
  | PInt n => negb (n =? 0)
  | PStr s => negb (String.eqb s "")
  | PList l => match l with [] => false | _ => true end
  | PDict d => match d with [] => false | _ => true end
  end.

(** Lookup in the association list behind a dict. *)
Fixpoint assoc {A} (k : string) (d : list (string * A)) : option A :=
  match d with
  | [] => None
  | (k', v) :: d' => if String.eqb k k' then Some v else assoc k d'
  end.

(** [d.get(k)] on a dict: [None] when the key is absent. *)
Definition dict_get (d : list (string * pyval)) (k : string) : pyval :=
  match assoc k d with Some v => v | None => PNone end.

(** [d.get(k, default)]. *)
Definition dict_get_default (d : list (string * pyval)) (k : string) (dflt : pyval) : pyval :=
  match assoc k d with Some v => v | None => dflt end.

(** [k in d]. *)
Definition dict_has (d : list (string * pyval)) (k : string) : bool :=
  match assoc k d with Some _ => true | None => false end.

(** Python's [==] on these values: [True == 1], lists are compared
    element by element, dicts key by key whatever the order. *)
Fixpoint py_eq (a b : pyval) : bool :=
  match a, b with
  | PNone, PNone => true
  | PBool x, PBool y => Bool.eqb x y
  | PBool x, PInt n => (if x then 1 else 0) =? n
  | PInt n, PBool y => n =? (if y then 1 else 0)
  | PInt n, PInt m => n =? m
  | PStr s, PStr t => String.eqb s t
  | PList l, PList m =>
      (fix go (l m : list pyval) : bool :=
         match l, m with
         | [], [] => true
         | x :: l', y :: m' => py_eq x y && go l' m'
         | _, _ => false
         end) l m
  | PDict d, PDict e =>
      (length d =? length e)%nat &&
      (fix go (d : list (string * pyval)) : bool :=
         match d with
         | [] => true
         | (k, v) :: d' =>
             match assoc k e with
             | Some v' => py_eq v v'
             | None => false
             end && go d'
         end) d
  | _, _ => false
  end.

(** ** Byte strings and text *)

(** ASCII lower case of one byte, as [bytes.lower] does it. *)
Definition lower_ascii (c : ascii) : ascii :=
  let n := nat_of_ascii c in
  if ((65 <=? n) && (n <=? 90))%nat then ascii_of_nat (n + 32) else c.

Fixpoint lower (s : string) : string :=
  match s with
  | EmptyString => EmptyString
  | String c s' => String (lower_ascii c) (lower s')
  end.

(** The bytes [bytes.split()] separates on. *)
Definition is_space (c : ascii) : bool :=
  let n := nat_of_ascii c in
  ((n =? 32) || ((9 <=? n) && (n <=? 13)))%nat.

(** [split_go cur s]: the words of [s], [cur] being the word under way
    (its bytes in reverse). *)
Fixpoint rev_string (acc s : string) : string :=
  match s with
  | EmptyString => acc
  | String c s' => rev_string (String c acc) s'
  end.

Definition flush (cur : string) (rest : list string) : list string :=
  match cur with
  | EmptyString => rest
  | _ => rev_string EmptyString cur :: rest
  end.

Fixpoint split_go (cur s : string) : list string :=
  match s with
  | EmptyString => flush cur []
  | String c s' =>
      if is_space c then flush cur (split_go EmptyString s')
      else split_go (String c cur) s'
  end.

(** [b.split()]: the maximal runs of non-space bytes. *)
Definition split (s : string) : list string := split_go EmptyString s.

Fixpoint startswith (p s : string) : bool :=
  match p, s with
  | EmptyString, _ => true
  | String a p', String b s' => Ascii.eqb a b && startswith p' s'
  | String _ _, EmptyString => false
  end.

(** [p in s] on strings. *)
Fixpoint contains (p s : string) : bool :=
  startswith p s ||
  match s with
  | EmptyString => false
  | String _ s' => contains p s'
  end.

(** [s.endswith(p)]. *)
Definition endswith (p s : string) : bool :=
  startswith (rev_string EmptyString p) (rev_string EmptyString s).

(** Text is kept as its UTF-8 bytes, so [bytes.decode()] is the check
    that the bytes are well-formed UTF-8. *)
Definition in_range (lo hi : nat) (c : ascii) : bool :=
  let n := nat_of_ascii c in ((lo <=? n) && (n <=? hi))%nat.

Definition cont (c : ascii) : bool := in_range 128 191 c.

Fixpoint utf8_ok (fuel : nat) (s : string) : bool :=
  match fuel with
  | O => match s with EmptyString => true | _ => false end
  | S fuel' =>
      match s with
      | EmptyString => true
      | String a r =>
          if in_range 0 127 a then utf8_ok fuel' r
          else match r with
          | EmptyString => false
          | String b r2 =>
              if in_range 194 223 a then cont b && utf8_ok fuel' r2
              else match r2 with
              | EmptyString => false
              | String c r3 =>
                  if in_range 224 224 a then in_range 160 191 b && cont c && utf8_ok fuel' r3
                  else if in_range 237 237 a then in_range 128 159 b && cont c && utf8_ok fuel' r3
                  else if in_range 225 239 a then cont b && cont c && utf8_ok fuel' r3
                  else match r3 with
                  | EmptyString => false
                  | String d r4 =>
                      if in_range 240 240 a then in_range 144 191 b && cont c && cont d && utf8_ok fuel' r4
                      else if in_range 241 243 a then cont b && cont c && cont d && utf8_ok fuel' r4
                      else if in_range 244 244 a then in_range 128 143 b && cont c && cont d && utf8_ok fuel' r4
                      else false
                  end
              end
          end
      end
  end.

(** [b.decode()]: [None] stands for [UnicodeDecodeError]. *)
Definition bytes_decode (b : string) : option string :=
  if utf8_ok (String.length b) b then Some b else None.


(** ** Exceptions *)

(** The exception classes the module tells apart in its [except]
    clauses.  [JWTClaimsError] and [ExpiredSignatureError] are subclasses
    of [JWTError]; [OtherException] is any other subclass of [Exception]
    ([AttributeError], [TypeError], [UnicodeDecodeError], a database
    error).  The argument is [str(e)]. *)
Inductive exc :=
| AuthenticationFailed (detail : string)
| JWTError (msg : string)
| ExpiredSignatureError (msg : string)
| JWTClaimsError (msg : string)
| RequestException (msg : string)
| OtherException (msg : string).

Definition str (e : exc) : string :=
  match e with
  | AuthenticationFailed m | JWTError m | ExpiredSignatureError m
  | JWTClaimsError m | RequestException m | OtherException m => m
  end.

(** [isinstance(e, JWTError)]. *)
Definition is_JWTError (e : exc) : bool :=
  match e with
  | JWTError _ | ExpiredSignatureError _ | JWTClaimsError _ => true
  | _ => false
  end.

(** ** The world the methods run in

    Clock readings are whole seconds. *)

(** [os.getenv] of the three variables the module reads. *)
Record environ := Environ {
  OIDC_ISSUER : option string;
  OIDC_AUDIENCE : option string;
  OIDC_JWKS_URL : option string
}.

(** The dict behind [_jwks_cache]. *)
Record jwks_cache := Cache {
  keys : pyval;
  last_updated : Z
}.

(** What the [try] body of [get_jwks] gets from [requests.get],
    [raise_for_status] and [response.json()]: an exception of one of
    them, or the decoded body. *)
Inductive http_reply :=
| HttpRaises (e : exc)
| HttpJson (body : pyval).

(** A row of the customer table, found by its unique [external_id]. *)
Record row := Row {
  row_first_name : string;
  row_last_name : string;
  row_email : string;
  row_phone : string;
  row_address : option string
}.

(** The columns of [Customer] that [save(update_fields=...)] may name. *)
Inductive column := first_name_col | last_name_col | email_col | phone_col | address_col.

(** The statements sent to the customer table: an INSERT or an UPDATE
    that took effect, and one that changed nothing, because the database
    refused it (a NULL for a NOT NULL column) or because no row matched. *)
Inductive db_write :=
| Insert (external_id : string) (r : row)
| Update (external_id : string) (cols : list column)
| InsertRefused (external_id : pyval)
| UpdateFailed (external_id : pyval) (cols : list column).

Record world := World {
  env : environ;
  (** the class attribute [CACHE_TTL], 600 unless a test changes it *)
  CACHE_TTL : Z;
  (** [OIDCAuthentication._jwks_cache], the dict created with the class *)
  class_cache : jwks_cache;
  (** the dict [self._jwks_cache = {...}] binds on the instance, if any *)
  self_cache : option jwks_cache;
  (** the clock: reading number [n] of it gives [clock n] *)
  clock : nat -> Z;
  ticks : nat;
  (** the JWKS endpoint: the reply to request number [n], for a URL *)
  network : nat -> string -> http_reply;
  requests : list string;
  (** the customer table and the statements sent to it, latest first *)
  customers : gmap string row;
  writes : list db_write
}.

Definition set_class_cache (c : jwks_cache) (w : world) : world :=
  World (env w) (CACHE_TTL w) c (self_cache w) (clock w) (ticks w) (network w)
        (requests w) (customers w) (writes w).

Definition set_self_cache (c : option jwks_cache) (w : world) : world :=
  World (env w) (CACHE_TTL w) (class_cache w) c (clock w) (ticks w) (network w)
        (requests w) (customers w) (writes w).

Definition set_ticks (n : nat) (w : world) : world :=
  World (env w) (CACHE_TTL w) (class_cache w) (self_cache w) (clock w) n (network w)
        (requests w) (customers w) (writes w).

Definition set_requests (l : list string) (w : world) : world :=
  World (env w) (CACHE_TTL w) (class_cache w) (self_cache w) (clock w) (ticks w) (network w)
        l (customers w) (writes w).

Definition set_customers (m : gmap string row) (l : list db_write) (w : world) : world :=
  World (env w) (CACHE_TTL w) (class_cache w) (self_cache w) (clock w) (ticks w) (network w)
        (requests w) m l.

(** A statement that changes no row. *)
Definition sent_in_vain (s : db_write) (w : world) : world :=
  set_customers (customers w) (s :: writes w) w.

(** ** The monad: state and exceptions *)

Inductive outcome (A : Type) :=
| Return (a : A)
| Raise (e : exc).
Arguments Return {A} a.
Arguments Raise {A} e.

Definition M (A : Type) : Type := world -> outcome A * world.

Definition ret {A} (a : A) : M A := fun w => (Return a, w).
Definition raise {A} (e : exc) : M A := fun w => (Raise e, w).

Definition bind {A B} (m : M A) (f : A -> M B) : M B :=
  fun w =>
    match m w with
    | (Return a, w') => f a w'
    | (Raise e, w') => (Raise e, w')
    end.

(** [try: m except Exception as e: h e]. *)
Definition try_except {A} (m : M A) (h : exc -> M A) : M A :=
  fun w =>
    match m w with
    | (Return a, w') => (Return a, w')
    | (Raise e, w') => h e w'
    end.

Notation "'let*' x ':=' m 'in' k" := (bind m (fun x => k))
  (at level 10, x name, m at level 100, k at level 200).
Notation "'run' m 'then' k" := (bind m (fun _ => k))
  (at level 10, m at level 100, k at level 200).

(** A pure computation that may raise. *)
Definition lift {A} (o : outcome A) : M A := fun w => (o, w).

(** [time.time()], and the [datetime.utcnow()] of the token library. *)
Definition time_time : M Z :=
  fun w => (Return (clock w (ticks w)), set_ticks (S (ticks w)) w).

(** Reading [self._jwks_cache]: the instance attribute when the instance
    has one, the class attribute otherwise. *)
Definition visible_cache (w : world) : jwks_cache :=
  match self_cache w with
  | Some c => c
  | None => class_cache w
  end.

Definition read_cache : M jwks_cache := fun w => (Return (visible_cache w), w).

(** [self._jwks_cache = c]: binds the attribute on the instance. *)
Definition assign_cache (c : jwks_cache) : M unit :=
  fun w => (Return tt, set_self_cache (Some c) w).

(** [self._jwks_cache['last_updated'] = t]: changes the dict that the
    attribute resolves to, in place. *)
Definition store_last_updated (t : Z) : M unit :=
  fun w =>
    (Return tt,
     match self_cache w with
     | Some c => set_self_cache (Some (Cache (keys c) t)) w
     | None => set_class_cache (Cache (keys (class_cache w)) t) w
     end).

(** Reading [self.CACHE_TTL]. *)
Definition read_ttl : M Z := fun w => (Return (CACHE_TTL w), w).

Definition getenv (f : environ -> option string) : M (option string) :=
  fun w => (Return (f (env w)), w).

(** [requests.get(url, timeout=10)] up to [response.json()]. *)
Definition http_get_json (url : string) : M http_reply :=
  fun w => (Return (network w (length (requests w)) url), set_requests (url :: requests w) w).

(** [not s] for the result of [os.getenv]. *)
Definition env_missing (s : option string) : bool :=
  match s with
  | None => true
  | Some s => String.eqb s ""
  end.

(** ** The libraries the module calls

    The token library (python-jose) is not part of the repository.  Its
    parsing of the compact form, its construction of a key from a JWKS
    entry and the signature check itself are taken as an interface, as
    are the interpreter's [str] and [int]; the control flow of its
    [jwt.decode] is written out below after the library's documented
    behaviour.  [res] carries the message of the exception on failure. *)

Inductive res (A : Type) :=
| Ok (a : A)
| Err (msg : string).
Arguments Ok {A} a.
Arguments Err {A} msg.

(** The parts of a compact token: the header (a JSON object), the payload
    bytes, the signing input and the signature. *)
Record jws := Jws {
  jws_header : list (string * pyval);
  jws_payload : string;
  jws_signing_input : string;
  jws_signature : string
}.

Class Libraries := {
  (** a key object, as [jwk.construct] returns it *)
  Key : Type;
  (** splitting and decoding of the three segments of a token; the
      header is a JSON object *)
  jws_load : string -> res jws;
  (** [json.loads(payload.decode('utf-8'))] *)
  json_loads : string -> res pyval;
  (** [jwk.construct(key_data)] *)
  jwk_construct : pyval -> res Key;
  (** [key.verify(signing_input, signature)], an exception counting as [False] *)
  key_verify : Key -> string -> string -> bool;
  (** [str(v)] of a number, a list or a dict *)
  repr : pyval -> string;
  (** [int(s)] of a string; [None] stands for [ValueError] *)
  int_of_str : string -> option Z
}.

Section OIDCAuthentication.
Context `{Libraries}.

(** [str(v)], as the f-strings and the text columns apply it. *)
Definition py_str (v : pyval) : string :=
  match v with
  | PStr s => s
  | PNone => "None"
  | PBool true => "True"
  | PBool false => "False"
  | _ => repr v
  end.

(** ** The token library, as [validate_token] calls it

    [jwt.decode(token, key, algorithms=['RS256'], options=..., audience=...,
    issuer=...)] with every [verify_*] option on but [verify_at_hash], no
    [require_*] option and no leeway: the signature first, then the claims
    [iat], [nbf], [exp], [aud], [iss], [sub], [jti] in this order. *)

(** [jwt.get_unverified_header(token)]. *)
Definition get_unverified_header (token : string) : M (list (string * pyval)) :=
  match jws_load token with
  | Ok j => ret (jws_header j)
  | Err _ => raise (JWTError "Error decoding token headers.")
  end.

(** [alg in algorithms]. *)
Definition alg_allowed (alg : pyval) (algorithms : list string) : bool :=
  existsb (fun a => py_eq alg (PStr a)) algorithms.

(** [jws.verify(token, key, algorithms)]: the payload bytes of a token
    whose algorithm is allowed and whose signature the key accepts. *)
Definition jws_verify (token : string) (key : Key) (algorithms : list string) : M string :=
  match jws_load token with
  | Err m => raise (JWTError m)
  | Ok j =>
      let alg := dict_get (jws_header j) "alg" in
      if negb (truthy alg) then
        raise (JWTError "No algorithm was specified in the JWS header.")
      else if negb (alg_allowed alg algorithms) then
        raise (JWTError "The specified alg value is not allowed")
      else if negb (key_verify key (jws_signing_input j) (jws_signature j)) then
        raise (JWTError "Signature verification failed.")
      else ret (jws_payload j)
  end.

(** [int(v)]: [ValueError] for a string that is no number, [TypeError]
    for [None], a list or a dict. *)
Inductive int_result :=
| IntOk (n : Z)
| IntValueError
| IntTypeError.

Definition py_int (v : pyval) : int_result :=
  match v with
  | PInt n => IntOk n
  | PBool b => IntOk (if b then 1 else 0)
  | PStr s => match int_of_str s with Some n => IntOk n | None => IntValueError end
  | _ => IntTypeError
  end.

Definition type_error : exc :=
  OtherException "int() argument must be a string, a bytes-like object or a real number".

Definition validate_iat (claims : list (string * pyval)) : M unit :=
  if negb (dict_has claims "iat") then ret tt
  else match py_int (dict_get claims "iat") with
       | IntOk _ => ret tt
       | IntValueError => raise (JWTClaimsError "Issued At claim (iat) must be an integer.")
       | IntTypeError => raise type_error
       end.

Definition validate_nbf (claims : list (string * pyval)) : M unit :=
  if negb (dict_has claims "nbf") then ret tt
  else match py_int (dict_get claims "nbf") with
       | IntOk nbf =>
           let* now := time_time in
           if now <? nbf then raise (JWTClaimsError "The token is not yet valid (nbf)")
           else ret tt
       | IntValueError => raise (JWTClaimsError "Not Before claim (nbf) must be an integer.")
       | IntTypeError => raise type_error
       end.

Definition validate_exp (claims : list (string * pyval)) : M unit :=
  if negb (dict_has claims "exp") then ret tt
  else match py_int (dict_get claims "exp") with
       | IntOk exp =>
           let* now := time_time in
           if exp <? now then raise (ExpiredSignatureError "Signature has expired.")
           else ret tt
       | IntValueError => raise (JWTClaimsError "Expiration Time claim (exp) must be an integer.")
       | IntTypeError => raise type_error
       end.

Definition is_str (v : pyval) : bool :=
  match v with PStr _ => true | _ => false end.

Definition validate_aud (claims : list (string * pyval)) (audience : string) : M unit :=
  if negb (dict_has claims "aud") then ret tt
  else
    let audience_claims :=
      match dict_get claims "aud" with
      | PStr s => PList [PStr s]
      | v => v
      end in
    match audience_claims with
    | PList l =>
        if negb (forallb is_str l) then raise (JWTClaimsError "Invalid claim format in token")
        else if negb (existsb (py_eq (PStr audience)) l) then raise (JWTClaimsError "Invalid audience")
        else ret tt
    | _ => raise (JWTClaimsError "Invalid claim format in token")
    end.

Definition validate_iss (claims : list (string * pyval)) (issuer : string) : M unit :=
  if negb (py_eq (dict_get claims "iss") (PStr issuer)) then raise (JWTClaimsError "Invalid issuer")
  else ret tt.

Definition validate_sub (claims : list (string * pyval)) : M unit :=
  if negb (dict_has claims "sub") then ret tt
  else if negb (is_str (dict_get claims "sub")) then raise (JWTClaimsError "Subject must be a string.")
  else ret tt.

Definition validate_jti (claims : list (string * pyval)) : M unit :=
  if negb (dict_has claims "jti") then ret tt
  else if negb (is_str (dict_get claims "jti")) then raise (JWTClaimsError "JWT ID must be a string.")
  else ret tt.

Definition validate_claims (claims : list (string * pyval)) (audience issuer : string) : M unit :=
  run validate_iat claims then
  run validate_nbf claims then
  run validate_exp claims then
  run validate_aud claims audience then
  run validate_iss claims issuer then
  run validate_sub claims then
  validate_jti claims.

Definition jwt_decode (token : string) (key : Key) (algorithms : list string)
    (audience issuer : string) : M (list (string * pyval)) :=
  let* payload := jws_verify token key algorithms in
  match json_loads payload with
  | Err m => raise (JWTError ("Invalid payload string: " ++ m))
  | Ok (PDict claims) =>
      run validate_claims claims audience issuer then
      ret claims
  | Ok _ => raise (JWTError "Invalid payload string: must be a json object")
  end.

(** ** get_jwks *)

Definition is_None (v : pyval) : bool :=
  match v with PNone => true | _ => false end.

(** [f"{issuer}.well-known/jwks.json"] and its variants (lines 129-135). *)
Definition jwks_url_of_issuer (issuer : string) : string :=
  if negb (contains "/.well-known/" issuer) then
    if endswith "/" issuer then issuer ++ ".well-known/jwks.json"
    else issuer ++ "/.well-known/jwks.json"
  else issuer.

Definition no_get : exc := OtherException "object has no attribute 'get'".

(** Lines 123-135: the URL to request. *)
Definition resolve_jwks_url : M string :=
  let* jwks_url := getenv OIDC_JWKS_URL in
  match jwks_url with
  | Some (String c u) => ret (String c u)
  | _ =>
      let* issuer := getenv OIDC_ISSUER in
      match issuer with
      | Some (String c i) => ret (jwks_url_of_issuer (String c i))
      | _ => raise (AuthenticationFailed "OIDC_ISSUER not configured")
      end
  end.

(** Lines 137-155: the request, and what becomes of its failure. *)
Definition refresh (now : Z) (jwks_url : string) : M unit :=
  try_except
    (let* reply := http_get_json jwks_url in
     match reply with
     | HttpRaises e => raise e
     | HttpJson (PDict jwks) =>
         if negb (truthy (dict_get jwks "keys")) then
           raise (AuthenticationFailed "Invalid JWKS format")
         else assign_cache (Cache (dict_get jwks "keys") now)
     | HttpJson _ => raise no_get
     end)
    (fun e =>
       match e with
       | RequestException _ =>
           let* cache := read_cache in
           if negb (is_None (keys cache)) then ret tt
           else raise e
       | _ => raise e
       end).

Definition get_jwks : M pyval :=
  let* now := time_time in
  let* cache := read_cache in
  let* ttl := read_ttl in
  run
    (if is_None (keys cache) || (ttl <? now - last_updated cache) then
       let* jwks_url := resolve_jwks_url in
       refresh now jwks_url
     else ret tt)
  then
  let* cache := read_cache in
  ret (keys cache).

(** ** get_key_for_token *)

(** The body of [for key_data in keys] over a list: the key built from
    the first entry whose [kid] equals the token's, [None] when the loop
    ends without one. *)
Fixpoint scan_keys (kid : pyval) (l : list pyval) : outcome (option Key) :=
  match l with
  | [] => Return None
  | key_data :: rest =>
      match key_data with
      | PDict d =>
          if py_eq (dict_get d "kid") kid then
            match jwk_construct key_data with
            | Ok k => Return (Some k)
            | Err m => Raise (AuthenticationFailed ("Failed to construct key: " ++ m))
            end
          else scan_keys kid rest
      | _ => Raise no_get
      end
  end.

(** The loop over whatever [get_jwks] returned: a string or a dict yields
    strings, which have no [get]; a number or [None] cannot be iterated. *)
Definition find_key (kid : pyval) (keys : pyval) : outcome (option Key) :=
  match keys with
  | PList l => scan_keys kid l
  | PStr "" | PDict [] => Return None
  | PStr _ | PDict _ => Raise no_get
  | PNone | PBool _ | PInt _ => Raise (OtherException "object is not iterable")
  end.

(** Lines 164-170: the key id of the unverified header. *)
Definition token_kid (token : string) : M pyval :=
  try_except
    (let* headers := get_unverified_header token in
     let kid := dict_get headers "kid" in
     if negb (truthy kid) then raise (AuthenticationFailed "Token missing key ID (kid)")
     else ret kid)
    (fun e => raise (AuthenticationFailed ("Invalid token header: " ++ str e))).

Definition get_key_for_token (token : string) : M Key :=
  let* kid := token_kid token in
  let* keys := get_jwks in
  let* found := lift (find_key kid keys) in
  match found with
  | Some key => ret key
  | None =>
      run store_last_updated 0 then
      let* keys := get_jwks in
      let* found := lift (find_key kid keys) in
      match found with
      | Some key => ret key
      | None => raise (AuthenticationFailed ("Key ID " ++ py_str kid ++ " not found in JWKS"))
      end
  end.

(** ** validate_token *)

Definition validate_token (token : string) : M (list (string * pyval)) :=
  let* issuer := getenv OIDC_ISSUER in
  let* audience := getenv OIDC_AUDIENCE in
  match issuer, audience with
  | Some (String ci i), Some (String ca a) =>
      let issuer := String ci i in
      let audience := String ca a in
      let* key := get_key_for_token token in
      try_except
        (jwt_decode token key ["RS256"] audience issuer)
        (fun e =>
           match e with
           | ExpiredSignatureError _ => raise (AuthenticationFailed "Token has expired")
           | JWTClaimsError m =>
               if contains "audience" (lower m) then
                 raise (AuthenticationFailed ("Token audience invalid. Expected: " ++ audience))
               else if contains "issuer" (lower m) then
                 raise (AuthenticationFailed ("Token issuer invalid. Expected: " ++ issuer))
               else raise (AuthenticationFailed ("Token claims verification failed: " ++ m))
           | JWTError m => raise (AuthenticationFailed ("Token validation failed: " ++ m))
           | _ => raise e
           end)
  | _, _ => raise (AuthenticationFailed "OIDC configuration incomplete")
  end.

(** ** The customer store *)

(** A [Customer] instance in memory.  Its attributes hold whatever was
    assigned to them; the table holds text. *)
Record Customer := MkCustomer {
  external_id : pyval;
  first_name : pyval;
  last_name : pyval;
  email : pyval;
  phone : pyval;
  address : option string
}.

Definition of_row (key : string) (r : row) : Customer :=
  MkCustomer (PStr key) (PStr (row_first_name r)) (PStr (row_last_name r))
             (PStr (row_email r)) (PStr (row_phone r)) (row_address r).

(** What a text column stores for an attribute: the string itself,
    [str(v)] of another value, and no value for [None], which the
    NOT NULL columns refuse. *)
Definition to_text (v : pyval) : option string :=
  match v with
  | PNone => None
  | v => Some (py_str v)
  end.

Definition integrity_error : exc := OtherException "NOT NULL constraint failed".

(** [Customer.objects.get_or_create(external_id=sub, defaults={...})]:
    the customer with this external id and [False], or a new row made of
    the defaults and [True].  When a value is [None] the INSERT is sent
    all the same and the database refuses it: no row changes and the
    [IntegrityError] is raised. *)
Definition get_or_create (sub fn ln em ph : pyval) : M (Customer * bool) :=
  fun w =>
    match to_text sub with
    | None => (Raise integrity_error, sent_in_vain (InsertRefused sub) w)
    | Some key =>
        match customers w !! key with
        | Some r => (Return (of_row key r, false), w)
        | None =>
            match to_text fn, to_text ln, to_text em, to_text ph with
            | Some f, Some l, Some e, Some p =>
                let r := Row f l e p None in
                (Return (MkCustomer sub fn ln em ph None, true),
                 set_customers (<[key := r]> (customers w)) (Insert key r :: writes w) w)
            | _, _, _, _ => (Raise integrity_error, sent_in_vain (InsertRefused sub) w)
            end
        end
    end.

(** The value of a column in the instance. *)
Definition attribute (c : Customer) (col : column) : option string :=
  match col with
  | first_name_col => to_text (first_name c)
  | last_name_col => to_text (last_name c)
  | email_col => to_text (email c)
  | phone_col => to_text (phone c)
  | address_col => address c
  end.

(** One column of a row replaced. *)
Definition set_column (col : column) (v : option string) (r : row) : option row :=
  match col, v with
  | first_name_col, Some s => Some (Row s (row_last_name r) (row_email r) (row_phone r) (row_address r))
  | last_name_col, Some s => Some (Row (row_first_name r) s (row_email r) (row_phone r) (row_address r))
  | email_col, Some s => Some (Row (row_first_name r) (row_last_name r) s (row_phone r) (row_address r))
  | phone_col, Some s => Some (Row (row_first_name r) (row_last_name r) (row_email r) s (row_address r))
  | address_col, v => Some (Row (row_first_name r) (row_last_name r) (row_email r) (row_phone r) v)
  | _, None => None
  end.

Fixpoint set_columns (c : Customer) (cols : list column) (r : row) : option row :=
  match cols with
  | [] => Some r
  | col :: rest =>
      match set_column col (attribute c col) r with
      | Some r' => set_columns c rest r'
      | None => None
      end
  end.

(** [customer.save(update_fields=cols)]: an UPDATE of the named columns
    of the customer's row, and of nothing else.  An UPDATE that matches
    no row, or that the database refuses, is sent and changes nothing. *)
Definition save (c : Customer) (cols : list column) : M unit :=
  fun w =>
    match to_text (external_id c) with
    | None => (Raise integrity_error, sent_in_vain (UpdateFailed (external_id c) cols) w)
    | Some key =>
        match customers w !! key with
        | None => (Raise (OtherException "Save with update_fields did not affect any rows."),
                   sent_in_vain (UpdateFailed (external_id c) cols) w)
        | Some r =>
            match set_columns c cols r with
            | None => (Raise integrity_error, sent_in_vain (UpdateFailed (external_id c) cols) w)
            | Some r' =>
                (Return tt,
                 set_customers (<[key := r']> (customers w)) (Update key cols :: writes w) w)
            end
        end
    end.

(** ** authenticate *)

(** The request, as far as [get_authorization_header] looks at it: the
    bytes of the Authorization header, if the request has one. *)
Record Request := MkRequest {
  HTTP_AUTHORIZATION : option string
}.

Definition get_authorization_header (request : Request) : string :=
  match HTTP_AUTHORIZATION request with
  | Some b => b
  | None => ""
  end.

(** Lines 83-99: the attributes that differ from a non-empty claim are
    assigned, and their names collected in [update_fields]. *)
Definition reconcile (customer : Customer) (payload : list (string * pyval))
    : Customer * list column :=
  let update_fields : list column := [] in
  let '(customer, update_fields) :=
    if truthy (dict_get payload "given_name")
       && negb (py_eq (first_name customer) (dict_get payload "given_name")) then
      (MkCustomer (external_id customer) (dict_get payload "given_name") (last_name customer)
                  (email customer) (phone customer) (address customer),
       (update_fields ++ [first_name_col])%list)
    else (customer, update_fields) in
  let '(customer, update_fields) :=
    if truthy (dict_get payload "family_name")
       && negb (py_eq (last_name customer) (dict_get payload "family_name")) then
      (MkCustomer (external_id customer) (first_name customer) (dict_get payload "family_name")
                  (email customer) (phone customer) (address customer),
       (update_fields ++ [last_name_col])%list)
    else (customer, update_fields) in
  let '(customer, update_fields) :=
    if truthy (dict_get payload "email")
       && negb (py_eq (email customer) (dict_get payload "email")) then
      (MkCustomer (external_id customer) (first_name customer) (last_name customer)
                  (dict_get payload "email") (phone customer) (address customer),
       (update_fields ++ [email_col])%list)
    else (customer, update_fields) in
  let '(customer, update_fields) :=
    if truthy (dict_get payload "phone_number")
       && negb (py_eq (phone customer) (dict_get payload "phone_number")) then
      (MkCustomer (external_id customer) (first_name customer) (last_name customer)
                  (email customer) (dict_get payload "phone_number") (address customer),
       (update_fields ++ [phone_col])%list)
    else (customer, update_fields) in
  (customer, update_fields).

(** Lines 66-101, the body of the [try]. *)
Definition authenticate_token (token : string) : M (option (Customer * string)) :=
  let* payload := validate_token token in
  let sub := dict_get payload "sub" in
  if negb (truthy sub) then raise (AuthenticationFailed "Token missing sub claim")
  else
    let* got :=
      get_or_create sub
        (dict_get_default payload "given_name" (PStr ""))
        (dict_get_default payload "family_name" (PStr ""))
        (dict_get_default payload "email" (PStr ""))
        (dict_get_default payload "phone_number" (PStr "")) in
    let '(customer, created) := got in
    let* customer :=
      if negb created then
        let '(customer, update_fields) := reconcile customer payload in
        run (match update_fields with
             | [] => ret tt
             | _ => save customer update_fields
             end)
        then ret customer
      else ret customer in
    ret (Some (customer, token)).

(** The [except] clauses of [authenticate] (lines 103-111). *)
Definition authentication_failed {A} (e : exc) : M A :=
  if is_JWTError e then
    raise (AuthenticationFailed ("Invalid token: " ++ str e))
  else match e with
  | RequestException _ => raise (AuthenticationFailed "Error fetching JWKS")
  | _ => raise (AuthenticationFailed ("Authentication failed: " ++ str e))
  end.

Definition authenticate (request : Request) : M (option (Customer * string)) :=
  let auth_header := split (get_authorization_header request) in
  match auth_header with
  | [] => ret None
  | scheme :: _ =>
      if negb (String.eqb (lower scheme) "bearer") then ret None
      else if negb (length auth_header =? 2)%nat then
        raise (AuthenticationFailed "Invalid token header. No credentials provided.")
      else
        match bytes_decode (nth 1 auth_header "") with
        | None => raise (OtherException "'utf-8' codec can't decode byte")
        | Some token => try_except (authenticate_token token) authentication_failed
        end
  end.

(** ** Vocabulary of the properties *)

(** The URL [get_jwks] requests under an environment: [OIDC_JWKS_URL],
    or the one derived from [OIDC_ISSUER]. *)
Definition jwks_url (e : environ) : option string :=
  match OIDC_JWKS_URL e with
  | Some (String c u) => Some (String c u)
  | _ =>
      match OIDC_ISSUER e with
      | Some (String c i) => Some (jwks_url_of_issuer (String c i))
      | _ => None
      end
  end.

(** The test of lines 120-121 on the cache the instance sees, at the
    reading of the clock that is due. *)
Definition stale (w : world) : bool :=
  is_None (keys (visible_cache w))
  || (CACHE_TTL w <? clock w (ticks w) - last_updated (visible_cache w)).

(** A body that [get_jwks] takes for a key set: a JSON object with a
    non-empty [keys]. *)
Definition jwks_body (body : pyval) : option pyval :=
  match body with
  | PDict jwks => if truthy (dict_get jwks "keys") then Some (dict_get jwks "keys") else None
  | _ => None
  end.

(** What a refresh makes of the reply of the endpoint. *)
Definition refreshed (now : Z) (url : string) (w : world) : outcome unit * world :=
  let w' := set_requests (url :: requests w) w in
  match network w (length (requests w)) url with
  | HttpRaises (RequestException m) =>
      if is_None (keys (visible_cache w)) then (Raise (RequestException m), w')
      else (Return tt, w')
  | HttpRaises e => (Raise e, w')
  | HttpJson body =>
      match jwks_body body with
      | Some ks => (Return tt, set_self_cache (Some (Cache ks now)) w')
      | None =>
          match body with
          | PDict _ => (Raise (AuthenticationFailed "Invalid JWKS format"), w')
          | _ => (Raise no_get, w')
          end
      end
  end.

(** The request carries [token] as a well-formed Bearer credential: the
    header splits in two parts, the first is "Bearer" in any case, the
    second decodes to the token. *)
Definition presents (request : Request) (token : string) : Prop :=
  exists scheme tokb,
    split (get_authorization_header request) = [scheme; tokb]
    /\ lower scheme = "bearer"
    /\ bytes_decode tokb = Some token.

(** What token validation leaves alone: the environment, the TTL, the
    clock and the endpoint themselves, and the customer table. *)
Definition same_surroundings (w w' : world) : Prop :=
  env w' = env w /\ CACHE_TTL w' = CACHE_TTL w /\ clock w' = clock w
  /\ network w' = network w /\ customers w' = customers w /\ writes w' = writes w.

(** Another instance of the class in the same process: it has no
    attribute of its own yet, and shares everything else. *)
Definition new_instance (w : world) : world := set_self_cache None w.

(** The world after [self._jwks_cache['last_updated'] = 0]. *)
Definition invalidated (w : world) : world := snd (store_last_updated 0 w).

(** The [aud] claim names the audience: it is the audience itself or a
    list with the audience in it. *)
Definition audience_matches (claims : list (string * pyval)) (audience : string) : Prop :=
  dict_get claims "aud" = PStr audience
  \/ exists l, dict_get claims "aud" = PList l /\ In (PStr audience) l.

(** The failure of a Bearer header with a wrong count of parts. *)
Definition malformed_header : exc :=
  AuthenticationFailed "Invalid token header. No credentials provided.".

(** The profile columns, in the order [authenticate] compares them, and
    the claim that feeds each. *)
Definition profile_columns : list column :=
  [first_name_col; last_name_col; email_col; phone_col].

Definition claim_of (col : column) (payload : list (string * pyval)) : pyval :=
  match col with
  | first_name_col => dict_get payload "given_name"
  | last_name_col => dict_get payload "family_name"
  | email_col => dict_get payload "email"
  | phone_col => dict_get payload "phone_number"
  | address_col => PNone
  end.

(** The value a row holds in a column. *)
Definition stored (col : column) (r : row) : option string :=
  match col with
  | first_name_col => Some (row_first_name r)
  | last_name_col => Some (row_last_name r)
  | email_col => Some (row_email r)
  | phone_col => Some (row_phone r)
  | address_col => row_address r
  end.

(** The claim of a column is non-empty and differs from the stored value. *)
Definition differs (r : row) (payload : list (string * pyval)) (col : column) : bool :=
  match stored col r with
  | Some s => truthy (claim_of col payload) && negb (py_eq (PStr s) (claim_of col payload))
  | None => truthy (claim_of col payload)
  end.

Definition changed (r : row) (payload : list (string * pyval)) : list column :=
  List.filter (differs r payload) profile_columns.

Definition with_address (a : option string) (r : row) : row :=
  Row (row_first_name r) (row_last_name r) (row_email r) (row_phone r) a.

(** The profile claims that are not empty are strings. *)
Definition text_claims (payload : list (string * pyval)) : Prop :=
  forall col, truthy (claim_of col payload) = true -> is_str (claim_of col payload) = true.

(** The readings of the clock that the checks of the claims make: the
    one of [nbf], when the token has a numeric one, comes first, then the
    one of [exp]. *)
Definition nbf_reads (claims : list (string * pyval)) : nat :=
  if dict_has claims "nbf" then
    match py_int (dict_get claims "nbf") with
    | IntOk _ => 1
    | _ => 0
    end
  else 0.

(** The time the check of [exp] reads, [w] being the world in which the
    claims are checked (the key resolved). *)
Definition expiry_reading (claims : list (string * pyval)) (w : world) : Z :=
  clock w (ticks w + nbf_reads claims).




(** The stale-cache claim read on every failed refresh: whatever makes
    the refresh fail, a key set the instance already has is returned and
    the cache is left as it was. *)
Definition degrades_on_every_failure : Prop :=
  forall (w : world) (url : string),
    stale w = true -> jwks_url (env w) = Some url ->
    keys (visible_cache w) <> PNone ->
    (forall body, network w (length (requests w)) url = HttpJson body ->
                  jwks_body body = None) ->
    exists w', get_jwks w = (Return (keys (visible_cache w)), w')
               /\ visible_cache w' = visible_cache w.

(** The configuration claim: a missing issuer or audience never shows as
    the [AuthenticationFailed] of a request that presents a token. *)
Definition missing_configuration_is_not_a_request_failure : Prop :=
  forall (request : Request) (token : string) (w : world),
    presents request token ->
    env_missing (OIDC_ISSUER (env w)) = true \/ env_missing (OIDC_AUDIENCE (env w)) = true ->
    forall detail w', authenticate request w <> (Raise (AuthenticationFailed detail), w').

(** An attribute after the comparison of lines 85-96. *)
Definition pick (b : bool) (claim : pyval) (old : string) : pyval :=
  if b then claim else PStr old.

(** The row after the UPDATE of the changed columns. *)
Definition updated (r : row) payload : row :=
  Row (if differs r payload first_name_col
       then py_str (claim_of first_name_col payload) else row_first_name r)
      (if differs r payload last_name_col
       then py_str (claim_of last_name_col payload) else row_last_name r)
      (if differs r payload email_col
       then py_str (claim_of email_col payload) else row_email r)
      (if differs r payload phone_col
       then py_str (claim_of phone_col payload) else row_phone r)
      (row_address r).

(** ** Vocabulary of the further properties *)

(** From [w] to [w'] only the clock was read. *)
Definition ticked (w w' : world) : Prop :=
  exists n, w' = set_ticks n w /\ (ticks w <= n)%nat.

(** From [w] to [w'] at most [n] requests were sent, all of them to the
    JWKS URL of the environment; the environment, the TTL, the clock and
    the endpoint are the same, and so are the [keys] of the class-level
    dict. *)
Definition advances (n : nat) (w w' : world) : Prop :=
  env w' = env w /\ CACHE_TTL w' = CACHE_TTL w /\ clock w' = clock w
  /\ network w' = network w
  /\ keys (class_cache w') = keys (class_cache w)
  /\ (ticks w <= ticks w')%nat
  /\ exists sent, requests w' = (sent ++ requests w)%list
                  /\ (length sent <= n)%nat
                  /\ forall u, In u sent -> jwks_url (env w) = Some u.

(** A JWKS entry that the loop of [get_key_for_token] passes over: a
    dict whose [kid] is not the one looked for. *)
Definition misses (kid : pyval) (key_data : pyval) : Prop :=
  exists d, key_data = PDict d /\ py_eq (dict_get d "kid") kid = false.

(** What the loop makes of the first entry with the [kid] looked for. *)
Definition constructed (key_data : pyval) : outcome Key :=
  match jwk_construct key_data with
  | Ok key => Return key
  | Err m => Raise (AuthenticationFailed ("Failed to construct key: " ++ m))
  end.

(** The claim a profile column is filled from. *)
Definition claim_key (col : column) : string :=
  match col with
  | first_name_col => "given_name"
  | last_name_col => "family_name"
  | email_col => "email"
  | phone_col => "phone_number"
  | address_col => "address"
  end.

(** The row [get_or_create] inserts for a payload: every profile column
    from its claim, the empty string when the claim is absent. *)
Definition created_row (payload : list (string * pyval)) : row :=
  Row (py_str (dict_get_default payload "given_name" (PStr "")))
      (py_str (dict_get_default payload "family_name" (PStr "")))
      (py_str (dict_get_default payload "email" (PStr "")))
      (py_str (dict_get_default payload "phone_number" (PStr "")))
      None.

(** Every byte of a string passes a test; a run of separators of
    [split], and a string without any. *)
Fixpoint every (p : ascii -> bool) (s : string) : bool :=
  match s with
  | EmptyString => true
  | String c s' => p c && every p s'
  end.

Definition blank (s : string) : bool := every is_space s.

Definition solid (s : string) : bool := every (fun c => negb (is_space c)) s.

(** The HTTP client raises exceptions of its own, none of the token
    library's. *)
Definition endpoint_raises_no_JWTError (w : world) : Prop :=
  forall n url e, network w n url = HttpRaises e -> is_JWTError e = false.

End OIDCAuthentication.

(** ** A small instance of the libraries, and worlds to run the methods in *)

Module Demo.

(** Keys are named by their modulus; a signature is the key's name, a
    colon and the signing input. *)
Definition construct (key_data : pyval) : res string :=
  match key_data with
  | PDict d =>
      match assoc "alg" d, assoc "n" d with
      | Some (PStr _), Some (PStr n) => Ok n
      | _, _ => Err "Unable to find an algorithm for key"
      end
  | _ => Err "Unable to find an algorithm for key"
  end.

Definition verify (key signing_input signature : string) : bool :=
  String.eqb signature (key ++ ":" ++ signing_input).

Definition payload_u1 : pyval :=
  PDict [("sub", PStr "u1"); ("iss", PStr "https://idp.example/");
         ("aud", PStr "app1"); ("exp", PInt 5000)].

Definition payload_new_name : pyval :=
  PDict [("sub", PStr "u1"); ("given_name", PStr "New"); ("iss", PStr "https://idp.example/");
         ("aud", PStr "app1"); ("exp", PInt 5000)].

Definition payload_other_aud : pyval :=
  PDict [("sub", PStr "u1"); ("iss", PStr "https://idp.example/");
         ("aud", PStr "app2"); ("exp", PInt 5000)].

Definition payload_expired : pyval :=
  PDict [("sub", PStr "u1"); ("iss", PStr "https://idp.example/");
         ("aud", PStr "app1"); ("exp", PInt 1000)].

Definition payload_profile : pyval :=
  PDict [("sub", PStr "u1"); ("given_name", PStr "New"); ("family_name", PStr "Person");
         ("email", PStr "new@example.com"); ("phone_number", PStr "+1234567890");
         ("iss", PStr "https://idp.example/"); ("aud", PStr "app1"); ("exp", PInt 5000);
         ("iat", PInt 1000)].

Definition payloads : list (string * pyval) :=
  [("p-u1", payload_u1); ("p-new", payload_new_name);
   ("p-aud", payload_other_aud); ("p-exp", payload_expired);
   ("p-profile", payload_profile)].

Definition token (alg : string) (kid : list (string * pyval)) (payload signer : string) : jws :=
  Jws (("alg", PStr alg) :: kid) payload ("h." ++ payload) (signer ++ ":h." ++ payload).

Definition jws_u1 : jws := token "RS256" [("kid", PStr "k1")] "p-u1" "P".
Definition jws_new : jws := token "RS256" [("kid", PStr "k1")] "p-new" "P".
Definition jws_aud : jws := token "RS256" [("kid", PStr "k1")] "p-aud" "P".
Definition jws_exp : jws := token "RS256" [("kid", PStr "k1")] "p-exp" "P".
Definition jws_forged : jws := token "RS256" [("kid", PStr "k1")] "p-u1" "Q".
Definition jws_hs256 : jws := token "HS256" [("kid", PStr "k1")] "p-u1" "P".
Definition jws_unknown : jws := token "RS256" [("kid", PStr "unknown")] "p-u1" "P".
Definition jws_nokid : jws := token "RS256" [] "p-u1" "P".
Definition jws_profile : jws := token "RS256" [("kid", PStr "k1")] "p-profile" "P".

Definition tokens : list (string * jws) :=
  [("tok-u1", jws_u1); ("tok-new", jws_new); ("tok-aud", jws_aud); ("tok-exp", jws_exp);
   ("tok-forged", jws_forged); ("tok-hs256", jws_hs256); ("tok-unknown", jws_unknown);
   ("tok-nokid", jws_nokid); ("tok-profile", jws_profile)].

#[export] Instance libraries : Libraries := {|
  Key := string;
  jws_load t := match assoc t tokens with Some j => Ok j | None => Err "Not enough segments" end;
  json_loads p := match assoc p payloads with Some v => Ok v | None => Err "Expecting value" end;
  jwk_construct := construct;
  key_verify := verify;
  repr _ := "<object>";
  int_of_str _ := None
|}.

Definition jwks_k1 : pyval :=
  PList [PDict [("kty", PStr "RSA"); ("kid", PStr "k1"); ("alg", PStr "RS256"); ("n", PStr "P")]].


Definition configured : environ :=
  Environ (Some "https://idp.example/") (Some "app1") None.

Definition serving (ks : pyval) (n : nat) (url : string) : http_reply :=
  HttpJson (PDict [("keys", ks)]).

Definition unreachable (n : nat) (url : string) : http_reply :=
  HttpRaises (RequestException "Connection refused").

Definition old_customer : row := Row "Old" "Name" "old@example.com" "+9876543210" (Some "1 Main St").

(** A new instance in a new process: nothing cached, at time 2000. *)
Definition w_cold : world :=
  World configured 600 (Cache PNone 0) None (fun _ => 2000) 0 (serving jwks_k1) [] ∅ [].

(** The same with the keys loaded at time 1900 and a customer [u1]. *)
Definition w_warm : world :=
  World configured 600 (Cache PNone 0) (Some (Cache jwks_k1 1900)) (fun _ => 2000) 0
        (serving jwks_k1) [] {[ "u1" := old_customer ]} [].

(** A cold start with a clock that advances 500 seconds a reading. *)
Definition w_ticking : world :=
  World configured 600 (Cache PNone 0) None (fun n => 2000 + 500 * Z.of_nat n) 0
        (serving jwks_k1) [] ∅ [].

(** Keys cached at 1900, read at 3000; the endpoint answers with an
    empty key set. *)
Definition w_empty_reply : world :=
  World configured 600 (Cache PNone 0) (Some (Cache jwks_k1 1900)) (fun _ => 3000) 0
        (serving (PList [])) [] ∅ [].

(** The same with an endpoint that cannot be reached. *)
Definition w_unreachable : world :=
  World configured 600 (Cache PNone 0) (Some (Cache jwks_k1 1900)) (fun _ => 3000) 0
        unreachable [] ∅ [].

(** No issuer in the environment. *)
Definition w_unconfigured : world :=
  World (Environ None (Some "app1") None) 600 (Cache PNone 0) None (fun _ => 2000) 0
        (serving jwks_k1) [] ∅ [].

(** A cold start with a TTL of one second, as the caching test sets it:
    the first four readings of the clock fall in the same second, the
    later ones two seconds after. *)
Definition w_short_ttl : world :=
  World configured 1 (Cache PNone 0) None
        (fun n => if (n <? 4)%nat then 2000 else 2002) 0
        (serving jwks_k1) [] ∅ [].

(** Three [authenticate] in a row, and the number of requests sent after each. *)
Definition three_calls (request : Request) (w : world) : nat * nat * nat :=
  let w1 := snd (authenticate request w) in
  let w2 := snd (authenticate request w1) in
  let w3 := snd (authenticate request w2) in
  (length (requests w1), length (requests w2), length (requests w3)).

Definition jwks_endpoint : string := "https://idp.example/.well-known/jwks.json".

Definition bearer (t : string) : Request := MkRequest (Some ("Bearer " ++ t)).

End Demo.

(** * More tokens and worlds

    The tables of [Demo] with tokens that lack a subject or an
    audience, come from another issuer, are not valid yet or carry a null
    name, a key set of two keys, a key set that has been rotated, and an
    endpoint that is down at a cold start. *)

Module Scenarios.

Definition payload_no_sub : pyval :=
  PDict [("iss", PStr "https://idp.example/"); ("aud", PStr "app1"); ("exp", PInt 5000)].

Definition payload_other_iss : pyval :=
  PDict [("sub", PStr "u1"); ("iss", PStr "https://other.example/");
         ("aud", PStr "app1"); ("exp", PInt 5000)].

Definition payload_premature : pyval :=
  PDict [("sub", PStr "u1"); ("iss", PStr "https://idp.example/");
         ("aud", PStr "app1"); ("exp", PInt 5000); ("nbf", PInt 4000)].

Definition payload_u2 : pyval :=
  PDict [("sub", PStr "u2"); ("given_name", PStr "Ann"); ("email", PStr "ann@example.com");
         ("iss", PStr "https://idp.example/"); ("aud", PStr "app1"); ("exp", PInt 5000)].

(** The token of [u1] without an audience. *)
Definition payload_no_aud : pyval :=
  PDict [("sub", PStr "u1"); ("iss", PStr "https://idp.example/"); ("exp", PInt 5000)].

(** A first visit with a [given_name] that is [null]. *)
Definition payload_null_name : pyval :=
  PDict [("sub", PStr "u3"); ("given_name", PNone); ("iss", PStr "https://idp.example/");
         ("aud", PStr "app1"); ("exp", PInt 5000)].

Definition payloads : list (string * pyval) :=
  Demo.payloads ++
  [("p-nosub", payload_no_sub); ("p-iss", payload_other_iss);
   ("p-nbf", payload_premature); ("p-u2", payload_u2);
   ("p-noaud", payload_no_aud); ("p-null", payload_null_name)].

Definition jws_no_sub : jws := Demo.token "RS256" [("kid", PStr "k1")] "p-nosub" "P".
Definition jws_other_iss : jws := Demo.token "RS256" [("kid", PStr "k1")] "p-iss" "P".
Definition jws_premature : jws := Demo.token "RS256" [("kid", PStr "k1")] "p-nbf" "P".
Definition jws_u2 : jws := Demo.token "RS256" [("kid", PStr "k1")] "p-u2" "P".
Definition jws_no_aud : jws := Demo.token "RS256" [("kid", PStr "k1")] "p-noaud" "P".
Definition jws_null_name : jws := Demo.token "RS256" [("kid", PStr "k1")] "p-null" "P".

Definition tokens : list (string * jws) :=
  Demo.tokens ++
  [("tok-nosub", jws_no_sub); ("tok-iss", jws_other_iss);
   ("tok-nbf", jws_premature); ("tok-u2", jws_u2);
   ("tok-noaud", jws_no_aud); ("tok-null", jws_null_name)].

Definition more_libraries : Libraries := {|
  Key := string;
  jws_load t := match assoc t tokens with Some j => Ok j | None => Err "Not enough segments" end;
  json_loads p := match assoc p payloads with Some v => Ok v | None => Err "Expecting value" end;
  jwk_construct := Demo.construct;
  key_verify := Demo.verify;
  repr _ := "<object>";
  int_of_str _ := None
|}.

Definition key_k1 : list (string * pyval) :=
  [("kty", PStr "RSA"); ("kid", PStr "k1"); ("alg", PStr "RS256"); ("n", PStr "P")].

Definition key_k2 : list (string * pyval) :=
  [("kty", PStr "RSA"); ("kid", PStr "k2"); ("alg", PStr "RS256"); ("n", PStr "R")].

(** A cold start against an endpoint that serves two keys, [k2] first. *)
Definition w_two_keys : world :=
  World Demo.configured 600 (Cache PNone 0) None (fun _ => 2000) 0
        (Demo.serving (PList [PDict key_k2; PDict key_k1])) [] ∅ [].

(** A cold start against an endpoint that cannot be reached. *)
Definition w_down : world :=
  World Demo.configured 600 (Cache PNone 0) None (fun _ => 2000) 0 Demo.unreachable [] ∅ [].


(** The issuer written without its trailing slash. *)
Definition w_no_slash : world :=
  World (Environ (Some "https://idp.example") (Some "app1") None) 600 (Cache PNone 0) None
        (fun _ => 2000) 0 (Demo.serving Demo.jwks_k1) [] ∅ [].

End Scenarios.

(** * Properties *)

Section Properties.
Context `{Libraries}.

(** ** get_jwks, case by case *)

Ltac open_world w :=
  destruct w as [e ttl cc sc clk tk net rq cust wr]; cbn in *.

Ltac run_monad :=
  unfold bind, ret, raise, lift, try_except, time_time, read_cache, read_ttl, getenv,
    assign_cache, store_last_updated, http_get_json; cbn.

Lemma resolve_jwks_url_eq (w : world) :
  resolve_jwks_url w =
  match jwks_url (env w) with
  | Some url => (Return url, w)
  | None => (Raise (AuthenticationFailed "OIDC_ISSUER not configured"), w)
  end.
Proof.
  unfold resolve_jwks_url, jwks_url. run_monad.
  destruct (OIDC_JWKS_URL (env w)) as [[|c u]|]; try reflexivity;
    destruct (OIDC_ISSUER (env w)) as [[|c' i]|]; reflexivity.
Qed.

Lemma refresh_eq (now : Z) (url : string) (w : world) :
  refresh now url w = refreshed now url w.
Proof.
  unfold refresh, refreshed, jwks_body. open_world w. run_monad.
  destruct (net (length rq) url) as [e0|body].
  - destruct e0; cbn; try reflexivity.
    unfold visible_cache; cbn. destruct (is_None _); reflexivity.
  - destruct body as [| | | |l|d]; cbn; try reflexivity.
    destruct (truthy (dict_get d "keys")); reflexivity.
Qed.

Lemma get_jwks_eq (w : world) :
  get_jwks w =
  let w1 := set_ticks (S (ticks w)) w in
  if stale w then
    match jwks_url (env w) with
    | None => (Raise (AuthenticationFailed "OIDC_ISSUER not configured"), w1)
    | Some url =>
        match refreshed (clock w (ticks w)) url w1 with
        | (Return _, w2) => (Return (keys (visible_cache w2)), w2)
        | (Raise e, w2) => (Raise e, w2)
        end
    end
  else (Return (keys (visible_cache w)), w1).
Proof.
  unfold get_jwks, stale.
  unfold bind at 1. unfold time_time at 1. unfold bind at 1. unfold read_cache at 1.
  unfold bind at 1. unfold read_ttl at 1. cbn zeta.
  change (visible_cache (set_ticks (S (ticks w)) w)) with (visible_cache w).
  change (CACHE_TTL (set_ticks (S (ticks w)) w)) with (CACHE_TTL w).
  destruct (is_None (keys (visible_cache w)) || _).
  - unfold bind at 1. unfold bind at 1. rewrite resolve_jwks_url_eq.
    change (env (set_ticks (S (ticks w)) w)) with (env w).
    destruct (jwks_url (env w)) as [url|]; [|reflexivity].
    rewrite refresh_eq.
    destruct (refreshed _ _ _) as [[[]|e0] w2]; reflexivity.
  - reflexivity.
Qed.

Lemma truthy_not_None (v : pyval) : truthy v = true -> is_None v = false.
Proof. destruct v; cbn; congruence. Qed.

Lemma is_None_spec (v : pyval) : is_None v = true <-> v = PNone.
Proof. destruct v; cbn; split; congruence. Qed.

Lemma stale_spec (w : world) :
  stale w = true <->
  keys (visible_cache w) = PNone
  \/ clock w (ticks w) - last_updated (visible_cache w) > CACHE_TTL w.
Proof.
  unfold stale. rewrite orb_true_iff, is_None_spec, Z.ltb_lt.
  split; (intros [E|E]; [now left | right; lia]).
Qed.

Lemma requests_get_jwks (w : world) (url : string) :
  jwks_url (env w) = Some url ->
  requests (snd (get_jwks w)) = if stale w then url :: requests w else requests w.
Proof.
  intros Hu. rewrite get_jwks_eq, Hu. cbn zeta.
  destruct (stale w); [|reflexivity].
  unfold refreshed.
  destruct (network _ _ _) as [e0|body].
  - destruct e0; try reflexivity.
    destruct (is_None _); reflexivity.
  - destruct (jwks_body body); [reflexivity|].
    destruct body; reflexivity.
Qed.

Lemma cons_neq {A} (x : A) (l : list A) : x :: l <> l.
Proof. intros E. apply (f_equal (@length A)) in E. cbn in E. lia. Qed.

(** X19. Within one instance of the authenticator, [get_jwks] sends a
    request to the JWKS endpoint exactly when the instance sees no key
    set or the one it sees is older than [CACHE_TTL]; so of two calls of
    the instance within the TTL of a successful refresh only the first
    sends a request, and a call after the TTL sends the second one. *)
Theorem jwks_cache_ttl_discipline (w : world) (url : string) :
  jwks_url (env w) = Some url ->
  (requests (snd (get_jwks w)) = url :: requests w <->
     keys (visible_cache w) = PNone
     \/ clock w (ticks w) - last_updated (visible_cache w) > CACHE_TTL w) /\
  (requests (snd (get_jwks w)) = requests w <->
     ~ (keys (visible_cache w) = PNone
        \/ clock w (ticks w) - last_updated (visible_cache w) > CACHE_TTL w)) /\
  (forall body ks,
     stale w = true ->
     network w (length (requests w)) url = HttpJson body ->
     jwks_body body = Some ks ->
     let t0 := clock w (ticks w) in
     let t1 := clock w (S (ticks w)) in
     let t2 := clock w (S (S (ticks w))) in
     t1 - t0 <= CACHE_TTL w -> t2 - t0 > CACHE_TTL w ->
     exists w1 w2 w3 r3,
       get_jwks w = (Return ks, w1) /\ requests w1 = url :: requests w /\
       get_jwks w1 = (Return ks, w2) /\ requests w2 = requests w1 /\
       get_jwks w2 = (r3, w3) /\ requests w3 = url :: requests w2).
Proof.
  intros Hu. pose proof (requests_get_jwks w url Hu) as Hr.
  rewrite <- stale_spec. split; [|split].
  - rewrite Hr. destruct (stale w); split; try congruence.
    intros E. symmetry in E. now apply cons_neq in E.
  - rewrite Hr. destruct (stale w); split; try congruence; try tauto.
    intros E. now apply cons_neq in E.
  - intros body ks Hs Hn Hb t0 t1 t2 H1 H2.
    assert (Hks : is_None ks = false).
    { unfold jwks_body in Hb. destruct body; try discriminate.
      destruct (truthy (dict_get d "keys")) eqn:Ht; [|discriminate].
      injection Hb as <-. now apply truthy_not_None. }
    set (w1 := set_self_cache (Some (Cache ks t0))
                 (set_requests (url :: requests w) (set_ticks (S (ticks w)) w))).
    assert (E1 : get_jwks w = (Return ks, w1)).
    { rewrite get_jwks_eq, Hs, Hu. cbn zeta. unfold refreshed. cbn.
      rewrite Hn, Hb. reflexivity. }
    assert (S1 : stale w1 = false).
    { unfold stale, w1, visible_cache. cbn. rewrite Hks. cbn.
      apply Z.ltb_ge. subst t0 t1. lia. }
    set (w2 := set_ticks (S (ticks w1)) w1).
    assert (E2 : get_jwks w1 = (Return ks, w2)).
    { rewrite get_jwks_eq, S1. reflexivity. }
    assert (S2 : stale w2 = true).
    { unfold stale, w2, w1, visible_cache. cbn. rewrite Hks. cbn.
      apply Z.ltb_lt. subst t0 t2. lia. }
    exists w1, w2, (snd (get_jwks w2)), (fst (get_jwks w2)).
    repeat split; auto.
    + now destruct (get_jwks w2).
    + rewrite (requests_get_jwks w2 url), S2; [reflexivity|exact Hu].
Qed.

(** What [get_jwks] makes of a refresh that fails: when the request
    raises a [RequestException] and the instance has a key set, it
    returns that set and leaves the cache as it was; with no key set the
    [RequestException] is raised.  A decoded reply without a non-empty
    [keys] raises even when the instance has a key set, the cache
    unchanged. *)
Theorem stale_cache_degradation (w : world) (url : string) :
  stale w = true -> jwks_url (env w) = Some url ->
  (forall m, network w (length (requests w)) url = HttpRaises (RequestException m) ->
     exists w',
       visible_cache w' = visible_cache w
       /\ (keys (visible_cache w) <> PNone ->
           get_jwks w = (Return (keys (visible_cache w)), w'))
       /\ (keys (visible_cache w) = PNone ->
           get_jwks w = (Raise (RequestException m), w'))) /\
  (forall body, network w (length (requests w)) url = HttpJson body ->
     jwks_body body = None ->
     exists e w',
       get_jwks w = (Raise e, w')
       /\ visible_cache w' = visible_cache w
       /\ (e = AuthenticationFailed "Invalid JWKS format" \/ e = no_get)).
Proof.
  intros Hs Hu. split.
  - intros m Hn. exists (set_requests (url :: requests w) (set_ticks (S (ticks w)) w)).
    split; [reflexivity|].
    rewrite get_jwks_eq, Hs, Hu. cbn zeta. unfold refreshed. cbn. rewrite Hn.
    change (visible_cache (set_ticks (S (ticks w)) w)) with (visible_cache w).
    split; intros Hk.
    + destruct (is_None (keys (visible_cache w))) eqn:E; [|reflexivity].
      apply is_None_spec in E. contradiction.
    + rewrite Hk. reflexivity.
  - intros body Hn Hb.
    rewrite get_jwks_eq, Hs, Hu. cbn zeta. unfold refreshed. cbn. rewrite Hn, Hb.
    destruct body; eexists _, _; (split; [reflexivity|split; [reflexivity|]]); auto.
Qed.

(** ** authenticate on a Bearer credential *)

Lemma authenticate_bearer (request : Request) (token : string) (w : world) :
  presents request token ->
  authenticate request w = try_except (authenticate_token token) authentication_failed w.
Proof.
  intros (scheme & tokb & Hsplit & Hlow & Hdec).
  unfold authenticate. rewrite Hsplit, Hlow. cbn. rewrite Hdec. reflexivity.
Qed.

Lemma authentication_failed_raises {A} (e : exc) (w : world) :
  exists detail, @authentication_failed A e w = (Raise (AuthenticationFailed detail), w).
Proof.
  unfold authentication_failed. destruct e; cbn; eexists; reflexivity.
Qed.

(** Whatever the body of the [try] does, [authenticate] returns its
    result or raises [AuthenticationFailed]. *)
Lemma try_authentication_failed {A} (m : M A) (w : world) :
  (exists a w', m w = (Return a, w')
                /\ try_except m authentication_failed w = (Return a, w'))
  \/ (exists e detail w', m w = (Raise e, w')
        /\ try_except m authentication_failed w = (Raise (AuthenticationFailed detail), w')).
Proof.
  unfold try_except. destruct (m w) as [[a|e] w'].
  - left. eauto.
  - right. destruct (@authentication_failed_raises A e w') as [d Hd]. rewrite Hd. eauto 6.
Qed.

(** C8, as amended. A missing (or empty) issuer or audience makes
    [validate_token] raise [AuthenticationFailed] on every request, before
    any key is resolved, and [authenticate] reports it as such. *)
Theorem missing_configuration_fails_request (token : string) (w : world) :
  env_missing (OIDC_ISSUER (env w)) = true \/ env_missing (OIDC_AUDIENCE (env w)) = true ->
  validate_token token w = (Raise (AuthenticationFailed "OIDC configuration incomplete"), w)
  /\ forall request, presents request token ->
       authenticate request w =
       (Raise (AuthenticationFailed "Authentication failed: OIDC configuration incomplete"), w).
Proof.
  intros Hm.
  assert (Hv : validate_token token w
               = (Raise (AuthenticationFailed "OIDC configuration incomplete"), w)).
  { unfold validate_token. run_monad.
    destruct (OIDC_ISSUER (env w)) as [[|ci i]|], (OIDC_AUDIENCE (env w)) as [[|ca a]|];
      cbn in Hm; try reflexivity. destruct Hm; discriminate. }
  split; [exact Hv|].
  intros request Hp. rewrite (authenticate_bearer _ _ _ Hp).
  unfold try_except, authenticate_token. unfold bind at 1. rewrite Hv. reflexivity.
Qed.

(** ** Instances

    [get_jwks] binds the refreshed dict on the instance; the dict of the
    class keeps its [keys], so an instance made later starts without a
    key set and sends a request of its own. *)

Lemma get_jwks_class_cache (w w' : world) (r : outcome pyval) :
  get_jwks w = (r, w') -> class_cache w' = class_cache w.
Proof.
  rewrite get_jwks_eq. cbn zeta. unfold refreshed.
  destruct (stale w); [|now intros [= <- <-]].
  destruct (jwks_url (env w)) as [url|]; [|now intros [= <- <-]].
  cbn. destruct (network w (length (requests w)) url) as [e0|body].
  - destruct e0; try (now intros [= <- <-]).
    destruct (is_None _); now intros [= <- <-].
  - destruct (jwks_body body); [now intros [= <- <-]|].
    destruct body; now intros [= <- <-].
Qed.

Lemma new_instance_requests (w : world) (url : string) :
  jwks_url (env w) = Some url -> keys (class_cache w) = PNone ->
  requests (snd (get_jwks (new_instance w))) = url :: requests w.
Proof.
  intros Hu Hk. rewrite (requests_get_jwks (new_instance w) url Hu).
  unfold stale, new_instance, visible_cache. cbn. now rewrite Hk.
Qed.

(** ** Key resolution *)

Lemma same_surroundings_refl (w : world) : same_surroundings w w.
Proof. repeat split. Qed.

Lemma same_surroundings_trans (w1 w2 w3 : world) :
  same_surroundings w1 w2 -> same_surroundings w2 w3 -> same_surroundings w1 w3.
Proof.
  unfold same_surroundings. intros (?&?&?&?&?&?) (?&?&?&?&?&?).
  repeat split; congruence.
Qed.

Lemma get_jwks_surroundings (w w' : world) (r : outcome pyval) :
  get_jwks w = (r, w') -> same_surroundings w w'.
Proof.
  rewrite get_jwks_eq. cbn zeta. unfold refreshed.
  destruct (stale w); [|intros [= <- <-]; repeat split].
  destruct (jwks_url (env w)) as [url|]; [|intros [= <- <-]; repeat split].
  cbn. destruct (network w (length (requests w)) url) as [e0|body].
  - destruct e0; try (intros [= <- <-]; repeat split).
    destruct (is_None _); intros [= <- <-]; repeat split.
  - destruct (jwks_body body); [intros [= <- <-]; repeat split|].
    destruct body; intros [= <- <-]; repeat split.
Qed.

Lemma token_kid_eq (token : string) (w : world) :
  token_kid token w =
  match jws_load token with
  | Err _ =>
      (Raise (AuthenticationFailed "Invalid token header: Error decoding token headers."), w)
  | Ok j =>
      if truthy (dict_get (jws_header j) "kid") then (Return (dict_get (jws_header j) "kid"), w)
      else (Raise (AuthenticationFailed "Invalid token header: Token missing key ID (kid)"), w)
  end.
Proof.
  unfold token_kid, get_unverified_header. run_monad.
  destruct (jws_load token) as [j|m]; cbn; [|reflexivity].
  destruct (truthy (dict_get (jws_header j) "kid")); reflexivity.
Qed.

Lemma invalidated_stale (w : world) :
  CACHE_TTL w < clock w (ticks w) -> stale (invalidated w) = true.
Proof.
  intros Hc. unfold stale, invalidated, store_last_updated, visible_cache. cbn.
  apply orb_true_iff. right. apply Z.ltb_lt.
  destruct (self_cache w) eqn:E; cbn; rewrite ?E; cbn; lia.
Qed.


(** ** The header *)

(** C5. The header state machine of [authenticate]: without an
    Authorization header, or with another scheme than Bearer (in any
    case), it returns [None] and does nothing; with the Bearer scheme and
    not exactly two parts it raises [AuthenticationFailed]; a two-part
    Bearer header goes on to the validation of its token, and any other
    outcome than these two comes from such a header. *)
Theorem header_state_machine (request : Request) (w : world) :
  (HTTP_AUTHORIZATION request = None -> authenticate request w = (Return None, w)) /\
  (split (get_authorization_header request) = [] -> authenticate request w = (Return None, w)) /\
  (forall scheme rest,
     split (get_authorization_header request) = scheme :: rest ->
     lower scheme <> "bearer" ->
     authenticate request w = (Return None, w)) /\
  (forall scheme rest,
     split (get_authorization_header request) = scheme :: rest ->
     lower scheme = "bearer" -> length (scheme :: rest) <> 2%nat ->
     authenticate request w = (Raise malformed_header, w)) /\
  (forall token,
     presents request token ->
     authenticate request w = try_except (authenticate_token token) authentication_failed w) /\
  (forall r w',
     authenticate request w = (r, w') ->
     (r, w') <> (Return None, w) -> (r, w') <> (Raise malformed_header, w) ->
     exists scheme tokb,
       split (get_authorization_header request) = [scheme; tokb] /\ lower scheme = "bearer").
Proof.
  assert (Hnil : split (get_authorization_header request) = [] ->
                 authenticate request w = (Return None, w)).
  { intros E. unfold authenticate. rewrite E. reflexivity. }
  assert (Hother : forall scheme rest,
     split (get_authorization_header request) = scheme :: rest ->
     lower scheme <> "bearer" -> authenticate request w = (Return None, w)).
  { intros scheme rest E Hl. unfold authenticate. rewrite E.
    destruct (String.eqb (lower scheme) "bearer") eqn:Eb; [|reflexivity].
    apply String.eqb_eq in Eb. contradiction. }
  assert (Hmal : forall scheme rest,
     split (get_authorization_header request) = scheme :: rest ->
     lower scheme = "bearer" -> length (scheme :: rest) <> 2%nat ->
     authenticate request w = (Raise malformed_header, w)).
  { intros scheme rest E Hl Hn. unfold authenticate. rewrite E, Hl. cbn [String.eqb negb].
    change (("bearer" =? "bearer")%string) with true. cbn [negb].
    destruct (Nat.eqb (length (scheme :: rest)) 2%nat) eqn:En; [|reflexivity].
    apply Nat.eqb_eq in En. contradiction. }
  split; [|split; [exact Hnil|split; [exact Hother|split; [exact Hmal|split]]]].
  - intros E. apply Hnil. unfold get_authorization_header. rewrite E. reflexivity.
  - intros token. apply authenticate_bearer.
  - intros r w' E N1 N2.
    destruct (split (get_authorization_header request)) as [|scheme rest] eqn:Es.
    { rewrite Hnil in E by reflexivity. congruence. }
    destruct (string_dec (lower scheme) "bearer") as [Hl|Hl].
    2:{ rewrite (Hother scheme rest) in E by auto. congruence. }
    destruct (Nat.eq_dec (length (scheme :: rest)) 2%nat) as [Hn|Hn].
    2:{ rewrite (Hmal scheme rest) in E by auto. congruence. }
    destruct rest as [|tokb [|x rest]]; try discriminate. eauto.
Qed.

(** ** What a returned payload tells *)

Lemma bind_returns {A B} (m : M A) (k : A -> M B) (w w' : world) (b : B) :
  bind m k w = (Return b, w') ->
  exists a w1, m w = (Return a, w1) /\ k a w1 = (Return b, w').
Proof.
  unfold bind. destruct (m w) as [[a|e] w1]; [eauto|discriminate].
Qed.

Lemma py_eq_str_r (v : pyval) (s : string) : py_eq v (PStr s) = true <-> v = PStr s.
Proof.
  destruct v; cbn; split; try discriminate.
  - intros E. apply String.eqb_eq in E. now subst.
  - intros [= ->]. apply String.eqb_refl.
Qed.

Lemma py_eq_str_l (v : pyval) (s : string) : py_eq (PStr s) v = true <-> v = PStr s.
Proof.
  destruct v; cbn; split; try discriminate.
  - intros E. apply String.eqb_eq in E. now subst.
  - intros [= ->]. apply String.eqb_refl.
Qed.

Ltac refuted := let E := fresh "E" in intros E; discriminate E.

Lemma validate_iat_returns claims (w w' : world) :
  validate_iat claims w = (Return tt, w') -> w' = w.
Proof.
  unfold validate_iat. destruct (negb (dict_has claims "iat")); [now intros [= <-]|].
  destruct (py_int _); cbn; try refuted. now intros [= <-].
Qed.

Lemma validate_nbf_returns claims (w w' : world) :
  validate_nbf claims w = (Return tt, w') -> same_surroundings w w'.
Proof.
  unfold validate_nbf. destruct (negb (dict_has claims "nbf")).
  { intros [= <-]. apply same_surroundings_refl. }
  destruct (py_int _); cbn; try refuted. run_monad.
  destruct (_ <? _); cbn; [refuted|]. intros [= <-]. repeat split.
Qed.

Lemma validate_exp_returns claims (w w' : world) :
  validate_exp claims w = (Return tt, w') ->
  same_surroundings w w'
  /\ (dict_has claims "exp" = true ->
      exists exp, py_int (dict_get claims "exp") = IntOk exp /\ clock w (ticks w) <= exp).
Proof.
  unfold validate_exp. destruct (dict_has claims "exp"); cbn [negb].
  2:{ intros [= <-]. split; [apply same_surroundings_refl|discriminate]. }
  destruct (py_int _) as [exp| |]; cbn; try refuted. run_monad.
  destruct (exp <? _) eqn:E; cbn; [refuted|]. intros [= <-].
  split; [repeat split|]. intros _. exists exp. split; [reflexivity|].
  apply Z.ltb_ge in E. exact E.
Qed.

Lemma existsb_py_eq_str (s : string) (l : list pyval) :
  existsb (py_eq (PStr s)) l = true -> In (PStr s) l.
Proof.
  intros E. apply existsb_exists in E as (x & Hin & Hx).
  apply py_eq_str_l in Hx. now subst.
Qed.

Lemma validate_aud_returns claims audience (w w' : world) :
  validate_aud claims audience w = (Return tt, w') ->
  w' = w /\ (dict_has claims "aud" = true -> audience_matches claims audience).
Proof.
  unfold validate_aud, audience_matches. destruct (dict_has claims "aud"); cbn [negb].
  2:{ intros [= <-]. split; [reflexivity|discriminate]. }
  unfold ret, raise.
  destruct (dict_get claims "aud") as [| | |s|l|d]; cbv beta iota zeta; try refuted.
  - cbn [forallb is_str andb negb existsb py_eq]. rewrite orb_false_r.
    destruct (String.eqb audience s) eqn:E; cbn [negb]; [|refuted].
    intros [= <-]. apply String.eqb_eq in E. subst. auto.
  - destruct (forallb is_str l); cbn [negb]; [|refuted].
    destruct (existsb (py_eq (PStr audience)) l) eqn:E; cbn [negb]; [|refuted].
    intros [= <-]. split; [reflexivity|]. intros _. right. exists l.
    split; [reflexivity|]. now apply existsb_py_eq_str.
Qed.

Lemma validate_iss_returns claims issuer (w w' : world) :
  validate_iss claims issuer w = (Return tt, w') ->
  w' = w /\ dict_get claims "iss" = PStr issuer.
Proof.
  unfold validate_iss. destruct (py_eq _ _) eqn:E; cbn; [|refuted].
  intros [= <-]. split; [reflexivity|]. now apply py_eq_str_r.
Qed.

Lemma validate_sub_returns claims (w w' : world) :
  validate_sub claims w = (Return tt, w') ->
  w' = w /\ (dict_has claims "sub" = true -> is_str (dict_get claims "sub") = true).
Proof.
  unfold validate_sub. destruct (dict_has claims "sub"); cbn [negb].
  2:{ intros [= <-]. split; [reflexivity|discriminate]. }
  destruct (is_str _); cbn; [|refuted]. intros [= <-]. auto.
Qed.

Lemma validate_jti_returns claims (w w' : world) :
  validate_jti claims w = (Return tt, w') -> w' = w.
Proof.
  unfold validate_jti. destruct (dict_has claims "jti"); cbn [negb]; [|now intros [= <-]].
  destruct (is_str _); cbn; [|refuted]. now intros [= <-].
Qed.

(** The claims that [validate_claims] lets through. *)
Lemma validate_claims_returns claims audience issuer (w w' : world) :
  validate_claims claims audience issuer w = (Return tt, w') ->
  same_surroundings w w'
  /\ (dict_has claims "exp" = true ->
      exists exp n, py_int (dict_get claims "exp") = IntOk exp /\ clock w n <= exp)
  /\ (dict_has claims "aud" = true -> audience_matches claims audience)
  /\ dict_get claims "iss" = PStr issuer
  /\ (dict_has claims "sub" = true -> is_str (dict_get claims "sub") = true).
Proof.
  unfold validate_claims. intros E.
  apply bind_returns in E as ([] & w1 & E1 & E).
  apply bind_returns in E as ([] & w2 & E2 & E).
  apply bind_returns in E as ([] & w3 & E3 & E).
  apply bind_returns in E as ([] & w4 & E4 & E).
  apply bind_returns in E as ([] & w5 & E5 & E).
  apply bind_returns in E as ([] & w6 & E6 & E).
  apply validate_iat_returns in E1 as ->.
  apply validate_nbf_returns in E2.
  apply validate_exp_returns in E3 as (S3 & Hexp).
  apply validate_aud_returns in E4 as (-> & Haud).
  apply validate_iss_returns in E5 as (-> & Hiss).
  apply validate_sub_returns in E6 as (-> & Hsub).
  apply validate_jti_returns in E as ->.
  split; [eapply same_surroundings_trans; eauto|].
  split; [|auto].
  intros Hh. destruct (Hexp Hh) as (exp & Hi & Hc). exists exp, (ticks w2).
  split; [exact Hi|]. destruct E2 as (_ & _ & Hclk & _). rewrite <- Hclk. exact Hc.
Qed.

(** The reading of [nbf]. *)
Lemma validate_nbf_returns_tick claims (w w' : world) :
  validate_nbf claims w = (Return tt, w') ->
  clock w' = clock w /\ ticks w' = (ticks w + nbf_reads claims)%nat.
Proof.
  unfold validate_nbf, nbf_reads. destruct (dict_has claims "nbf"); cbn [negb].
  2:{ intros [= <-]. split; [reflexivity|lia]. }
  destruct (py_int _); cbn; try refuted. run_monad.
  destruct (_ <? _); cbn; [refuted|]. intros [= <-]. cbn. split; [reflexivity|lia].
Qed.

(** The claims that [validate_claims] lets through do not expire before
    the reading of the expiry check. *)
Lemma validate_claims_returns_expiry claims audience issuer exp (w w' : world) :
  validate_claims claims audience issuer w = (Return tt, w') ->
  dict_has claims "exp" = true -> py_int (dict_get claims "exp") = IntOk exp ->
  expiry_reading claims w <= exp.
Proof.
  unfold validate_claims. intros E Hhas Hint.
  apply bind_returns in E as ([] & w1 & E1 & E).
  apply bind_returns in E as ([] & w2 & E2 & E).
  apply bind_returns in E as ([] & w3 & E3 & _).
  apply validate_iat_returns in E1 as ->.
  apply validate_nbf_returns_tick in E2 as (Hc & Ht).
  apply validate_exp_returns in E3 as (_ & Hexp).
  destruct (Hexp Hhas) as (exp' & Hint' & Hle).
  rewrite Hint in Hint'. injection Hint' as <-.
  unfold expiry_reading. rewrite <- Ht, <- Hc. exact Hle.
Qed.

(** What [jwt_decode] has checked when it returns. *)
Lemma jwt_decode_returns token key algorithms audience issuer claims (w w' : world) :
  jwt_decode token key algorithms audience issuer w = (Return claims, w') ->
  exists j,
    jws_load token = Ok j
    /\ alg_allowed (dict_get (jws_header j) "alg") algorithms = true
    /\ key_verify key (jws_signing_input j) (jws_signature j) = true
    /\ json_loads (jws_payload j) = Ok (PDict claims)
    /\ validate_claims claims audience issuer w = (Return tt, w').
Proof.
  unfold jwt_decode. intros E. apply bind_returns in E as (payload & w1 & E1 & E).
  unfold jws_verify in E1. destruct (jws_load token) as [j|m]; [|discriminate].
  destruct (truthy (dict_get (jws_header j) "alg")); cbn in E1; [|discriminate].
  destruct (alg_allowed _ algorithms) eqn:Ea; cbn in E1; [|discriminate].
  destruct (key_verify key _ _) eqn:Ev; cbn in E1; [|discriminate].
  injection E1 as <- <-.
  destruct (json_loads (jws_payload j)) as [[| | | | |d]|m] eqn:Ej; try discriminate.
  apply bind_returns in E as ([] & w2 & E2 & E). injection E as <- <-.
  exists j. auto.
Qed.

Lemma get_key_for_token_surroundings token (w w' : world) (r : outcome Key) :
  get_key_for_token token w = (r, w') -> same_surroundings w w'.
Proof.
  unfold get_key_for_token. unfold bind at 1. rewrite token_kid_eq.
  destruct (jws_load token) as [j|m]; [|intros [= <- <-]; apply same_surroundings_refl].
  destruct (truthy _); [|intros [= <- <-]; apply same_surroundings_refl].
  unfold bind at 1. destruct (get_jwks w) as [[ks|e0] w1] eqn:E1;
    pose proof (get_jwks_surroundings _ _ _ E1) as S1; [|now intros [= <- <-]].
  unfold bind at 1. unfold lift at 1.
  destruct (find_key _ ks) as [[key|]|e0]; try (now intros [= <- <-]).
  unfold bind at 1.
  destruct (store_last_updated 0 w1) as [[[]|e0] w1'] eqn:Es;
    [|unfold store_last_updated in Es; discriminate].
  assert (S2 : same_surroundings w1 w1').
  { unfold store_last_updated in Es. injection Es as <-.
    destruct (self_cache w1); repeat split. }
  unfold bind at 1. destruct (get_jwks w1') as [[ks'|e0] w2] eqn:E2;
    pose proof (get_jwks_surroundings _ _ _ E2) as S3.
  2:{ intros [= <- <-]. eauto using same_surroundings_trans. }
  unfold bind at 1. unfold lift at 1.
  destruct (find_key _ ks') as [[key|]|e0]; intros [= <- <-];
    eauto using same_surroundings_trans.
Qed.

(** What [validate_token] has checked when it returns a payload. *)
Lemma validate_token_returns token payload (w w' : world) :
  validate_token token w = (Return payload, w') ->
  exists issuer audience key w1 j,
    OIDC_ISSUER (env w) = Some issuer /\ OIDC_AUDIENCE (env w) = Some audience
    /\ get_key_for_token token w = (Return key, w1)
    /\ jws_load token = Ok j
    /\ alg_allowed (dict_get (jws_header j) "alg") ["RS256"] = true
    /\ key_verify key (jws_signing_input j) (jws_signature j) = true
    /\ json_loads (jws_payload j) = Ok (PDict payload)
    /\ validate_claims payload audience issuer w1 = (Return tt, w').
Proof.
  unfold validate_token. unfold bind at 1. unfold getenv at 1.
  unfold bind at 1. unfold getenv at 1.
  destruct (OIDC_ISSUER (env w)) as [[|ci i]|]; try discriminate.
  destruct (OIDC_AUDIENCE (env w)) as [[|ca a]|]; try discriminate.
  intros E. apply bind_returns in E as (key & w1 & Ek & E).
  unfold try_except in E.
  destruct (jwt_decode token key _ _ _ w1) as [[claims|e0] w2] eqn:Ed.
  - injection E as <- <-. apply jwt_decode_returns in Ed as (j & ? & ? & ? & ? & ?).
    exists (String ci i), (String ca a), key, w1, j. auto 10.
  - destruct e0; try discriminate.
    destruct (contains "audience" (lower msg)); [discriminate|].
    destruct (contains "issuer" (lower msg)); discriminate.
Qed.

Lemma validate_token_surroundings token payload (w w' : world) :
  validate_token token w = (Return payload, w') -> same_surroundings w w'.
Proof.
  intros E. apply validate_token_returns in E
    as (issuer & audience & key & w1 & j & _ & _ & Ek & _ & _ & _ & _ & Ec).
  apply get_key_for_token_surroundings in Ek.
  apply validate_claims_returns in Ec as (Sc & _).
  eauto using same_surroundings_trans.
Qed.

Lemma authenticate_token_returns token r (w w' : world) :
  authenticate_token token w = (Return r, w') ->
  exists payload w1, validate_token token w = (Return payload, w1).
Proof.
  unfold authenticate_token. intros E.
  apply bind_returns in E as (payload & w1 & E1 & _). eauto.
Qed.

(** A token that [validate_token] does not let through makes
    [authenticate] raise [AuthenticationFailed]. *)
Lemma rejected_token_fails request token (w : world) :
  presents request token ->
  (forall payload w1, validate_token token w <> (Return payload, w1)) ->
  exists detail w', authenticate request w = (Raise (AuthenticationFailed detail), w').
Proof.
  intros Hp Hv. rewrite (authenticate_bearer _ _ _ Hp).
  destruct (try_authentication_failed (authenticate_token token) w)
    as [(a & w' & Em & _)|(e0 & detail & w' & _ & Et)].
  - apply authenticate_token_returns in Em as (payload & w1 & Ev).
    now apply Hv in Ev.
  - eauto.
Qed.

(** ** Rejections *)

Lemma alg_allowed_RS256 (alg : pyval) :
  alg_allowed alg ["RS256"] = true <-> alg = PStr "RS256".
Proof.
  unfold alg_allowed. cbn [existsb]. rewrite orb_false_r. apply py_eq_str_r.
Qed.

(** C10. Only RS256 is accepted: when the header of a token declares
    another algorithm, or none, [jwt_decode] raises before the signature
    is looked at, whatever the key; [validate_token] never returns a
    payload, and [authenticate] raises [AuthenticationFailed]. *)
Theorem only_RS256_accepted (token : string) (j : jws) (w : world) :
  jws_load token = Ok j ->
  dict_get (jws_header j) "alg" <> PStr "RS256" ->
  (forall key audience issuer w1,
     exists msg, jwt_decode token key ["RS256"] audience issuer w1 = (Raise (JWTError msg), w1))
  /\ (forall payload w', validate_token token w <> (Return payload, w'))
  /\ (forall request, presents request token ->
        exists detail w', authenticate request w = (Raise (AuthenticationFailed detail), w')).
Proof.
  intros Hj Halg.
  assert (Ha : alg_allowed (dict_get (jws_header j) "alg") ["RS256"] = false).
  { destruct (alg_allowed _ _) eqn:E; [|reflexivity].
    apply alg_allowed_RS256 in E. contradiction. }
  assert (Hv : forall payload w', validate_token token w <> (Return payload, w')).
  { intros payload w' E.
    apply validate_token_returns in E as (? & ? & ? & ? & j' & _ & _ & _ & Hj' & Ha' & _).
    rewrite Hj in Hj'. injection Hj' as <-. congruence. }
  split; [|split; [exact Hv|]].
  - intros key audience issuer w1. unfold jwt_decode, jws_verify. unfold bind at 1.
    rewrite Hj, Ha. destruct (truthy _); cbn; eexists; reflexivity.
  - intros request Hp. now apply rejected_token_fails with (token := token).
Qed.

(** X20. A token that carries an [aud] claim which does not name the
    configured audience, or whose signature the resolved key does not
    accept, is never let through: [validate_token] returns no payload and
    [authenticate] raises [AuthenticationFailed]. *)
Theorem wrong_audience_or_signature_rejected
    (request : Request) (token : string) (j : jws) (w : world) :
  presents request token ->
  jws_load token = Ok j ->
  (exists claims,
     json_loads (jws_payload j) = Ok (PDict claims)
     /\ dict_has claims "aud" = true
     /\ forall audience, OIDC_AUDIENCE (env w) = Some audience ->
          ~ audience_matches claims audience)
  \/ (forall key w1, get_key_for_token token w = (Return key, w1) ->
        key_verify key (jws_signing_input j) (jws_signature j) = false) ->
  (forall payload w', validate_token token w <> (Return payload, w'))
  /\ exists detail w', authenticate request w = (Raise (AuthenticationFailed detail), w').
Proof.
  intros Hp Hj Hbad.
  assert (Hv : forall payload w', validate_token token w <> (Return payload, w')).
  { intros payload w' E.
    apply validate_token_returns in E
      as (issuer & audience & key & w1 & j' & _ & Haud & Hk & Hj' & _ & Hver & Hl & Hc).
    rewrite Hj in Hj'. injection Hj' as <-.
    destruct Hbad as [(claims & Hl' & Hhas & Hno)|Hsig].
    - rewrite Hl in Hl'. injection Hl' as <-.
      apply validate_claims_returns in Hc as (_ & _ & Hm & _).
      exact (Hno audience Haud (Hm Hhas)).
    - rewrite (Hsig key w1 Hk) in Hver. discriminate. }
  split; [exact Hv|]. now apply rejected_token_fails with (token := token).
Qed.

Lemma same_surroundings_clock (w w' : world) :
  same_surroundings w w' -> clock w' = clock w.
Proof. now intros (_ & _ & Hc & _). Qed.

(** C3. A token whose [exp] claim is earlier than the time the check
    of the expiry reads is never let through: [validate_token] returns no
    payload and [authenticate] raises [AuthenticationFailed]; and when the
    token reaches the check of its expiry (key resolved, RS256, signature
    accepted, [iat] and [nbf] passed) the failure is the one of an
    expired token. *)
Theorem expired_token_rejected
    (request : Request) (token : string) (j : jws) (claims : list (string * pyval))
    (exp : Z) (w : world) :
  presents request token ->
  jws_load token = Ok j ->
  json_loads (jws_payload j) = Ok (PDict claims) ->
  dict_has claims "exp" = true ->
  py_int (dict_get claims "exp") = IntOk exp ->
  (forall key w1, get_key_for_token token w = (Return key, w1) ->
                  exp < expiry_reading claims w1) ->
  (forall payload w', validate_token token w <> (Return payload, w'))
  /\ (exists detail w', authenticate request w = (Raise (AuthenticationFailed detail), w'))
  /\ (forall key w1 w2,
        env_missing (OIDC_ISSUER (env w)) = false ->
        env_missing (OIDC_AUDIENCE (env w)) = false ->
        get_key_for_token token w = (Return key, w1) ->
        dict_get (jws_header j) "alg" = PStr "RS256" ->
        key_verify key (jws_signing_input j) (jws_signature j) = true ->
        validate_iat claims w1 = (Return tt, w1) ->
        validate_nbf claims w1 = (Return tt, w2) ->
        exists w',
          validate_token token w = (Raise (AuthenticationFailed "Token has expired"), w')
          /\ authenticate request w =
             (Raise (AuthenticationFailed "Authentication failed: Token has expired"), w')).
Proof.
  intros Hp Hj Hl Hhas Hint Hpast.
  assert (Hv : forall payload w', validate_token token w <> (Return payload, w')).
  { intros payload w' E.
    apply validate_token_returns in E
      as (issuer & audience & key & w1 & j' & _ & _ & Hk & Hj' & _ & _ & Hl' & Hc).
    rewrite Hj in Hj'. injection Hj' as <-. rewrite Hl in Hl'. injection Hl' as <-.
    pose proof (validate_claims_returns_expiry _ _ _ _ _ _ Hc Hhas Hint) as Hle.
    specialize (Hpast key w1 Hk). lia. }
  split; [exact Hv|]. split; [now apply rejected_token_fails with (token := token)|].
  intros key w1 w2 Hi Ha Hk Halg Hver Hiat Hnbf.
  exists (set_ticks (S (ticks w2)) w2).
  assert (Ev : validate_token token w
               = (Raise (AuthenticationFailed "Token has expired"), set_ticks (S (ticks w2)) w2)).
  { unfold validate_token. unfold bind at 1. unfold getenv at 1.
    unfold bind at 1. unfold getenv at 1.
    destruct (OIDC_ISSUER (env w)) as [[|ci i]|]; try discriminate.
    destruct (OIDC_AUDIENCE (env w)) as [[|ca a]|]; try discriminate.
    cbv zeta. unfold bind at 1. rewrite Hk. unfold try_except.
    assert (Ed : jwt_decode token key ["RS256"] (String ca a) (String ci i) w1
                 = (Raise (ExpiredSignatureError "Signature has expired."),
                    set_ticks (S (ticks w2)) w2)).
    { unfold jwt_decode, jws_verify. unfold bind at 1. rewrite Hj, Halg.
      cbn [truthy negb]. change (alg_allowed (PStr "RS256") ["RS256"]) with true.
      cbn [negb String.eqb]. rewrite Hver. cbn [negb]. unfold ret at 1. rewrite Hl.
      unfold validate_claims. unfold bind at 1. unfold bind at 1. rewrite Hiat.
      unfold bind at 1. rewrite Hnbf. unfold bind at 1.
      unfold validate_exp. rewrite Hhas, Hint. cbn [negb]. unfold bind, time_time.
      destruct (exp <? clock w2 (ticks w2)) eqn:E; [reflexivity|].
      apply Z.ltb_ge in E.
      apply validate_nbf_returns_tick in Hnbf as (Hc2 & Ht2).
      specialize (Hpast key w1 Hk). unfold expiry_reading in Hpast.
      rewrite Hc2, Ht2 in E. lia. }
    rewrite Ed. reflexivity. }
  split; [exact Ev|].
  rewrite (authenticate_bearer _ _ _ Hp). unfold try_except, authenticate_token.
  unfold bind at 1. rewrite Ev. reflexivity.
Qed.

(** ** Reconciliation *)

Lemma truthy_to_text (v : pyval) : truthy v = true -> to_text v = Some (py_str v).
Proof. destruct v; cbn; congruence. Qed.

Lemma reconcile_of_row (key : string) (r : row) payload :
  reconcile (of_row key r) payload =
  (MkCustomer (PStr key)
     (pick (differs r payload first_name_col) (claim_of first_name_col payload) (row_first_name r))
     (pick (differs r payload last_name_col) (claim_of last_name_col payload) (row_last_name r))
     (pick (differs r payload email_col) (claim_of email_col payload) (row_email r))
     (pick (differs r payload phone_col) (claim_of phone_col payload) (row_phone r))
     (row_address r),
   changed r payload).
Proof.
  unfold reconcile, changed, profile_columns, differs, of_row, pick. cbn.
  destruct (truthy (dict_get payload "given_name") && _);
    destruct (truthy (dict_get payload "family_name") && _);
    destruct (truthy (dict_get payload "email") && _);
    destruct (truthy (dict_get payload "phone_number") && _); reflexivity.
Qed.

Lemma differs_truthy (r : row) payload (col : column) :
  differs r payload col = true -> truthy (claim_of col payload) = true.
Proof.
  unfold differs. destruct (stored col r); [|auto].
  intros E. now apply andb_true_iff in E.
Qed.

Lemma set_columns_changed (key : string) (r : row) payload :
  set_columns (fst (reconcile (of_row key r) payload)) (changed r payload) r
  = Some (updated r payload).
Proof.
  rewrite reconcile_of_row. unfold changed, profile_columns, updated. cbn [fst List.filter].
  pose proof (differs_truthy r payload first_name_col) as T1.
  pose proof (differs_truthy r payload last_name_col) as T2.
  pose proof (differs_truthy r payload email_col) as T3.
  pose proof (differs_truthy r payload phone_col) as T4.
  destruct (differs r payload first_name_col), (differs r payload last_name_col),
    (differs r payload email_col), (differs r payload phone_col);
    cbn [set_columns attribute pick first_name last_name email phone set_column];
    rewrite ?(truthy_to_text _ (T1 eq_refl)), ?(truthy_to_text _ (T2 eq_refl)),
      ?(truthy_to_text _ (T3 eq_refl)), ?(truthy_to_text _ (T4 eq_refl));
    cbn; destruct r; reflexivity.
Qed.

Lemma external_id_reconcile (c : Customer) payload :
  external_id (fst (reconcile c payload)) = external_id c.
Proof.
  unfold reconcile.
  destruct (truthy (dict_get payload "given_name") && _);
    destruct (truthy (dict_get payload "family_name") && _);
    destruct (truthy (dict_get payload "email") && _);
    destruct (truthy (dict_get payload "phone_number") && _); reflexivity.
Qed.

(** [authenticate_token] on a customer that exists. *)
Lemma authenticate_token_existing token payload (w w1 : world) (key : string) (r : row) :
  validate_token token w = (Return payload, w1) ->
  truthy (dict_get payload "sub") = true ->
  to_text (dict_get payload "sub") = Some key ->
  customers w !! key = Some r ->
  authenticate_token token w =
  (Return (Some (fst (reconcile (of_row key r) payload), token)),
   match changed r payload with
   | [] => w1
   | cols =>
       set_customers (<[key := updated r payload]> (customers w1))
                     (Update key cols :: writes w1) w1
   end).
Proof.
  intros Hv Hsub Hkey Hrow.
  pose proof (validate_token_surroundings _ _ _ _ Hv) as (_ & _ & _ & _ & Hcust & _).
  unfold authenticate_token. unfold bind at 1. rewrite Hv, Hsub. cbn [negb].
  unfold bind at 1. unfold get_or_create at 1. rewrite Hkey, Hcust, Hrow.
  cbn [negb]. unfold bind at 1.
  pose proof (set_columns_changed key r payload) as Hset.
  pose proof (external_id_reconcile (of_row key r) payload) as Hid.
  destruct (reconcile (of_row key r) payload) as [customer update_fields] eqn:Er.
  assert (Hch : update_fields = changed r payload).
  { rewrite reconcile_of_row in Er. now injection Er. }
  subst update_fields. cbn [fst] in *.
  destruct (changed r payload) as [|col cols] eqn:Ec.
  - reflexivity.
  - unfold bind at 1. unfold save. rewrite Hid. cbn [of_row external_id to_text py_str].
    rewrite Hcust, Hrow, Hset. reflexivity.
Qed.

Lemma stored_updated (r : row) payload (col : column) :
  In col profile_columns ->
  stored col (updated r payload) =
  if differs r payload col then to_text (claim_of col payload) else stored col r.
Proof.
  intros Hin.
  assert (Hc : col = first_name_col \/ col = last_name_col
               \/ col = email_col \/ col = phone_col).
  { cbn in Hin. intuition auto. }
  destruct Hc as [-> | [-> | [-> | ->]]]; unfold updated; cbn [stored row_first_name
    row_last_name row_email row_phone];
    (destruct (differs r payload _) eqn:Ed; [|reflexivity]);
    now rewrite (truthy_to_text _ (differs_truthy _ _ _ Ed)).
Qed.

Lemma differs_spec (r : row) payload (col : column) :
  In col profile_columns ->
  differs r payload col = true <->
  truthy (claim_of col payload) = true
  /\ exists s, stored col r = Some s /\ py_eq (PStr s) (claim_of col payload) = false.
Proof.
  intros Hin.
  assert (Hs : exists s, stored col r = Some s).
  { cbn in Hin. destruct Hin as [<- | [<- | [<- | [<- | []]]]]; cbn; eauto. }
  destruct Hs as (s & Hs). unfold differs. rewrite Hs, andb_true_iff, negb_true_iff.
  split.
  - intros (Ht & He). eauto.
  - intros (Ht & s' & [= <-] & He). auto.
Qed.

Lemma In_changed (r : row) payload (col : column) :
  In col (changed r payload) <-> In col profile_columns /\ differs r payload col = true.
Proof. unfold changed. apply filter_In. Qed.

Lemma address_not_changed (r : row) payload : ~ In address_col (changed r payload).
Proof.
  intros Hin. apply In_changed in Hin as (Hin & _). cbn in Hin.
  repeat (destruct Hin as [Hin|Hin]; [discriminate|]). exact Hin.
Qed.

Lemma py_eq_PStr_refl (s : string) : py_eq (PStr s) (PStr s) = true.
Proof. cbn. apply String.eqb_refl. Qed.

(** Once the changed columns are written, nothing differs any more, the
    claims being text. *)
Lemma changed_updated (r : row) payload :
  text_claims payload -> changed (updated r payload) payload = [].
Proof.
  intros Ht. unfold changed, profile_columns. cbn [List.filter].
  assert (Hd : forall col, In col profile_columns ->
                 differs (updated r payload) payload col = false).
  { intros col Hin. unfold differs at 1. rewrite (stored_updated _ _ _ Hin).
    destruct (differs r payload col) eqn:Ed.
    - pose proof (differs_truthy _ _ _ Ed) as Htr. specialize (Ht col Htr).
      destruct (claim_of col payload); try discriminate. cbn [to_text py_str].
      rewrite py_eq_PStr_refl. apply andb_false_r.
    - unfold differs in Ed. destruct (stored col r) eqn:Es; [exact Ed|].
      cbn in Hin. destruct Hin as [<- | [<- | [<- | [<- | []]]]]; discriminate. }
  rewrite !Hd by (cbn; auto). reflexivity.
Qed.

(** C9. Reconciliation of an existing customer: the columns written
    are exactly those of first name, last name, email and phone whose
    claim is non-empty and differs from the stored value, each set to its
    claim; when there are none, no statement is executed; the address is
    neither written nor taken into account, other customers stay as they
    are; and a second [authenticate_token] with the same claims (these
    being text) executes no statement. *)
Theorem reconciliation_frame token payload (w w1 : world) (key : string) (r : row) :
  validate_token token w = (Return payload, w1) ->
  truthy (dict_get payload "sub") = true ->
  to_text (dict_get payload "sub") = Some key ->
  customers w !! key = Some r ->
  exists customer w2 r',
    authenticate_token token w = (Return (Some (customer, token)), w2)
    /\ (forall request, presents request token ->
          authenticate request w = (Return (Some (customer, token)), w2))
    /\ writes w2 = match changed r payload with
                   | [] => writes w
                   | cols => Update key cols :: writes w
                   end
    /\ (forall col, In col (changed r payload) <->
          In col profile_columns
          /\ truthy (claim_of col payload) = true
          /\ exists s, stored col r = Some s
                       /\ py_eq (PStr s) (claim_of col payload) = false)
    /\ (changed r payload = [] -> customers w2 = customers w)
    /\ customers w2 !! key = Some r'
    /\ (forall col, In col profile_columns ->
          stored col r' = if differs r payload col
                          then to_text (claim_of col payload) else stored col r)
    /\ row_address r' = row_address r
    /\ ~ In address_col (changed r payload)
    /\ (forall a, changed (with_address a r) payload = changed r payload)
    /\ (forall k, k <> key -> customers w2 !! k = customers w !! k)
    /\ (text_claims payload ->
        forall w3, validate_token token w2 = (Return payload, w3) ->
        exists customer' w4,
          authenticate_token token w2 = (Return (Some (customer', token)), w4)
          /\ writes w4 = writes w2 /\ customers w4 = customers w2).
Proof.
  intros Hv Hsub Hkey Hrow.
  pose proof (validate_token_surroundings _ _ _ _ Hv) as (_ & _ & _ & _ & Hcust & Hwr).
  pose proof (authenticate_token_existing _ _ _ _ _ _ Hv Hsub Hkey Hrow) as Ha.
  assert (Hiff : forall col, In col (changed r payload) <->
          In col profile_columns
          /\ truthy (claim_of col payload) = true
          /\ exists s, stored col r = Some s
                       /\ py_eq (PStr s) (claim_of col payload) = false).
  { intros col. rewrite In_changed. split.
    - intros (Hin & Hd). split; [exact Hin|]. now apply differs_spec.
    - intros (Hin & Hd). split; [exact Hin|]. now apply differs_spec. }
  assert (Hupd : forall col, In col profile_columns ->
            stored col (updated r payload) =
            if differs r payload col then to_text (claim_of col payload) else stored col r).
  { intros col Hin. now apply stored_updated. }
  assert (Hsame : changed r payload = [] -> updated r payload = r).
  { unfold changed, profile_columns, updated. cbn [List.filter].
    destruct (differs r payload first_name_col), (differs r payload last_name_col),
      (differs r payload email_col), (differs r payload phone_col);
      try discriminate. intros _. destruct r; reflexivity. }
  assert (Hidem : forall w2, customers w2 !! key = Some (updated r payload) ->
     text_claims payload ->
     forall w3, validate_token token w2 = (Return payload, w3) ->
        exists customer' w4,
          authenticate_token token w2 = (Return (Some (customer', token)), w4)
          /\ writes w4 = writes w2 /\ customers w4 = customers w2).
  { intros w2 Hrow2 Ht w3 Hv3.
    pose proof (validate_token_surroundings _ _ _ _ Hv3) as (_ & _ & _ & _ & Hcust3 & Hwr3).
    pose proof (authenticate_token_existing _ _ _ _ _ _ Hv3 Hsub Hkey Hrow2) as Ha3.
    rewrite (changed_updated r payload Ht) in Ha3.
    eexists _, w3. split; [exact Ha3|]. auto. }
  assert (Hreq : forall c w2, authenticate_token token w = (Return (Some (c, token)), w2) ->
            forall request, presents request token ->
            authenticate request w = (Return (Some (c, token)), w2)).
  { intros c w2 E request Hp. rewrite (authenticate_bearer _ _ _ Hp).
    unfold try_except. now rewrite E. }
  destruct (changed r payload) as [|col cols] eqn:Ec.
  - exists (fst (reconcile (of_row key r) payload)), w1, r.
    rewrite Hsame in Hupd, Hidem by reflexivity.
    split; [exact Ha|]. split; [now apply Hreq|]. split; [exact Hwr|]. split; [exact Hiff|].
    split; [intros _; exact Hcust|]. split; [now rewrite Hcust|].
    split; [exact Hupd|]. split; [reflexivity|]. split; [auto|].
    split; [intros a; rewrite <- Ec; destruct r; reflexivity|].
    split; [intros k _; now rewrite Hcust|].
    intros Ht w3 Hv3. apply (Hidem w1) with (w3 := w3); auto. now rewrite Hcust.
  - eexists _, _, (updated r payload). split; [exact Ha|]. split; [now apply Hreq|].
    split; [cbn; now rewrite Hwr|]. split; [exact Hiff|]. split; [discriminate|].
    split; [cbn; apply lookup_insert_eq|]. split; [exact Hupd|]. split; [reflexivity|].
    split; [rewrite <- Ec; apply address_not_changed|].
    split; [intros a; rewrite <- Ec; destruct r; reflexivity|].
    split; [intros k Hk; cbn; rewrite <- Hcust; now apply lookup_insert_ne|].
    intros Ht w3 Hv3. apply (Hidem _) with (w3 := w3); auto.
    cbn. apply lookup_insert_eq.
Qed.

(** ** Acceptance *)






End Properties.

(** * Further properties *)

Section Further.
Context `{Libraries}.

(** ** What every call leaves alone *)

Lemma ticked_refl (w : world) : ticked w w.
Proof. exists (ticks w). split; [destruct w; reflexivity|lia]. Qed.

Lemma ticked_trans (w1 w2 w3 : world) : ticked w1 w2 -> ticked w2 w3 -> ticked w1 w3.
Proof.
  intros (n & -> & Hn) (m & -> & Hm). exists m. split; [reflexivity|].
  cbn in Hm. lia.
Qed.

Lemma ticked_tick (w : world) : ticked w (set_ticks (S (ticks w)) w).
Proof. eexists. split; [reflexivity|lia]. Qed.

Lemma ticked_same_surroundings (w w' : world) : ticked w w' -> same_surroundings w w'.
Proof. intros (n & -> & _). repeat split. Qed.

Lemma advances_refl (w : world) : advances 0 w w.
Proof.
  unfold advances. repeat split; auto. exists []. repeat split; auto.
  intros u [].
Qed.

Lemma advances_trans (n m : nat) (w1 w2 w3 : world) :
  advances n w1 w2 -> advances m w2 w3 -> advances (n + m) w1 w3.
Proof.
  intros (E1 & T1 & C1 & N1 & K1 & L1 & s1 & R1 & B1 & U1)
         (E2 & T2 & C2 & N2 & K2 & L2 & s2 & R2 & B2 & U2).
  unfold advances. repeat split; try congruence; try lia.
  exists (s2 ++ s1)%list. split; [|split].
  - rewrite R2, R1. now rewrite <- List.app_assoc.
  - rewrite List.length_app. lia.
  - intros u Hin. apply List.in_app_or in Hin as [Hin|Hin]; auto.
    rewrite <- E1. auto.
Qed.

Lemma advances_le (n m : nat) (w w' : world) :
  (n <= m)%nat -> advances n w w' -> advances m w w'.
Proof.
  intros Hle (E1 & T1 & C1 & N1 & K1 & L1 & s1 & R1 & B1 & U1).
  unfold advances. repeat split; auto. exists s1. repeat split; auto. lia.
Qed.

Lemma ticked_advances (w w' : world) : ticked w w' -> advances 0 w w'.
Proof.
  intros (n & -> & Hn). unfold advances. repeat split; auto.
  exists []. repeat split; auto. intros u [].
Qed.

Lemma get_jwks_advances (w w' : world) (r : outcome pyval) :
  get_jwks w = (r, w') -> advances 1 w w'.
Proof.
  intros E. pose proof (get_jwks_surroundings _ _ _ E) as (He & Ht & Hc & Hn & _).
  pose proof (get_jwks_class_cache _ _ _ E) as Hk.
  unfold advances. repeat split; auto; try congruence.
  - rewrite get_jwks_eq in E. cbn zeta in E. unfold refreshed in E.
    destruct (stale w); [|injection E as <- <-; cbn; lia].
    destruct (jwks_url (env w)) as [url|]; [|injection E as <- <-; cbn; lia].
    cbn in E. destruct (network w (length (requests w)) url) as [e0|body].
    + destruct e0; try (injection E as <- <-; cbn; lia).
      destruct (is_None _); injection E as <- <-; cbn; lia.
    + destruct (jwks_body body); [injection E as <- <-; cbn; lia|].
      destruct body; injection E as <- <-; cbn; lia.
  - rewrite get_jwks_eq in E. cbn zeta in E.
    destruct (stale w).
    2:{ injection E as <- <-. exists []. repeat split; auto. intros u []. }
    destruct (jwks_url (env w)) as [url|] eqn:Eu.
    2:{ injection E as <- <-. exists []. repeat split; auto. intros u []. }
    assert (Hr : requests w' = url :: requests w).
    { unfold refreshed in E. cbn in E.
      destruct (network w (length (requests w)) url) as [e0|body].
      + destruct e0; try (injection E as <- <-; reflexivity).
        destruct (is_None _); injection E as <- <-; reflexivity.
      + destruct (jwks_body body); [injection E as <- <-; reflexivity|].
        destruct body; injection E as <- <-; reflexivity. }
    exists [url]. repeat split; auto. intros u [<- | []]. reflexivity.
Qed.

Lemma store_last_updated_advances (t : Z) (w : world) :
  advances 0 w (snd (store_last_updated t w))
  /\ same_surroundings w (snd (store_last_updated t w)).
Proof.
  unfold store_last_updated. cbn. destruct (self_cache w) eqn:E.
  - split; [|repeat split]. unfold advances. repeat split; auto.
    exists []. repeat split; auto. intros u [].
  - split; [|repeat split]. unfold advances. repeat split; auto.
    exists []. repeat split; auto. intros u [].
Qed.

Lemma get_key_for_token_advances token (w w' : world) (r : outcome Key) :
  get_key_for_token token w = (r, w') -> advances 2 w w'.
Proof.
  unfold get_key_for_token. unfold bind at 1. rewrite token_kid_eq.
  assert (A0 : advances 2 w w) by (apply (advances_le 0); [lia|apply advances_refl]).
  destruct (jws_load token) as [j|m]; [|now intros [= <- <-]].
  destruct (truthy _); [|now intros [= <- <-]].
  unfold bind at 1. destruct (get_jwks w) as [[ks|e0] w1] eqn:E1;
    pose proof (get_jwks_advances _ _ _ E1) as A1.
  2:{ intros [= <- <-]. apply (advances_le 1); [lia|exact A1]. }
  unfold bind at 1. unfold lift at 1.
  destruct (find_key _ ks) as [[key|]|e0];
    try (intros [= <- <-]; apply (advances_le 1); [lia|exact A1]).
  unfold bind at 1.
  pose proof (store_last_updated_advances 0 w1) as (A2 & _).
  destruct (store_last_updated 0 w1) as [[[]|e0] w1'] eqn:Es;
    [|unfold store_last_updated in Es; discriminate].
  cbn [snd] in A2.
  unfold bind at 1. destruct (get_jwks w1') as [[ks'|e0] w2] eqn:E2;
    pose proof (get_jwks_advances _ _ _ E2) as A3.
  2:{ intros [= <- <-].
      apply (advances_trans 1 1 w w1 w2); [exact A1|].
      apply (advances_trans 0 1 w1 w1' w2); assumption. }
  assert (A : advances 2 w w2).
  { apply (advances_trans 1 1 w w1 w2); [exact A1|].
    apply (advances_trans 0 1 w1 w1' w2); assumption. }
  unfold bind at 1. unfold lift at 1.
  destruct (find_key _ ks') as [[key|]|e0]; now intros [= <- <-].
Qed.

Lemma time_time_ticked (w w' : world) (r : outcome Z) :
  time_time w = (r, w') -> ticked w w'.
Proof. unfold time_time. intros [= <- <-]. apply ticked_tick. Qed.

Lemma validate_claims_ticked claims audience issuer (w w' : world) (r : outcome unit) :
  validate_claims claims audience issuer w = (r, w') -> ticked w w'.
Proof.
  assert (Hiat : forall w r w', validate_iat claims w = (r, w') -> ticked w w').
  { intros w0 r0 w0'. unfold validate_iat.
    destruct (negb _); [intros [= <- <-]; apply ticked_refl|].
    destruct (py_int _); intros [= <- <-]; apply ticked_refl. }
  assert (Hnbf : forall w r w', validate_nbf claims w = (r, w') -> ticked w w').
  { intros w0 r0 w0'. unfold validate_nbf.
    destruct (negb _); [intros [= <- <-]; apply ticked_refl|].
    destruct (py_int _); try (intros [= <- <-]; apply ticked_refl).
    unfold bind, time_time. destruct (_ <? _); intros [= <- <-]; apply ticked_tick. }
  assert (Hexp : forall w r w', validate_exp claims w = (r, w') -> ticked w w').
  { intros w0 r0 w0'. unfold validate_exp.
    destruct (negb _); [intros [= <- <-]; apply ticked_refl|].
    destruct (py_int _); try (intros [= <- <-]; apply ticked_refl).
    unfold bind, time_time. destruct (_ <? _); intros [= <- <-]; apply ticked_tick. }
  assert (Haud : forall w r w', validate_aud claims audience w = (r, w') -> ticked w w').
  { intros w0 r0 w0'. unfold validate_aud.
    destruct (negb _); [intros [= <- <-]; apply ticked_refl|].
    destruct (match dict_get claims "aud" with PStr s => PList [PStr s] | v => v end);
      try (intros [= <- <-]; apply ticked_refl).
    destruct (negb (forallb is_str l)); [intros [= <- <-]; apply ticked_refl|].
    destruct (negb (existsb _ l)); intros [= <- <-]; apply ticked_refl. }
  assert (Hiss : forall w r w', validate_iss claims issuer w = (r, w') -> ticked w w').
  { intros w0 r0 w0'. unfold validate_iss.
    destruct (negb _); intros [= <- <-]; apply ticked_refl. }
  assert (Hsub : forall w r w', validate_sub claims w = (r, w') -> ticked w w').
  { intros w0 r0 w0'. unfold validate_sub.
    destruct (negb _); [intros [= <- <-]; apply ticked_refl|].
    destruct (negb _); intros [= <- <-]; apply ticked_refl. }
  assert (Hjti : forall w r w', validate_jti claims w = (r, w') -> ticked w w').
  { intros w0 r0 w0'. unfold validate_jti.
    destruct (negb _); [intros [= <- <-]; apply ticked_refl|].
    destruct (negb _); intros [= <- <-]; apply ticked_refl. }
  unfold validate_claims.
  unfold bind at 1. destruct (validate_iat claims w) as [[[]|e1] w1] eqn:E1;
    apply Hiat in E1; [|now intros [= <- <-]].
  unfold bind at 1. destruct (validate_nbf claims w1) as [[[]|e2] w2] eqn:E2;
    apply Hnbf in E2; [|intros [= <- <-]; eauto using ticked_trans].
  unfold bind at 1. destruct (validate_exp claims w2) as [[[]|e3] w3] eqn:E3;
    apply Hexp in E3; [|intros [= <- <-]; eauto using ticked_trans].
  unfold bind at 1. destruct (validate_aud claims audience w3) as [[[]|e4] w4] eqn:E4;
    apply Haud in E4; [|intros [= <- <-]; eauto using ticked_trans].
  unfold bind at 1. destruct (validate_iss claims issuer w4) as [[[]|e5] w5] eqn:E5;
    apply Hiss in E5; [|intros [= <- <-]; eauto 6 using ticked_trans].
  unfold bind at 1. destruct (validate_sub claims w5) as [[[]|e6] w6] eqn:E6;
    apply Hsub in E6; [|intros [= <- <-]; eauto 7 using ticked_trans].
  intros E7. apply Hjti in E7. eauto 8 using ticked_trans.
Qed.

Lemma jwt_decode_ticked token key algorithms audience issuer (w w' : world)
    (r : outcome (list (string * pyval))) :
  jwt_decode token key algorithms audience issuer w = (r, w') -> ticked w w'.
Proof.
  unfold jwt_decode, jws_verify. unfold bind at 1.
  destruct (jws_load token) as [j|m]; [|intros [= <- <-]; apply ticked_refl].
  destruct (negb (truthy _)); [intros [= <- <-]; apply ticked_refl|].
  destruct (negb (alg_allowed _ _)); [intros [= <- <-]; apply ticked_refl|].
  destruct (negb (key_verify _ _ _)); [intros [= <- <-]; apply ticked_refl|].
  unfold ret at 1.
  destruct (json_loads (jws_payload j)) as [[| | | | |d]|m];
    try (intros [= <- <-]; apply ticked_refl).
  unfold bind at 1.
  destruct (validate_claims d audience issuer w) as [[[]|e0] w1] eqn:Ec;
    apply validate_claims_ticked in Ec; now intros [= <- <-].
Qed.

(** Whatever [validate_token] does, it sends at most two requests and
    leaves the customer table alone. *)
Lemma validate_token_advances token (w w' : world) (r : outcome (list (string * pyval))) :
  validate_token token w = (r, w') -> advances 2 w w' /\ same_surroundings w w'.
Proof.
  unfold validate_token. unfold bind at 1. unfold getenv at 1.
  unfold bind at 1. unfold getenv at 1.
  assert (A0 : advances 2 w w /\ same_surroundings w w).
  { split; [apply (advances_le 0); [lia|apply advances_refl]|apply same_surroundings_refl]. }
  destruct (OIDC_ISSUER (env w)) as [[|ci i]|]; try (now intros [= <- <-]).
  destruct (OIDC_AUDIENCE (env w)) as [[|ca a]|]; try (now intros [= <- <-]).
  cbv zeta. unfold bind at 1.
  destruct (get_key_for_token token w) as [[key|e0] w1] eqn:Ek;
    pose proof (get_key_for_token_advances _ _ _ _ Ek) as A1;
    pose proof (get_key_for_token_surroundings _ _ _ _ Ek) as S1;
    [|now intros [= <- <-]].
  unfold try_except.
  destruct (jwt_decode token key _ _ _ w1) as [[claims|e0] w2] eqn:Ed;
    apply jwt_decode_ticked in Ed;
    pose proof (ticked_advances _ _ Ed) as A2;
    pose proof (ticked_same_surroundings _ _ Ed) as S2.
  - intros [= <- <-]. split; [|eauto using same_surroundings_trans].
    apply (advances_trans 2 0 w w1 w2); assumption.
  - assert (A : advances 2 w w2 /\ same_surroundings w w2).
    { split; [|eauto using same_surroundings_trans].
      apply (advances_trans 2 0 w w1 w2); assumption. }
    destruct e0; try (now intros [= <- <-]).
    destruct (contains "audience" (lower msg)); [now intros [= <- <-]|].
    destruct (contains "issuer" (lower msg)); now intros [= <- <-].
Qed.

Lemma set_customers_advances (m : gmap string row) (l : list db_write) (w : world) :
  advances 0 w (set_customers m l w).
Proof.
  unfold advances. repeat split; auto. exists []. repeat split; auto. intros u [].
Qed.

(** The body of the [try]: at most two requests. *)
Lemma authenticate_token_advances token (w w' : world) (r : outcome (option (Customer * string))) :
  authenticate_token token w = (r, w') -> advances 2 w w'.
Proof.
  unfold authenticate_token. unfold bind at 1.
  destruct (validate_token token w) as [[payload|e0] w1] eqn:Ev;
    apply validate_token_advances in Ev as (A1 & _).
  2:{ now intros [= <- <-]. }
  assert (A2 : forall s, advances 2 w (sent_in_vain s w1)).
  { intros s. apply (advances_trans 2 0 w w1); [exact A1|apply set_customers_advances]. }
  destruct (negb (truthy (dict_get payload "sub"))).
  { now intros [= <- <-]. }
  unfold bind at 1. unfold get_or_create at 1.
  destruct (to_text (dict_get payload "sub")) as [key|].
  2:{ intros [= <- <-]. apply A2. }
  destruct (customers w1 !! key) as [r0|] eqn:Hrow.
  - cbn [negb]. destruct (reconcile (of_row key r0) payload) as [customer update_fields].
    unfold bind at 1. destruct update_fields as [|col cols].
    + unfold ret. now intros [= <- <-].
    + unfold bind, save. destruct (to_text (external_id customer)) as [key'|].
      2:{ intros [= <- <-]. apply A2. }
      destruct (customers w1 !! key') as [r1|].
      2:{ intros [= <- <-]. apply A2. }
      destruct (set_columns customer (col :: cols) r1) as [r1'|].
      2:{ intros [= <- <-]. apply A2. }
      unfold ret. intros [= <- <-].
      apply (advances_trans 2 0 w w1); [exact A1|apply set_customers_advances].
  - destruct (to_text (dict_get_default payload "given_name" (PStr ""))) as [f|];
      [|intros [= <- <-]; apply A2].
    destruct (to_text (dict_get_default payload "family_name" (PStr ""))) as [l|];
      [|intros [= <- <-]; apply A2].
    destruct (to_text (dict_get_default payload "email" (PStr ""))) as [em|];
      [|intros [= <- <-]; apply A2].
    destruct (to_text (dict_get_default payload "phone_number" (PStr ""))) as [ph|];
      [|intros [= <- <-]; apply A2].
    cbn [negb]. unfold bind, ret. intros [= <- <-].
    apply (advances_trans 2 0 w w1); [exact A1|apply set_customers_advances].
Qed.

(** What [authenticate] can do with a request, case by case of its
    header. *)
Lemma authenticate_cases (request : Request) (w : world) :
  authenticate request w = (Return None, w)
  \/ authenticate request w = (Raise malformed_header, w)
  \/ (exists scheme tokb,
        split (get_authorization_header request) = [scheme; tokb]
        /\ lower scheme = "bearer" /\ bytes_decode tokb = None
        /\ authenticate request w
           = (Raise (OtherException "'utf-8' codec can't decode byte"), w))
  \/ (exists token, presents request token
        /\ authenticate request w
           = try_except (authenticate_token token) authentication_failed w).
Proof.
  destruct (split (get_authorization_header request)) as [|scheme rest] eqn:Es.
  { left. unfold authenticate. now rewrite Es. }
  destruct (string_dec (lower scheme) "bearer") as [Hl|Hl].
  2:{ left. unfold authenticate. rewrite Es.
      destruct (String.eqb (lower scheme) "bearer") eqn:Eb; [|reflexivity].
      apply String.eqb_eq in Eb. contradiction. }
  destruct rest as [|tokb [|x rest]].
  - right. left. unfold authenticate. rewrite Es, Hl. reflexivity.
  - destruct (bytes_decode tokb) as [token|] eqn:Ed.
    + right. right. right. exists token.
      assert (Hp : presents request token) by (exists scheme, tokb; auto).
      split; [exact Hp|]. now apply authenticate_bearer.
    + right. right. left. exists scheme, tokb. repeat split; auto.
      unfold authenticate. rewrite Es, Hl. cbn. now rewrite Ed.
  - right. left. unfold authenticate. rewrite Es, Hl. reflexivity.
Qed.

Lemma authenticate_advances (request : Request) (w w' : world)
    (r : outcome (option (Customer * string))) :
  authenticate request w = (r, w') -> advances 2 w w'.
Proof.
  assert (A0 : advances 2 w w) by (apply (advances_le 0); [lia|apply advances_refl]).
  destruct (authenticate_cases request w)
    as [E | [E | [(scheme & tokb & _ & _ & _ & E) | (token & Hp & E)]]];
    rewrite E; try (now intros [= <- <-]).
  unfold try_except.
  destruct (authenticate_token token w) as [[a|e0] w1] eqn:Ea;
    apply authenticate_token_advances in Ea.
  - now intros [= <- <-].
  - destruct (@authentication_failed_raises (option (Customer * string)) e0 w1) as (d & Hd).
    rewrite Hd. now intros [= <- <-].
Qed.

(** X1. Whatever the request, [authenticate] returns [None], returns a
    customer with the token of a well-formed Bearer header, or raises
    [AuthenticationFailed]; the one other exception is the decoding error
    of a two-part Bearer header whose token is not UTF-8, raised before
    anything is read or written. *)
Theorem authenticate_outcomes (request : Request) (w : world) :
  authenticate request w = (Return None, w)
  \/ (exists token customer w',
        presents request token
        /\ authenticate request w = (Return (Some (customer, token)), w'))
  \/ (exists detail w', authenticate request w = (Raise (AuthenticationFailed detail), w'))
  \/ (exists scheme tokb msg,
        split (get_authorization_header request) = [scheme; tokb]
        /\ lower scheme = "bearer" /\ bytes_decode tokb = None
        /\ authenticate request w = (Raise (OtherException msg), w)).
Proof.
  destruct (authenticate_cases request w)
    as [E | [E | [(scheme & tokb & Hs & Hl & Hd & E) | (token & Hp & E)]]].
  - now left.
  - right. right. left. unfold malformed_header in E. eauto.
  - right. right. right. eauto 8.
  - destruct (try_authentication_failed (authenticate_token token) w)
      as [(a & w' & Em & Et) | (e0 & detail & w' & _ & Et)].
    + destruct a as [[customer token']|].
      * assert (token' = token) as ->.
        { unfold authenticate_token in Em.
          apply bind_returns in Em as (payload & w1 & _ & Em).
          destruct (negb (truthy _)); [discriminate|].
          apply bind_returns in Em as ([c created] & w2 & _ & Em).
          apply bind_returns in Em as (c' & w3 & _ & Em).
          now injection Em. }
        right. left. exists token, customer, w'. split; [exact Hp|]. now rewrite E.
      * exfalso. unfold authenticate_token in Em.
        apply bind_returns in Em as (payload & w1 & _ & Em).
        destruct (negb (truthy _)); [discriminate|].
        apply bind_returns in Em as ([c created] & w2 & _ & Em).
        apply bind_returns in Em as (c' & w3 & _ & Em). discriminate.
    + right. right. left. exists detail, w'. now rewrite E.
Qed.

(** X3. One [authenticate] sends at most two requests, each to the JWKS
    URL of the environment, and only adds to the requests sent before;
    the environment, [CACHE_TTL], the clock and the endpoint are left as
    they are. *)
Theorem authenticate_sends_at_most_two_requests (request : Request) (w w' : world)
    (r : outcome (option (Customer * string))) :
  authenticate request w = (r, w') ->
  (exists sent, requests w' = (sent ++ requests w)%list
                /\ (length sent <= 2)%nat
                /\ forall u, In u sent -> jwks_url (env w) = Some u)
  /\ env w' = env w /\ CACHE_TTL w' = CACHE_TTL w
  /\ clock w' = clock w /\ network w' = network w.
Proof.
  intros E. apply authenticate_advances in E
    as (He & Ht & Hc & Hn & _ & _ & Hs). auto.
Qed.

(** X4. [authenticate] never changes the [keys] of the class-level
    [_jwks_cache]: with the dict as the class defines it ([keys] is
    [None]), an instance made after the call still has no key set and
    sends a request on its first [get_jwks]. *)
Theorem class_cache_is_never_loaded (request : Request) (w w' : world)
    (r : outcome (option (Customer * string))) :
  authenticate request w = (r, w') ->
  keys (class_cache w') = keys (class_cache w)
  /\ (keys (class_cache w) = PNone ->
      forall url, jwks_url (env w) = Some url ->
      requests (snd (get_jwks (new_instance w'))) = url :: requests w').
Proof.
  intros E. apply authenticate_advances in E
    as (He & _ & _ & _ & Hk & _).
  split; [exact Hk|]. intros Hnone url Hu.
  apply new_instance_requests; [now rewrite He|congruence].
Qed.

(** ** get_jwks, once more *)

(** X5. What [get_jwks] returns is the [keys] of the cache as it leaves
    it, and never [None]: the set that was cached and still within the
    TTL (no request), the set that was cached when the request raised a
    [RequestException], or the non-empty [keys] of the reply, which then
    replaces the cached set as a whole, stamped with the time read when
    the call began. *)
Theorem get_jwks_returns_the_cached_set (w w' : world) (ks : pyval) :
  get_jwks w = (Return ks, w') ->
  ks <> PNone
  /\ keys (visible_cache w') = ks
  /\ ((stale w = false /\ visible_cache w' = visible_cache w /\ requests w' = requests w)
      \/ (exists url m,
            stale w = true /\ jwks_url (env w) = Some url
            /\ network w (length (requests w)) url = HttpRaises (RequestException m)
            /\ visible_cache w' = visible_cache w /\ requests w' = url :: requests w)
      \/ (exists url body,
            stale w = true /\ jwks_url (env w) = Some url
            /\ network w (length (requests w)) url = HttpJson body
            /\ jwks_body body = Some ks /\ truthy ks = true
            /\ visible_cache w' = Cache ks (clock w (ticks w))
            /\ requests w' = url :: requests w)).
Proof.
  rewrite get_jwks_eq. cbn zeta. destruct (stale w) eqn:Es.
  2:{ intros [= <- <-].
      assert (Hn : is_None (keys (visible_cache w)) = false).
      { unfold stale in Es. now apply orb_false_iff in Es as (? & _). }
      split; [intros E; rewrite E in Hn; discriminate|].
      split; [reflexivity|]. left. auto. }
  destruct (jwks_url (env w)) as [url|] eqn:Eu; [|intros [=]].
  unfold refreshed.
  change (network (set_ticks (S (ticks w)) w)) with (network w).
  change (requests (set_ticks (S (ticks w)) w)) with (requests w).
  change (visible_cache (set_ticks (S (ticks w)) w)) with (visible_cache w).
  cbv zeta.
  destruct (network w (length (requests w)) url) as [e0|body] eqn:En.
  - destruct e0; try (now intros [=]).
    destruct (is_None (keys (visible_cache w))) eqn:Hn; [intros [=]|].
    intros [= <- <-].
    change (visible_cache (set_requests (url :: requests w) (set_ticks (S (ticks w)) w)))
      with (visible_cache w).
    split; [intros E; rewrite E in Hn; discriminate|].
    split; [reflexivity|]. right. left. exists url, msg. auto.
  - destruct (jwks_body body) as [ks'|] eqn:Eb; [|destruct body; intros [=]].
    intros [= <- <-].
    assert (Ht : truthy ks' = true).
    { unfold jwks_body in Eb. destruct body; try discriminate.
      destruct (truthy (dict_get d "keys")) eqn:Ht; [|discriminate]. now injection Eb as <-. }
    split; [intros E; cbn in E; rewrite E in Ht; discriminate|].
    split; [reflexivity|]. right. right. exists url, body. auto 10.
Qed.

(** ** Key lookup *)

Lemma scan_keys_first_match (kid : pyval) (l1 l2 : list pyval) d :
  Forall (misses kid) l1 ->
  py_eq (dict_get d "kid") kid = true ->
  scan_keys kid (l1 ++ PDict d :: l2)%list =
  match constructed (PDict d) with
  | Return key => Return (Some key)
  | Raise e => Raise e
  end.
Proof.
  intros Hm Hd. induction Hm as [|x l1 (dx & -> & Hx) _ IH].
  - cbn [app scan_keys]. rewrite Hd. unfold constructed.
    destruct (jwk_construct (PDict d)); reflexivity.
  - cbn [app scan_keys]. rewrite Hx. exact IH.
Qed.

Lemma scan_keys_miss (kid : pyval) (l : list pyval) :
  scan_keys kid l = Return None <-> Forall (misses kid) l.
Proof.
  induction l as [|x l IH].
  - split; [constructor|reflexivity].
  - cbn [scan_keys]. destruct x as [| | | | |d]; try (split; [discriminate|]);
      try (intros Hf; inversion Hf as [|? ? (dx & E & _) _]; discriminate E).
    destruct (py_eq (dict_get d "kid") kid) eqn:Ed.
    + split.
      * destruct (jwk_construct (PDict d)); discriminate.
      * intros Hf. inversion Hf as [|? ? (dx & E & Hx) _]. injection E as <-. congruence.
    + rewrite IH. split.
      * intros Hf. constructor; [exists d; auto|exact Hf].
      * intros Hf. now inversion Hf.
Qed.

(** X6. The entries of the key set are tried in order and the first one
    with the token's [kid] decides: the key built from it is returned, or
    the failure to build it is raised; entries after it are not looked at,
    the cache is not invalidated and no further request is sent.  A key
    set is without the [kid] exactly when every entry is passed over. *)
Theorem first_matching_key_decides token (j : jws) (l1 l2 : list pyval) d (w w1 : world) :
  jws_load token = Ok j ->
  truthy (dict_get (jws_header j) "kid") = true ->
  get_jwks w = (Return (PList (l1 ++ PDict d :: l2)), w1) ->
  Forall (misses (dict_get (jws_header j) "kid")) l1 ->
  py_eq (dict_get d "kid") (dict_get (jws_header j) "kid") = true ->
  get_key_for_token token w = (constructed (PDict d), w1)
  /\ (forall l, find_key (dict_get (jws_header j) "kid") (PList l) = Return None
                <-> Forall (misses (dict_get (jws_header j) "kid")) l).
Proof.
  intros Hj Hk Hg Hm Hd. split; [|intros l; apply scan_keys_miss].
  unfold get_key_for_token. unfold bind at 1. rewrite token_kid_eq, Hj, Hk.
  unfold bind at 1. rewrite Hg. unfold bind at 1. unfold lift at 1.
  cbn [find_key]. rewrite (scan_keys_first_match _ _ _ _ Hm Hd).
  destruct (constructed (PDict d)); reflexivity.
Qed.

Lemma get_jwks_keys (w w' : world) (ks : pyval) :
  get_jwks w = (Return ks, w') -> is_None ks = false /\ keys (visible_cache w') = ks.
Proof.
  rewrite get_jwks_eq. cbn zeta. destruct (stale w) eqn:Es.
  2:{ intros [= <- <-]. unfold stale in Es. apply orb_false_iff in Es as (Hn & _). auto. }
  destruct (jwks_url (env w)) as [url|]; [|intros [=]].
  destruct (refreshed (clock w (ticks w)) url (set_ticks (S (ticks w)) w))
    as [[[]|e0] w2] eqn:Er; [|intros [=]].
  intros [= <- <-]. split; [|reflexivity].
  unfold refreshed in Er.
  change (network (set_ticks (S (ticks w)) w)) with (network w) in Er.
  change (requests (set_ticks (S (ticks w)) w)) with (requests w) in Er.
  change (visible_cache (set_ticks (S (ticks w)) w)) with (visible_cache w) in Er.
  cbv zeta in Er.
  destruct (network w (length (requests w)) url) as [e0|body].
  - destruct e0; try discriminate.
    destruct (is_None (keys (visible_cache w))) eqn:Hn; [discriminate|].
    injection Er as <-. exact Hn.
  - destruct (jwks_body body) as [ks'|] eqn:Eb; [|destruct body; discriminate].
    injection Er as <-. cbn. apply truthy_not_None.
    unfold jwks_body in Eb. destruct body; try discriminate.
    destruct (truthy (dict_get d "keys")) eqn:Ht; [|discriminate]. now injection Eb as <-.
Qed.

(** X7. A [kid] that is not in the key set, with an endpoint that cannot
    be reached: the forced refresh falls back on the cached set, the
    second lookup misses again and the failure is the "not found" one, not
    a fetch error; the cache keeps its keys with [last_updated] at 0, so
    the next [get_jwks] of the instance sends a request again. *)
Theorem unknown_kid_with_unreachable_endpoint token (j : jws) (ks : pyval)
    (w w1 : world) (url m : string) :
  jws_load token = Ok j ->
  truthy (dict_get (jws_header j) "kid") = true ->
  get_jwks w = (Return ks, w1) ->
  find_key (dict_get (jws_header j) "kid") ks = Return None ->
  jwks_url (env w1) = Some url ->
  CACHE_TTL w1 < clock w1 (ticks w1) ->
  network w1 (length (requests w1)) url = HttpRaises (RequestException m) ->
  exists w2,
    get_key_for_token token w =
    (Raise (AuthenticationFailed
              ("Key ID " ++ py_str (dict_get (jws_header j) "kid") ++ " not found in JWKS")), w2)
    /\ visible_cache w2 = Cache ks 0
    /\ requests w2 = url :: requests w1
    /\ (CACHE_TTL w2 < clock w2 (ticks w2) ->
        requests (snd (get_jwks w2)) = url :: requests w2).
Proof.
  intros Hj Hk Hg Hf Hu Hc Hn.
  pose proof (get_jwks_keys _ _ _ Hg) as (Hnone & Hks).
  pose proof (invalidated_stale w1 Hc) as Hs.
  assert (Hv : visible_cache (invalidated w1) = Cache ks 0).
  { unfold invalidated, store_last_updated, visible_cache in *. cbn.
    destruct (self_cache w1) as [c|] eqn:E; cbn; rewrite ?E; cbn; now rewrite Hks. }
  assert (Hu' : jwks_url (env (invalidated w1)) = Some url).
  { unfold invalidated, store_last_updated. cbn. destruct (self_cache w1); exact Hu. }
  assert (Hn' : network (invalidated w1) (length (requests (invalidated w1))) url
                = HttpRaises (RequestException m)).
  { unfold invalidated, store_last_updated. cbn. destruct (self_cache w1); exact Hn. }
  assert (Hrq : requests (invalidated w1) = requests w1).
  { unfold invalidated, store_last_updated. cbn. destruct (self_cache w1); reflexivity. }
  set (w2 := set_requests (url :: requests (invalidated w1))
               (set_ticks (S (ticks (invalidated w1))) (invalidated w1))).
  assert (Eg : get_jwks (invalidated w1) = (Return ks, w2)).
  { rewrite get_jwks_eq, Hs, Hu'. cbn zeta. unfold refreshed.
    change (network (set_ticks (S (ticks (invalidated w1))) (invalidated w1)))
      with (network (invalidated w1)).
    change (requests (set_ticks (S (ticks (invalidated w1))) (invalidated w1)))
      with (requests (invalidated w1)).
    change (visible_cache (set_ticks (S (ticks (invalidated w1))) (invalidated w1)))
      with (visible_cache (invalidated w1)).
    cbv zeta. rewrite Hn', Hv. cbn [keys]. rewrite Hnone. cbv iota beta.
    apply f_equal2; [apply f_equal|reflexivity].
    change (keys (visible_cache (invalidated w1)) = ks). now rewrite Hv. }
  exists w2. split; [|split; [exact Hv|split; [unfold w2; cbn [requests set_requests]; now rewrite Hrq|]]].
  - unfold get_key_for_token. unfold bind at 1. rewrite token_kid_eq, Hj, Hk.
    unfold bind at 1. rewrite Hg. unfold bind at 1. unfold lift at 1. rewrite Hf.
    unfold bind at 1.
    change (store_last_updated 0 w1) with (Return tt, invalidated w1).
    cbv iota beta. unfold bind at 1. rewrite Eg.
    unfold bind at 1. unfold lift at 1. rewrite Hf. reflexivity.
  - intros Hc2.
    assert (Hu2 : jwks_url (env w2) = Some url) by exact Hu'.
    rewrite (requests_get_jwks w2 url Hu2).
    assert (Hs2 : stale w2 = true).
    { unfold stale. change (visible_cache w2) with (visible_cache (invalidated w1)).
      rewrite Hv. cbn [keys last_updated]. apply orb_true_iff. right.
      apply Z.ltb_lt. lia. }
    now rewrite Hs2.
Qed.

(** X8. When the instance has no key set and the request to the JWKS
    endpoint raises a [RequestException], [authenticate] raises
    [AuthenticationFailed] with the detail "Error fetching JWKS", after
    this one request and with the cache as it was. *)
Theorem unreachable_endpoint_without_keys (request : Request) token (j : jws)
    (w : world) (url m : string) :
  presents request token ->
  env_missing (OIDC_ISSUER (env w)) = false ->
  env_missing (OIDC_AUDIENCE (env w)) = false ->
  jws_load token = Ok j ->
  truthy (dict_get (jws_header j) "kid") = true ->
  keys (visible_cache w) = PNone ->
  jwks_url (env w) = Some url ->
  network w (length (requests w)) url = HttpRaises (RequestException m) ->
  exists w',
    authenticate request w = (Raise (AuthenticationFailed "Error fetching JWKS"), w')
    /\ requests w' = url :: requests w
    /\ visible_cache w' = visible_cache w.
Proof.
  intros Hp Hi Ha Hj Hk Hnone Hu Hn.
  set (w' := set_requests (url :: requests w) (set_ticks (S (ticks w)) w)).
  assert (Eg : get_jwks w = (Raise (RequestException m), w')).
  { rewrite get_jwks_eq. unfold stale. rewrite Hnone. cbn [is_None orb]. rewrite Hu.
    cbn zeta. unfold refreshed.
    change (network (set_ticks (S (ticks w)) w)) with (network w).
    change (requests (set_ticks (S (ticks w)) w)) with (requests w).
    change (visible_cache (set_ticks (S (ticks w)) w)) with (visible_cache w).
    cbv zeta. rewrite Hn, Hnone. reflexivity. }
  assert (Ek : get_key_for_token token w = (Raise (RequestException m), w')).
  { unfold get_key_for_token. unfold bind at 1. rewrite token_kid_eq, Hj, Hk.
    unfold bind at 1. rewrite Eg. reflexivity. }
  assert (Ev : validate_token token w = (Raise (RequestException m), w')).
  { unfold validate_token. unfold bind at 1. unfold getenv at 1.
    unfold bind at 1. unfold getenv at 1.
    destruct (OIDC_ISSUER (env w)) as [[|ci i]|]; try discriminate.
    destruct (OIDC_AUDIENCE (env w)) as [[|ca a]|]; try discriminate.
    cbv zeta. unfold bind at 1. rewrite Ek. reflexivity. }
  exists w'. split; [|split; reflexivity].
  rewrite (authenticate_bearer _ _ _ Hp). unfold try_except, authenticate_token.
  unfold bind at 1. rewrite Ev. reflexivity.
Qed.

(** ** What acceptance guarantees *)

Lemma scan_keys_found (kid : pyval) (l : list pyval) (key : Key) :
  scan_keys kid l = Return (Some key) ->
  exists d, In (PDict d) l /\ py_eq (dict_get d "kid") kid = true
            /\ jwk_construct (PDict d) = Ok key.
Proof.
  induction l as [|x l IH]; [discriminate|].
  cbn [scan_keys]. destruct x as [| | | | |d]; try discriminate.
  destruct (py_eq (dict_get d "kid") kid) eqn:Ed.
  - destruct (jwk_construct (PDict d)) as [k|m] eqn:Ec; [|discriminate].
    intros [= <-]. exists d. cbn. auto.
  - intros E. destruct (IH E) as (d' & Hin & Hd & Hc). exists d'. cbn. auto.
Qed.

Lemma find_key_found (kid keys : pyval) (key : Key) :
  find_key kid keys = Return (Some key) ->
  exists l d, keys = PList l /\ In (PDict d) l
              /\ py_eq (dict_get d "kid") kid = true /\ jwk_construct (PDict d) = Ok key.
Proof.
  destruct keys as [| | |s|l|d]; try discriminate.
  - destruct s; discriminate.
  - cbn [find_key]. intros E. apply scan_keys_found in E as (d & ? & ? & ?). eauto 6.
  - destruct d; discriminate.
Qed.

(** The key [get_key_for_token] returns is built from an entry, with the
    token's [kid], of the key set the cache holds on return. *)
Lemma get_key_for_token_returns token (key : Key) (w w1 : world) :
  get_key_for_token token w = (Return key, w1) ->
  exists j l d,
    jws_load token = Ok j
    /\ truthy (dict_get (jws_header j) "kid") = true
    /\ keys (visible_cache w1) = PList l /\ In (PDict d) l
    /\ py_eq (dict_get d "kid") (dict_get (jws_header j) "kid") = true
    /\ jwk_construct (PDict d) = Ok key.
Proof.
  unfold get_key_for_token. unfold bind at 1. rewrite token_kid_eq.
  destruct (jws_load token) as [j|m]; [|intros [=]].
  destruct (truthy (dict_get (jws_header j) "kid")) eqn:Hk; [|intros [=]].
  unfold bind at 1. destruct (get_jwks w) as [[ks|e0] w0] eqn:E1; [|intros [=]].
  unfold bind at 1. unfold lift at 1.
  destruct (find_key _ ks) as [[k|]|e0] eqn:Ef; [| |intros [=]].
  - intros [= <- <-]. apply get_jwks_keys in E1 as (_ & Hks).
    apply find_key_found in Ef as (l & d & -> & ? & ? & ?). exists j, l, d. auto 7.
  - unfold bind at 1.
    destruct (store_last_updated 0 w0) as [[[]|e0] w0'] eqn:Es;
      [|unfold store_last_updated in Es; discriminate].
    unfold bind at 1. destruct (get_jwks w0') as [[ks'|e0] w2] eqn:E2; [|intros [=]].
    unfold bind at 1. unfold lift at 1.
    destruct (find_key _ ks') as [[k|]|e0] eqn:Ef'; try (intros [=]; fail).
    intros [= <- <-]. apply get_jwks_keys in E2 as (_ & Hks).
    apply find_key_found in Ef' as (l & d & -> & ? & ? & ?). exists j, l, d. auto 7.
Qed.

Lemma validate_nbf_returns_reached claims (w w' : world) :
  validate_nbf claims w = (Return tt, w') ->
  dict_has claims "nbf" = true ->
  exists nbf, py_int (dict_get claims "nbf") = IntOk nbf /\ nbf <= clock w (ticks w).
Proof.
  unfold validate_nbf. intros E Hh. rewrite Hh in E. cbn [negb] in E.
  destruct (py_int (dict_get claims "nbf")) as [nbf| |]; try discriminate.
  unfold bind, time_time in E.
  destruct (clock w (ticks w) <? nbf) eqn:El; [discriminate|].
  exists nbf. split; [reflexivity|]. now apply Z.ltb_ge in El.
Qed.

Lemma validate_iat_returns_number claims (w w' : world) :
  validate_iat claims w = (Return tt, w') ->
  dict_has claims "iat" = true ->
  exists iat, py_int (dict_get claims "iat") = IntOk iat.
Proof.
  unfold validate_iat. intros E Hh. rewrite Hh in E. cbn [negb] in E.
  destruct (py_int (dict_get claims "iat")) as [iat| |]; try discriminate. eauto.
Qed.

Lemma validate_claims_returns_times claims audience issuer (w w' : world) :
  validate_claims claims audience issuer w = (Return tt, w') ->
  (dict_has claims "iat" = true -> exists iat, py_int (dict_get claims "iat") = IntOk iat)
  /\ (dict_has claims "nbf" = true ->
      exists nbf n, py_int (dict_get claims "nbf") = IntOk nbf /\ nbf <= clock w n).
Proof.
  unfold validate_claims. intros E.
  apply bind_returns in E as ([] & w1 & E1 & E).
  apply bind_returns in E as ([] & w2 & E2 & _).
  split.
  - intros Hh. eapply validate_iat_returns_number; eauto.
  - intros Hh. pose proof (validate_iat_returns _ _ _ E1) as ->.
    destruct (validate_nbf_returns_reached _ _ _ E2 Hh) as (nbf & ? & ?). eauto.
Qed.

(** X9. A payload that [validate_token] returns is a verified one: issuer
    and audience are configured, the header says RS256 and carries a
    [kid], the key was built from an entry with this [kid] of the key set
    now cached and accepts the signature, the payload is the JSON object
    of the token, its [iss] is the configured issuer, its [aud], if any,
    names the configured audience, its [exp], if any, is not before a
    reading of the clock, its [nbf], if any, not after one, and its
    [sub], if any, is a string. *)
Theorem accepted_payload_is_verified token payload (w w' : world) :
  validate_token token w = (Return payload, w') ->
  exists issuer audience j key l d,
    (OIDC_ISSUER (env w) = Some issuer /\ issuer <> ""
     /\ OIDC_AUDIENCE (env w) = Some audience /\ audience <> "")
    /\ (jws_load token = Ok j
        /\ dict_get (jws_header j) "alg" = PStr "RS256"
        /\ truthy (dict_get (jws_header j) "kid") = true)
    /\ (keys (visible_cache w') = PList l /\ In (PDict d) l
        /\ py_eq (dict_get d "kid") (dict_get (jws_header j) "kid") = true
        /\ jwk_construct (PDict d) = Ok key
        /\ key_verify key (jws_signing_input j) (jws_signature j) = true)
    /\ json_loads (jws_payload j) = Ok (PDict payload)
    /\ dict_get payload "iss" = PStr issuer
    /\ (dict_has payload "aud" = true -> audience_matches payload audience)
    /\ (dict_has payload "exp" = true ->
        exists exp n, py_int (dict_get payload "exp") = IntOk exp /\ clock w n <= exp)
    /\ (dict_has payload "nbf" = true ->
        exists nbf n, py_int (dict_get payload "nbf") = IntOk nbf /\ nbf <= clock w n)
    /\ (dict_has payload "sub" = true -> is_str (dict_get payload "sub") = true).
Proof.
  intros E.
  assert (Hne : OIDC_ISSUER (env w) <> Some "" /\ OIDC_AUDIENCE (env w) <> Some "").
  { unfold validate_token in E. unfold bind at 1 in E. unfold getenv at 1 in E.
    unfold bind at 1 in E. unfold getenv at 1 in E.
    destruct (OIDC_ISSUER (env w)) as [[|ci i]|]; try discriminate.
    destruct (OIDC_AUDIENCE (env w)) as [[|ca a]|]; try discriminate.
    split; discriminate. }
  apply validate_token_returns in E
    as (issuer & audience & key & w1 & j & Hi & Ha & Hk & Hj & Halg & Hver & Hl & Hc).
  pose proof (get_key_for_token_surroundings _ _ _ _ Hk) as S1.
  apply get_key_for_token_returns in Hk as (j' & l & d & Hj' & Hkid & Hks & Hin & Hd & Hcon).
  rewrite Hj in Hj'. injection Hj' as <-.
  pose proof (validate_claims_ticked _ _ _ _ _ _ Hc) as (n & -> & _).
  pose proof (validate_claims_returns_times _ _ _ _ _ Hc) as (_ & Hnbf).
  apply validate_claims_returns in Hc as (_ & Hexp & Haud & Hiss & Hsub).
  pose proof (same_surroundings_clock _ _ S1) as Hclk.
  exists issuer, audience, j, key, l, d.
  split; [destruct Hne; repeat split; auto; congruence|].
  split; [repeat split; auto; now apply alg_allowed_RS256|].
  split; [repeat split; auto|].
  split; [exact Hl|]. split; [exact Hiss|]. split; [exact Haud|].
  split; [|split; [|exact Hsub]].
  - intros Hh. destruct (Hexp Hh) as (exp & k & ? & ?). exists exp, k. rewrite <- Hclk. auto.
  - intros Hh. destruct (Hnbf Hh) as (nbf & k & ? & ?). exists nbf, k. rewrite <- Hclk. auto.
Qed.

(** ** The subject *)

Lemma truthy_has (d : list (string * pyval)) (k : string) :
  truthy (dict_get d k) = true -> dict_has d k = true.
Proof. unfold dict_get, dict_has. destruct (assoc k d); [reflexivity|discriminate]. Qed.

Lemma returned_subject token payload (w w1 : world) :
  validate_token token w = (Return payload, w1) ->
  truthy (dict_get payload "sub") = true ->
  exists sub, dict_get payload "sub" = PStr sub /\ sub <> "".
Proof.
  intros Ev Ht. apply validate_token_returns in Ev
    as (? & ? & ? & ? & ? & _ & _ & _ & _ & _ & _ & _ & Hc).
  apply validate_claims_returns in Hc as (_ & _ & _ & _ & Hsub).
  specialize (Hsub (truthy_has _ _ Ht)).
  destruct (dict_get payload "sub") as [| | |sub| |]; try discriminate.
  exists sub. split; [reflexivity|]. intros ->. discriminate.
Qed.

(** X10. A token that passes validation without a [sub], or with an
    empty one, is refused with the detail "Token missing sub claim"; the
    customer table is not touched. *)
Theorem missing_subject_fails (request : Request) token payload (w w1 : world) :
  presents request token ->
  validate_token token w = (Return payload, w1) ->
  truthy (dict_get payload "sub") = false ->
  authenticate request w
  = (Raise (AuthenticationFailed "Authentication failed: Token missing sub claim"), w1)
  /\ customers w1 = customers w /\ writes w1 = writes w.
Proof.
  intros Hp Ev Ht. split.
  - rewrite (authenticate_bearer _ _ _ Hp). unfold try_except, authenticate_token.
    unfold bind at 1. rewrite Ev, Ht. reflexivity.
  - apply validate_token_surroundings in Ev as (_ & _ & _ & _ & ? & ?). auto.
Qed.

(** [authenticate_token] on a subject seen for the first time, in full. *)
Lemma authenticate_token_created token payload (w w1 : world) (key : string) :
  validate_token token w = (Return payload, w1) ->
  truthy (dict_get payload "sub") = true ->
  to_text (dict_get payload "sub") = Some key ->
  customers w !! key = None ->
  (forall k, In k ["given_name"; "family_name"; "email"; "phone_number"] ->
     assoc k payload <> Some PNone) ->
  authenticate_token token w =
  (Return (Some (MkCustomer (dict_get payload "sub")
                   (dict_get_default payload "given_name" (PStr ""))
                   (dict_get_default payload "family_name" (PStr ""))
                   (dict_get_default payload "email" (PStr ""))
                   (dict_get_default payload "phone_number" (PStr "")) None, token)),
   set_customers (<[key := created_row payload]> (customers w1))
                 (Insert key (created_row payload) :: writes w1) w1).
Proof.
  intros Hv Hsub Hkey Hrow Hnn.
  pose proof (validate_token_surroundings _ _ _ _ Hv) as (_ & _ & _ & _ & Hcust & _).
  assert (Ht : forall k, In k ["given_name"; "family_name"; "email"; "phone_number"] ->
             to_text (dict_get_default payload k (PStr ""))
             = Some (py_str (dict_get_default payload k (PStr "")))).
  { intros k Hin. specialize (Hnn k Hin). unfold dict_get_default.
    destruct (assoc k payload) as [v|]; [|reflexivity].
    destruct v; try reflexivity. congruence. }
  unfold authenticate_token. unfold bind at 1. rewrite Hv, Hsub. cbn [negb].
  unfold bind at 1. unfold get_or_create at 1.
  rewrite Hkey, Hcust, Hrow.
  rewrite (Ht "given_name"), (Ht "family_name"), (Ht "email"), (Ht "phone_number")
    by (cbn; auto 6).
  reflexivity.
Qed.

Lemma null_claim_dec (payload : list (string * pyval)) :
  (exists k, In k ["given_name"; "family_name"; "email"; "phone_number"]
             /\ assoc k payload = Some PNone)
  \/ (forall k, In k ["given_name"; "family_name"; "email"; "phone_number"] ->
        assoc k payload <> Some PNone).
Proof.
  assert (D : forall k, assoc k payload = Some PNone \/ assoc k payload <> Some PNone).
  { intros k. destruct (assoc k payload) as [[]|]; auto; right; discriminate. }
  destruct (D "given_name") as [E1|N1]; [left; exists "given_name"; cbn; auto|].
  destruct (D "family_name") as [E2|N2]; [left; exists "family_name"; cbn; auto|].
  destruct (D "email") as [E3|N3]; [left; exists "email"; cbn; auto|].
  destruct (D "phone_number") as [E4|N4]; [left; exists "phone_number"; cbn; auto 6|].
  right. intros k [<- | [<- | [<- | [<- | []]]]]; assumption.
Qed.

(** The body of the [try] when it raises: no row has changed, and the
    one statement it can have sent is the INSERT of a new subject that
    the database refused. *)
Lemma authenticate_token_raises_rows token e (w w' : world) :
  authenticate_token token w = (Raise e, w') ->
  customers w' = customers w
  /\ (writes w' = writes w
      \/ exists payload w1 sub,
           validate_token token w = (Return payload, w1)
           /\ dict_get payload "sub" = PStr sub
           /\ customers w !! sub = None
           /\ (exists k, In k ["given_name"; "family_name"; "email"; "phone_number"]
                         /\ assoc k payload = Some PNone)
           /\ writes w' = InsertRefused (PStr sub) :: writes w).
Proof.
  intros E.
  destruct (validate_token token w) as [[payload|e0] w1] eqn:Ev.
  2:{ unfold authenticate_token in E. unfold bind at 1 in E. rewrite Ev in E.
      injection E as _ <-.
      apply validate_token_advances in Ev as (_ & (_ & _ & _ & _ & ? & ?)). auto. }
  pose proof (validate_token_surroundings _ _ _ _ Ev) as (_ & _ & _ & _ & Hcust & Hwr).
  destruct (truthy (dict_get payload "sub")) eqn:Ht.
  2:{ unfold authenticate_token in E. unfold bind at 1 in E. rewrite Ev, Ht in E.
      injection E as _ <-. auto. }
  destruct (returned_subject _ _ _ _ Ev Ht) as (sub & Hsub & Hne).
  assert (Hkey : to_text (dict_get payload "sub") = Some sub) by now rewrite Hsub.
  destruct (customers w !! sub) as [r|] eqn:Hrow.
  { rewrite (authenticate_token_existing _ _ _ _ _ _ Ev Ht Hkey Hrow) in E. discriminate. }
  destruct (null_claim_dec payload) as [Hnull | Hnn].
  2:{ rewrite (authenticate_token_created _ _ _ _ _ Ev Ht Hkey Hrow Hnn) in E. discriminate. }
  unfold authenticate_token in E. unfold bind at 1 in E. rewrite Ev, Ht in E.
  cbn [negb] in E. unfold bind at 1 in E. unfold get_or_create at 1 in E.
  rewrite Hkey, Hcust, Hrow in E.
  assert (Hw : w' = sent_in_vain (InsertRefused (dict_get payload "sub")) w1).
  { destruct (to_text (dict_get_default payload "given_name" (PStr ""))) as [f|];
      [|now injection E as _ <-].
    destruct (to_text (dict_get_default payload "family_name" (PStr ""))) as [l|];
      [|now injection E as _ <-].
    destruct (to_text (dict_get_default payload "email" (PStr ""))) as [em|];
      [|now injection E as _ <-].
    destruct (to_text (dict_get_default payload "phone_number" (PStr ""))) as [ph|];
      [|now injection E as _ <-].
    cbn [negb] in E. unfold bind, ret in E. discriminate. }
  subst w'. cbn [customers writes sent_in_vain set_customers]. split; [exact Hcust|].
  right. exists payload, w1, sub. rewrite Hsub, Hwr. auto 6.
Qed.

(** X2. An [authenticate] that raises has changed no row of the
    customer table.  The one statement it can have sent is the INSERT of
    a subject without a row whose token has a null profile claim, which
    the database refuses. *)
Theorem failed_authentication_changes_no_row (request : Request) (w w' : world) (e : exc) :
  authenticate request w = (Raise e, w') ->
  customers w' = customers w
  /\ (writes w' = writes w
      \/ exists token payload w1 sub,
           presents request token
           /\ validate_token token w = (Return payload, w1)
           /\ dict_get payload "sub" = PStr sub
           /\ customers w !! sub = None
           /\ (exists k, In k ["given_name"; "family_name"; "email"; "phone_number"]
                         /\ assoc k payload = Some PNone)
           /\ writes w' = InsertRefused (PStr sub) :: writes w).
Proof.
  intros E.
  destruct (authenticate_cases request w)
    as [E0 | [E0 | [(scheme & tokb & _ & _ & _ & E0) | (token & Hp & E0)]]];
    rewrite E0 in E; try (injection E as _ <-; now auto); try discriminate.
  unfold try_except in E.
  destruct (authenticate_token token w) as [[a|e0] w1] eqn:Ea; [discriminate|].
  destruct (@authentication_failed_raises (option (Customer * string)) e0 w1) as (d & Hd).
  rewrite Hd in E. injection E as _ <-.
  apply authenticate_token_raises_rows in Ea as (Hc & [Hw | (payload & w0 & sub & Hrest)]).
  - auto.
  - split; [exact Hc|]. right. exists token, payload, w0, sub. tauto.
Qed.

(** What a returned [authenticate_token] has done. *)
Lemma authenticate_token_returns_subject token a (w w' : world) :
  authenticate_token token w = (Return a, w') ->
  exists customer payload w1 sub,
    a = Some (customer, token)
    /\ validate_token token w = (Return payload, w1)
    /\ dict_get payload "sub" = PStr sub /\ sub <> ""
    /\ external_id customer = PStr sub
    /\ is_Some (customers w' !! sub)
    /\ (forall k, k <> sub -> customers w' !! k = customers w !! k)
    /\ (writes w' = writes w \/ exists st, writes w' = st :: writes w).
Proof.
  intros E.
  destruct (authenticate_token_returns _ _ _ _ E) as (payload & w1 & Ev).
  pose proof (validate_token_surroundings _ _ _ _ Ev) as (_ & _ & _ & _ & Hcust & Hwr).
  destruct (truthy (dict_get payload "sub")) eqn:Ht.
  2:{ unfold authenticate_token in E. unfold bind at 1 in E. rewrite Ev, Ht in E.
      discriminate. }
  destruct (returned_subject _ _ _ _ Ev Ht) as (sub & Hsub & Hne).
  assert (Hkey : to_text (dict_get payload "sub") = Some sub) by now rewrite Hsub.
  destruct (customers w !! sub) as [r|] eqn:Hrow.
  - rewrite (authenticate_token_existing _ _ _ _ _ _ Ev Ht Hkey Hrow) in E.
    injection E as <- <-.
    exists (fst (reconcile (of_row sub r) payload)), payload, w1, sub.
    split; [reflexivity|]. split; [exact Ev|]. split; [exact Hsub|]. split; [exact Hne|].
    split; [now rewrite external_id_reconcile|].
    destruct (changed r payload) as [|col cols].
    + split; [rewrite Hcust, Hrow; eauto|]. split; [intros k _; now rewrite Hcust|].
      left. exact Hwr.
    + cbn [customers writes set_customers].
      split; [rewrite lookup_insert_eq; eauto|].
      split; [intros k Hk; rewrite lookup_insert_ne by auto; now rewrite Hcust|].
      right. rewrite Hwr. eauto.
  - unfold authenticate_token in E. unfold bind at 1 in E. rewrite Ev, Ht in E.
    cbn [negb] in E. unfold bind at 1 in E. unfold get_or_create at 1 in E.
    rewrite Hkey, Hcust, Hrow in E.
    destruct (to_text (dict_get_default payload "given_name" (PStr ""))) as [f|];
      [|discriminate].
    destruct (to_text (dict_get_default payload "family_name" (PStr ""))) as [l|];
      [|discriminate].
    destruct (to_text (dict_get_default payload "email" (PStr ""))) as [em|];
      [|discriminate].
    destruct (to_text (dict_get_default payload "phone_number" (PStr ""))) as [ph|];
      [|discriminate].
    cbn [negb] in E. unfold bind, ret in E. injection E as <- <-.
    eexists _, payload, w1, sub.
    split; [reflexivity|]. split; [exact Ev|]. split; [exact Hsub|]. split; [exact Hne|].
    split; [exact Hsub|]. cbn [customers writes set_customers].
    split; [rewrite lookup_insert_eq; eauto|].
    split; [intros k Hk; now rewrite lookup_insert_ne by auto|].
    right. rewrite Hwr. eauto.
Qed.

(** X11. A customer that [authenticate] returns is the subject of a
    verified token: the request presents the token, [validate_token]
    returned its payload, the [sub] of the payload is a non-empty string
    and the external id of the customer, and the customer has a row in the
    table; no other row has changed, and at most one statement was
    executed. *)
Theorem authenticated_customer_is_the_subject (request : Request) customer token
    (w w' : world) :
  authenticate request w = (Return (Some (customer, token)), w') ->
  presents request token
  /\ exists payload w1 sub,
       validate_token token w = (Return payload, w1)
       /\ dict_get payload "sub" = PStr sub /\ sub <> ""
       /\ external_id customer = PStr sub
       /\ is_Some (customers w' !! sub)
       /\ (forall k, k <> sub -> customers w' !! k = customers w !! k)
       /\ (writes w' = writes w \/ exists st, writes w' = st :: writes w).
Proof.
  intros E.
  destruct (authenticate_cases request w)
    as [E0 | [E0 | [(scheme & tokb & _ & _ & _ & E0) | (token0 & Hp & E0)]]];
    rewrite E0 in E; try discriminate.
  unfold try_except in E.
  destruct (authenticate_token token0 w) as [[a|e0] w1] eqn:Ea.
  2:{ destruct (@authentication_failed_raises (option (Customer * string)) e0 w1) as (d & Hd).
      rewrite Hd in E. discriminate. }
  injection E as -> ->.
  apply authenticate_token_returns_subject in Ea
    as (c & payload & w0 & sub & [= -> ->] & Hrest).
  split; [exact Hp|]. exists payload, w0, sub. exact Hrest.
Qed.

(** X12. A subject seen for the first time gets a row of its own: one
    INSERT, with every profile column taken from its claim and the empty
    string where the claim is absent, and no address; other rows are left
    as they are, and a second call with the same claims (these being
    text) executes no statement. *)
Theorem first_sight_creates_the_customer token payload (w w1 : world) (sub : string) :
  validate_token token w = (Return payload, w1) ->
  dict_get payload "sub" = PStr sub -> sub <> "" ->
  customers w !! sub = None ->
  (forall k, In k ["given_name"; "family_name"; "email"; "phone_number"] ->
     assoc k payload <> Some PNone) ->
  exists customer w2,
    authenticate_token token w = (Return (Some (customer, token)), w2)
    /\ (forall request, presents request token ->
          authenticate request w = (Return (Some (customer, token)), w2))
    /\ external_id customer = PStr sub
    /\ writes w2 = Insert sub (created_row payload) :: writes w
    /\ customers w2 !! sub = Some (created_row payload)
    /\ (forall k, k <> sub -> customers w2 !! k = customers w !! k)
    /\ (forall col, In col profile_columns ->
          (forall v, assoc (claim_key col) payload = Some v ->
                     stored col (created_row payload) = Some (py_str v))
          /\ (assoc (claim_key col) payload = None ->
              stored col (created_row payload) = Some ""))
    /\ row_address (created_row payload) = None
    /\ (text_claims payload ->
        forall w3, validate_token token w2 = (Return payload, w3) ->
        exists customer' w4,
          authenticate_token token w2 = (Return (Some (customer', token)), w4)
          /\ writes w4 = writes w2 /\ customers w4 = customers w2).
Proof.
  intros Hv Hsub Hne Hrow Hnn.
  pose proof (validate_token_surroundings _ _ _ _ Hv) as (_ & _ & _ & _ & Hcust & Hwr).
  assert (Htr : truthy (dict_get payload "sub") = true).
  { rewrite Hsub. cbn. destruct (String.eqb sub "") eqn:E; [|reflexivity].
    apply String.eqb_eq in E. contradiction. }
  assert (Hkey : to_text (dict_get payload "sub") = Some sub) by now rewrite Hsub.
  pose proof (authenticate_token_created _ _ _ _ _ Hv Htr Hkey Hrow Hnn) as Ea.
  eexists _, _. split; [exact Ea|].
  split.
  { intros request Hp. rewrite (authenticate_bearer _ _ _ Hp).
    unfold try_except. now rewrite Ea. }
  split; [exact Hsub|]. cbn [customers writes set_customers].
  split; [now rewrite Hwr|]. split; [apply lookup_insert_eq|].
  split; [intros k Hk; rewrite lookup_insert_ne by auto; now rewrite Hcust|].
  split.
  { intros col Hin. cbn in Hin.
    destruct Hin as [<- | [<- | [<- | [<- | []]]]]; cbn [claim_key stored created_row
      row_first_name row_last_name row_email row_phone]; unfold dict_get_default;
      (split; [intros v -> | intros ->]; reflexivity). }
  split; [reflexivity|].
  intros Ht w3 Hv3.
  assert (Hch : changed (created_row payload) payload = []).
  { unfold changed, profile_columns. cbn [List.filter].
    assert (Hd : forall col, In col profile_columns ->
                   differs (created_row payload) payload col = false).
    { intros col Hin. specialize (Ht col). cbn in Hin.
      destruct Hin as [<- | [<- | [<- | [<- | []]]]];
        unfold differs; cbn [stored created_row row_first_name row_last_name row_email
          row_phone claim_of] in *; unfold dict_get_default, dict_get in *;
        (match goal with |- context [assoc ?k payload] =>
           destruct (assoc k payload) as [v|] end; [|reflexivity]);
        (destruct (truthy v) eqn:Etv; [|reflexivity]);
        specialize (Ht eq_refl); destruct v; try discriminate;
        cbn [py_str]; rewrite py_eq_PStr_refl; reflexivity. }
    rewrite !Hd by (cbn; auto). reflexivity. }
  assert (Hrow2 : customers (set_customers (<[sub:=created_row payload]> (customers w1))
                    (Insert sub (created_row payload) :: writes w1) w1) !! sub
                  = Some (created_row payload)) by apply lookup_insert_eq.
  pose proof (validate_token_surroundings _ _ _ _ Hv3) as (_ & _ & _ & _ & Hcust3 & Hwr3).
  pose proof (authenticate_token_existing _ _ _ _ _ _ Hv3 Htr Hkey Hrow2) as Ea3.
  rewrite Hch in Ea3. eexists _, w3. split; [exact Ea3|]. auto.
Qed.

(** X13. A token whose [iss] claim is missing or is not the configured
    issuer, or whose [nbf] claim is later than the clock, is never let
    through: [validate_token] returns no payload and [authenticate]
    raises [AuthenticationFailed]. *)
Theorem wrong_issuer_or_premature_rejected
    (request : Request) token (j : jws) claims (w : world) :
  presents request token ->
  jws_load token = Ok j ->
  json_loads (jws_payload j) = Ok (PDict claims) ->
  (forall issuer, OIDC_ISSUER (env w) = Some issuer -> dict_get claims "iss" <> PStr issuer)
  \/ (exists nbf, dict_has claims "nbf" = true
                  /\ py_int (dict_get claims "nbf") = IntOk nbf
                  /\ forall n, clock w n < nbf) ->
  (forall payload w', validate_token token w <> (Return payload, w'))
  /\ exists detail w', authenticate request w = (Raise (AuthenticationFailed detail), w').
Proof.
  intros Hp Hj Hl Hbad.
  assert (Hv : forall payload w', validate_token token w <> (Return payload, w')).
  { intros payload w' E.
    apply validate_token_returns in E
      as (issuer & audience & key & w1 & j' & Hi & _ & Hk & Hj' & _ & _ & Hl' & Hc).
    rewrite Hj in Hj'. injection Hj' as <-. rewrite Hl in Hl'. injection Hl' as <-.
    destruct Hbad as [Hiss | (nbf & Hhas & Hint & Hfut)].
    - apply validate_claims_returns in Hc as (_ & _ & _ & Hiss' & _).
      exact (Hiss issuer Hi Hiss').
    - apply validate_claims_returns_times in Hc as (_ & Hnbf).
      destruct (Hnbf Hhas) as (nbf' & n & Hint' & Hle).
      rewrite Hint in Hint'. injection Hint' as <-.
      apply get_key_for_token_surroundings, same_surroundings_clock in Hk.
      rewrite Hk in Hle. specialize (Hfut n). lia. }
  split; [exact Hv|]. now apply rejected_token_fails with (token := token).
Qed.

(** ** The [except] clauses of [authenticate] *)

Lemma find_key_raises_class kid ks e :
  find_key kid ks = Raise e -> is_JWTError e = false.
Proof.
  destruct ks as [| | |s|l|d]; cbn; try (now intros [= <-]).
  - destruct s; now intros [= <-].
  - induction l as [|key_data l IH]; cbn; [discriminate|].
    destruct key_data as [| | | | |d]; try (now intros [= <-]).
    destruct (py_eq _ _); [|exact IH].
    destruct (jwk_construct _); [discriminate|now intros [= <-]].
  - destruct d; now intros [= <-].
Qed.

Lemma get_jwks_raises_class (w w' : world) e :
  endpoint_raises_no_JWTError w ->
  get_jwks w = (Raise e, w') -> is_JWTError e = false.
Proof.
  intros Hnet E. rewrite get_jwks_eq in E. cbn zeta in E.
  destruct (stale w); [|discriminate].
  destruct (jwks_url (env w)) as [url|]; [|now injection E as <- _].
  unfold refreshed in E. cbn in E.
  destruct (network w (length (requests w)) url) as [e0|body] eqn:En.
  - specialize (Hnet _ _ _ En).
    destruct e0; try (injection E as <- _; exact Hnet).
    destruct (is_None _); [now injection E as <- _|discriminate].
  - destruct (jwks_body body); [discriminate|].
    destruct body; now injection E as <- _.
Qed.

Lemma endpoint_advances n (w w' : world) :
  advances n w w' -> endpoint_raises_no_JWTError w -> endpoint_raises_no_JWTError w'.
Proof.
  intros (_ & _ & _ & Hn & _) Hnet. unfold endpoint_raises_no_JWTError. now rewrite Hn.
Qed.

Lemma get_key_for_token_raises_class token (w w' : world) e :
  endpoint_raises_no_JWTError w ->
  get_key_for_token token w = (Raise e, w') -> is_JWTError e = false.
Proof.
  intros Hnet. unfold get_key_for_token. unfold bind at 1. rewrite token_kid_eq.
  destruct (jws_load token) as [j|m]; [|now intros [= <- _]].
  destruct (truthy _); [|now intros [= <- _]].
  unfold bind at 1. destruct (get_jwks w) as [[ks|e0] w1] eqn:E1.
  2:{ intros [= <- _]. exact (get_jwks_raises_class _ _ _ Hnet E1). }
  apply get_jwks_advances in E1.
  unfold bind at 1. unfold lift at 1.
  destruct (find_key _ ks) as [[key|]|e0] eqn:Ef; [discriminate| |].
  2:{ intros [= <- _]. exact (find_key_raises_class _ _ _ Ef). }
  unfold bind at 1.
  pose proof (store_last_updated_advances 0 w1) as (A2 & _).
  destruct (store_last_updated 0 w1) as [[[]|e0] w1'] eqn:Es;
    [|unfold store_last_updated in Es; discriminate].
  cbn [snd] in A2.
  unfold bind at 1. destruct (get_jwks w1') as [[ks'|e0] w2] eqn:E2.
  2:{ intros [= <- _]. apply (get_jwks_raises_class _ _ _) in E2; [exact E2|].
      eauto using endpoint_advances. }
  unfold bind at 1. unfold lift at 1.
  destruct (find_key _ ks') as [[key|]|e0] eqn:Ef'; [discriminate| |].
  - now intros [= <- _].
  - intros [= <- _]. exact (find_key_raises_class _ _ _ Ef').
Qed.

Lemma validate_token_raises_class token (w w' : world) e :
  endpoint_raises_no_JWTError w ->
  validate_token token w = (Raise e, w') -> is_JWTError e = false.
Proof.
  intros Hnet. unfold validate_token. unfold bind at 1. unfold getenv at 1.
  unfold bind at 1. unfold getenv at 1.
  destruct (OIDC_ISSUER (env w)) as [[|ci i]|]; try (now intros [= <- _]).
  destruct (OIDC_AUDIENCE (env w)) as [[|ca a]|]; try (now intros [= <- _]).
  cbv zeta. unfold bind at 1.
  destruct (get_key_for_token token w) as [[key|e0] w1] eqn:Ek.
  2:{ intros [= <- _]. exact (get_key_for_token_raises_class _ _ _ _ Hnet Ek). }
  unfold try_except.
  destruct (jwt_decode token key _ _ _ w1) as [[claims|e0] w2]; [discriminate|].
  destruct e0; try (now intros [= <- _]).
  destruct (contains "audience" (lower msg)); [now intros [= <- _]|].
  destruct (contains "issuer" (lower msg)); now intros [= <- _].
Qed.

Lemma authenticate_token_raises_class token (w w' : world) e :
  endpoint_raises_no_JWTError w ->
  authenticate_token token w = (Raise e, w') -> is_JWTError e = false.
Proof.
  intros Hnet. unfold authenticate_token. unfold bind at 1.
  destruct (validate_token token w) as [[payload|e0] w1] eqn:Ev.
  2:{ intros [= <- _]. exact (validate_token_raises_class _ _ _ _ Hnet Ev). }
  destruct (negb (truthy (dict_get payload "sub"))); [now intros [= <- _]|].
  unfold bind at 1. unfold get_or_create at 1.
  destruct (to_text (dict_get payload "sub")) as [key|]; [|now intros [= <- _]].
  destruct (customers w1 !! key) as [r0|] eqn:Hrow.
  - cbn [negb]. destruct (reconcile (of_row key r0) payload) as [customer update_fields].
    unfold bind at 1. destruct update_fields as [|col cols]; [discriminate|].
    unfold bind, save. destruct (to_text (external_id customer)) as [key'|];
      [|now intros [= <- _]].
    destruct (customers w1 !! key') as [r1|]; [|now intros [= <- _]].
    destruct (set_columns customer (col :: cols) r1) as [r1'|]; [discriminate|].
    now intros [= <- _].
  - destruct (to_text (dict_get_default payload "given_name" (PStr ""))) as [f|];
      [|now intros [= <- _]].
    destruct (to_text (dict_get_default payload "family_name" (PStr ""))) as [l|];
      [|now intros [= <- _]].
    destruct (to_text (dict_get_default payload "email" (PStr ""))) as [em|];
      [|now intros [= <- _]].
    destruct (to_text (dict_get_default payload "phone_number" (PStr ""))) as [ph|];
      [|now intros [= <- _]].
    discriminate.
Qed.

(** X14. No exception of the token library reaches the [except] clauses
    of [authenticate]: [validate_token] has turned each into
    [AuthenticationFailed] already.  So the detail of a refused Bearer
    token is "Error fetching JWKS" or begins with "Authentication
    failed: ", and never with "Invalid token: ". *)
Theorem JWTError_clause_is_never_taken (request : Request) token e (w w' : world) :
  endpoint_raises_no_JWTError w ->
  presents request token ->
  authenticate request w = (Raise e, w') ->
  (exists e0, authenticate_token token w = (Raise e0, w') /\ is_JWTError e0 = false)
  /\ (e = AuthenticationFailed "Error fetching JWKS"
      \/ exists detail, e = AuthenticationFailed ("Authentication failed: " ++ detail)).
Proof.
  intros Hnet Hp E. rewrite (authenticate_bearer _ _ _ Hp) in E. unfold try_except in E.
  destruct (authenticate_token token w) as [[a|e0] w1] eqn:Ea; [discriminate|].
  pose proof (authenticate_token_raises_class _ _ _ _ Hnet Ea) as Hc.
  unfold authentication_failed in E. rewrite Hc in E.
  destruct e0; try discriminate; injection E as <- <-; (split; [eauto|]); eauto.
Qed.

(** ** The URL of the key set *)

Lemma append_cons (c : ascii) (s t : string) : String c s ++ t = String c (s ++ t).
Proof. reflexivity. Qed.

Lemma append_nil_r (s : string) : s ++ "" = s.
Proof. induction s as [|c s IH]; [reflexivity|]. rewrite append_cons. now f_equal. Qed.

Lemma append_assoc (s t u : string) : (s ++ t) ++ u = s ++ (t ++ u).
Proof. induction s as [|c s IH]; [reflexivity|]. rewrite !append_cons. now f_equal. Qed.

Lemma rev_string_app (acc s : string) : rev_string acc s = rev_string "" s ++ acc.
Proof.
  revert acc. induction s as [|c s IH]; intros acc; [reflexivity|].
  cbn [rev_string]. rewrite (IH (String c acc)), (IH (String c "")), append_assoc.
  reflexivity.
Qed.

Lemma rev_string_rev_string (a b s : string) :
  rev_string a (rev_string b s) = rev_string (s ++ a) b.
Proof.
  revert a b. induction s as [|c s IH]; intros a b; [reflexivity|].
  cbn [rev_string]. now rewrite IH.
Qed.

Lemma rev_string_involutive (s : string) : rev_string "" (rev_string "" s) = s.
Proof. rewrite rev_string_rev_string. exact (append_nil_r s). Qed.

Lemma rev_string_append (acc s t : string) :
  rev_string acc (s ++ t) = rev_string (rev_string acc s) t.
Proof.
  revert acc. induction s as [|c s IH]; intros acc; [reflexivity|].
  rewrite append_cons. cbn [rev_string]. apply IH.
Qed.

Lemma endswith_slash (s : string) :
  endswith "/" s = true -> exists base, s = base ++ "/".
Proof.
  unfold endswith. cbn [rev_string].
  destruct (rev_string "" s) as [|c r] eqn:E; cbn [startswith]; [discriminate|].
  intros Hc. apply andb_true_iff in Hc as [Hc _]. apply Ascii.eqb_eq in Hc. subst c.
  exists (rev_string "" r). rewrite <- (rev_string_involutive s), E.
  exact (rev_string_app "/" r).
Qed.

Lemma endswith_append_slash (base : string) : endswith "/" (base ++ "/") = true.
Proof. unfold endswith. rewrite rev_string_append. reflexivity. Qed.

Lemma startswith_append (p t : string) : startswith p (p ++ t) = true.
Proof.
  induction p as [|c p IH]; [reflexivity|].
  rewrite append_cons. cbn [startswith]. now rewrite Ascii.eqb_refl.
Qed.

Lemma startswith_append_r (p s t : string) :
  startswith p s = true -> startswith p (s ++ t) = true.
Proof.
  revert s. induction p as [|c p IH]; intros s; [reflexivity|].
  destruct s as [|b s]; [discriminate|]. rewrite append_cons. cbn [startswith].
  intros Hc. apply andb_true_iff in Hc as [-> Hc]. cbn [andb]. now apply IH.
Qed.

Lemma contains_eq (p s : string) :
  contains p s = startswith p s
                 || match s with EmptyString => false | String _ s' => contains p s' end.
Proof. destruct s; reflexivity. Qed.

Lemma contains_middle (p a t : string) : contains p (a ++ p ++ t) = true.
Proof.
  induction a as [|c a IH].
  - change (contains p (p ++ t) = true). rewrite contains_eq, startswith_append.
    reflexivity.
  - rewrite append_cons, contains_eq, IH. apply orb_true_r.
Qed.

Lemma contains_append_r (p s t : string) :
  contains p s = true -> contains p (s ++ t) = true.
Proof.
  induction s as [|c s IH]; rewrite contains_eq; intros Hc.
  - rewrite orb_false_r in Hc. rewrite contains_eq.
    now rewrite (startswith_append_r _ _ t Hc).
  - apply orb_true_iff in Hc as [Hc | Hc].
    + rewrite contains_eq. now rewrite (startswith_append_r _ _ t Hc).
    + rewrite append_cons, contains_eq, (IH Hc). apply orb_true_r.
Qed.

(** X15. The URL [get_jwks] requests: a non-empty [OIDC_JWKS_URL] as it
    is; otherwise one made from the non-empty [OIDC_ISSUER], which always
    has "/.well-known/" in it: the issuer itself when it has, the issuer
    followed by "/.well-known/jwks.json" with exactly one slash between
    them when it has not.  Reading the configuration changes nothing. *)
Theorem jwks_url_derivation (w w' : world) (url : string) :
  resolve_jwks_url w = (Return url, w') ->
  w' = w /\ url <> ""
  /\ (OIDC_JWKS_URL (env w) = Some url
      \/ env_missing (OIDC_JWKS_URL (env w)) = true
         /\ exists issuer, OIDC_ISSUER (env w) = Some issuer /\ issuer <> ""
              /\ contains "/.well-known/" url = true
              /\ (contains "/.well-known/" issuer = true /\ url = issuer
                  \/ contains "/.well-known/" issuer = false
                     /\ endswith "/" issuer = false
                     /\ url = issuer ++ "/.well-known/jwks.json"
                  \/ contains "/.well-known/" issuer = false
                     /\ exists base, issuer = base ++ "/"
                                     /\ url = base ++ "/.well-known/jwks.json")).
Proof.
  rewrite resolve_jwks_url_eq. unfold jwks_url.
  assert (Hderived : forall c i, env_missing (OIDC_JWKS_URL (env w)) = true ->
            OIDC_ISSUER (env w) = Some (String c i) ->
            (Return (jwks_url_of_issuer (String c i)), w) = (Return url, w') ->
            w' = w /\ url <> ""
            /\ (OIDC_JWKS_URL (env w) = Some url
                \/ env_missing (OIDC_JWKS_URL (env w)) = true
                   /\ exists issuer, OIDC_ISSUER (env w) = Some issuer /\ issuer <> ""
                        /\ contains "/.well-known/" url = true
                        /\ (contains "/.well-known/" issuer = true /\ url = issuer
                            \/ contains "/.well-known/" issuer = false
                               /\ endswith "/" issuer = false
                               /\ url = issuer ++ "/.well-known/jwks.json"
                            \/ contains "/.well-known/" issuer = false
                               /\ exists base, issuer = base ++ "/"
                                               /\ url = base ++ "/.well-known/jwks.json"))).
  { intros c i Hm Hi [= <- <-]. split; [reflexivity|].
    unfold jwks_url_of_issuer.
    destruct (contains "/.well-known/" (String c i)) eqn:Ec; cbn [negb].
    - split; [discriminate|]. right. split; [exact Hm|].
      exists (String c i). split; [exact Hi|]. split; [discriminate|]. auto.
    - destruct (endswith "/" (String c i)) eqn:Ee.
      + split; [discriminate|]. right. split; [exact Hm|].
        exists (String c i). split; [exact Hi|]. split; [discriminate|].
        destruct (endswith_slash _ Ee) as (base & Hb).
        assert (Hu : String c i ++ ".well-known/jwks.json" = base ++ "/.well-known/jwks.json").
        { rewrite Hb, append_assoc. reflexivity. }
        split.
        * rewrite Hu. exact (contains_middle "/.well-known/" base "jwks.json").
        * right. right. split; [exact Ec|]. exists base. auto.
      + split; [discriminate|]. right. split; [exact Hm|].
        exists (String c i). split; [exact Hi|]. split; [discriminate|].
        split.
        * exact (contains_middle "/.well-known/" (String c i) "jwks.json").
        * right. left. auto. }
  destruct (OIDC_JWKS_URL (env w)) as [[|c u]|] eqn:Eu.
  - destruct (OIDC_ISSUER (env w)) as [[|c i]|] eqn:Ei; try discriminate.
    now apply Hderived.
  - intros [= <- <-]. split; [reflexivity|]. split; [discriminate|]. now left.
  - destruct (OIDC_ISSUER (env w)) as [[|c i]|] eqn:Ei; try discriminate.
    now apply Hderived.
Qed.

(** X16. An issuer configured with a trailing slash and the same issuer
    without it give the same URL. *)
Theorem trailing_slash_is_immaterial (w1 w2 : world) (base : string) :
  env_missing (OIDC_JWKS_URL (env w1)) = true ->
  env_missing (OIDC_JWKS_URL (env w2)) = true ->
  OIDC_ISSUER (env w1) = Some base ->
  OIDC_ISSUER (env w2) = Some (base ++ "/") ->
  base <> "" -> endswith "/" base = false ->
  contains "/.well-known/" (base ++ "/") = false ->
  resolve_jwks_url w1 = (Return (base ++ "/.well-known/jwks.json"), w1)
  /\ resolve_jwks_url w2 = (Return (base ++ "/.well-known/jwks.json"), w2).
Proof.
  intros H1 H2 Hi1 Hi2 Hne He Hc.
  assert (Hc' : contains "/.well-known/" base = false).
  { destruct (contains "/.well-known/" base) eqn:E; [|reflexivity].
    apply (contains_append_r _ _ "/") in E. congruence. }
  assert (Hu : forall w, env_missing (OIDC_JWKS_URL (env w)) = true ->
                 match OIDC_JWKS_URL (env w) with
                 | Some (String _ _) => False | _ => True end).
  { intros w. destruct (OIDC_JWKS_URL (env w)) as [[|]|]; cbn; auto. discriminate. }
  destruct base as [|c b]; [contradiction|].
  rewrite !resolve_jwks_url_eq. unfold jwks_url. rewrite Hi1, Hi2.
  specialize (Hu w1 H1) as Hu1. specialize (Hu w2 H2) as Hu2.
  split.
  - destruct (OIDC_JWKS_URL (env w1)) as [[|]|]; try contradiction;
      unfold jwks_url_of_issuer; rewrite Hc', He; reflexivity.
  - change (String c b ++ "/") with (String c (b ++ "/")) in *.
    destruct (OIDC_JWKS_URL (env w2)) as [[|]|]; try contradiction;
      unfold jwks_url_of_issuer; rewrite Hc;
      change (String c (b ++ "/")) with (String c b ++ "/");
      rewrite endswith_append_slash; cbn [negb]; rewrite append_assoc; reflexivity.
Qed.

(** ** The Authorization header *)

Lemma is_space_lower_ascii (c : ascii) : is_space (lower_ascii c) = is_space c.
Proof. destruct c as [[] [] [] [] [] [] [] []]; vm_compute; reflexivity. Qed.

Lemma solid_lower (s : string) : solid (lower s) = solid s.
Proof.
  unfold solid. induction s as [|c s IH]; cbn; [reflexivity|].
  now rewrite is_space_lower_ascii, IH.
Qed.

Lemma solid_rev_string (acc s : string) :
  solid acc = true -> solid s = true -> solid (rev_string acc s) = true.
Proof.
  unfold solid. revert acc. induction s as [|c s IH]; intros acc Ha Hs; cbn in *; [exact Ha|].
  apply andb_true_iff in Hs as [Hc Hs]. apply IH; [|exact Hs]. cbn. now rewrite Hc, Ha.
Qed.

Lemma rev_string_nonempty (s : string) : s <> "" -> rev_string "" s <> "".
Proof.
  intros Hs E. apply Hs. rewrite <- (rev_string_involutive s), E. reflexivity.
Qed.

Lemma flush_word (cur : string) (rest : list string) :
  cur <> "" -> flush (rev_string "" cur) rest = cur :: rest.
Proof.
  intros Hc. unfold flush. pose proof (rev_string_nonempty _ Hc) as Hr.
  destruct (rev_string "" cur) as [|c r] eqn:E; [contradiction|].
  rewrite <- E, rev_string_involutive. reflexivity.
Qed.

Lemma split_go_solid (cur word rest : string) :
  solid word = true -> split_go cur (word ++ rest) = split_go (rev_string cur word) rest.
Proof.
  unfold solid. revert cur. induction word as [|c word IH]; intros cur Hw; [reflexivity|].
  rewrite append_cons. cbn [every split_go rev_string] in *.
  apply andb_true_iff in Hw as [Hc Hw]. apply negb_true_iff in Hc. rewrite Hc. now apply IH.
Qed.

Lemma split_go_blank (pad rest : string) :
  blank pad = true -> split_go "" (pad ++ rest) = split_go "" rest.
Proof.
  unfold blank. induction pad as [|c pad IH]; intros Hp; [reflexivity|].
  rewrite append_cons. cbn [every split_go] in *.
  apply andb_true_iff in Hp as [Hc Hp]. rewrite Hc. cbn [flush]. now apply IH.
Qed.

Lemma split_go_end (cur pad : string) :
  blank pad = true -> split_go cur pad = flush cur [].
Proof.
  unfold blank. revert cur. induction pad as [|c pad IH]; intros cur Hp; [reflexivity|].
  cbn [every split_go] in *.
  apply andb_true_iff in Hp as [Hc Hp]. rewrite Hc, (IH "" Hp). reflexivity.
Qed.

Lemma split_bearer (pad1 scheme sep tokb pad2 : string) :
  blank pad1 = true -> blank sep = true -> sep <> "" -> blank pad2 = true ->
  solid scheme = true -> scheme <> "" -> solid tokb = true -> tokb <> "" ->
  split (pad1 ++ scheme ++ sep ++ tokb ++ pad2) = [scheme; tokb].
Proof.
  intros H1 Hs Hne H2 Hsch Hsne Htok Htne. unfold split.
  rewrite split_go_blank by exact H1. rewrite split_go_solid by exact Hsch.
  destruct sep as [|c sep]; [contradiction|].
  unfold blank in Hs. cbn [every] in Hs. apply andb_true_iff in Hs as [Hc Hs].
  rewrite append_cons. cbn [split_go]. rewrite Hc. rewrite flush_word by exact Hsne.
  fold (blank sep) in Hs.
  rewrite split_go_blank by exact Hs. rewrite split_go_solid by exact Htok.
  rewrite split_go_end by exact H2. now rewrite flush_word.
Qed.

Lemma split_go_words (cur s : string) :
  solid cur = true ->
  Forall (fun x => x <> "" /\ solid x = true) (split_go cur s).
Proof.
  assert (Hflush : forall cur rest, solid cur = true ->
            Forall (fun x => x <> "" /\ solid x = true) rest ->
            Forall (fun x => x <> "" /\ solid x = true) (flush cur rest)).
  { intros cur0 rest Hc Hr. unfold flush. destruct cur0 as [|c cur0]; [exact Hr|].
    constructor; [|exact Hr]. split.
    - apply rev_string_nonempty. discriminate.
    - now apply solid_rev_string. }
  revert cur. induction s as [|c s IH]; intros cur Hc; cbn.
  - apply Hflush; [exact Hc|constructor].
  - destruct (is_space c) eqn:Ec.
    + apply Hflush; [exact Hc|]. now apply IH.
    + apply IH. unfold solid in *. cbn. now rewrite Ec, Hc.
Qed.

Lemma bytes_decode_Some (b token : string) : bytes_decode b = Some token -> token = b.
Proof. unfold bytes_decode. destruct (utf8_ok _ _); [now intros [= <-]|discriminate]. Qed.

(** X17. The header is read loosely: the scheme in any case, any run of
    white space between the scheme and the token, and white space before
    and after them, give the same call of the token checks. *)
Theorem bearer_header_is_read_loosely (pad1 scheme sep tokb pad2 token : string) :
  blank pad1 = true -> blank sep = true -> sep <> "" -> blank pad2 = true ->
  lower scheme = "bearer" ->
  solid tokb = true -> tokb <> "" -> bytes_decode tokb = Some token ->
  presents (MkRequest (Some (pad1 ++ scheme ++ sep ++ tokb ++ pad2))) token
  /\ forall w, authenticate (MkRequest (Some (pad1 ++ scheme ++ sep ++ tokb ++ pad2))) w
              = try_except (authenticate_token token) authentication_failed w.
Proof.
  intros H1 Hs Hne H2 Hl Htok Htne Hd.
  assert (Hsch : solid scheme = true) by (rewrite <- solid_lower, Hl; reflexivity).
  assert (Hsne : scheme <> "") by (intros ->; discriminate).
  assert (Hp : presents (MkRequest (Some (pad1 ++ scheme ++ sep ++ tokb ++ pad2))) token).
  { exists scheme, tokb. split; [|auto]. cbn. now apply split_bearer. }
  split; [exact Hp|]. intros w. now apply authenticate_bearer.
Qed.

(** X18. The token handed to the checks is never empty and has no white
    space in it, and a request presents at most one. *)
Theorem presented_token_is_one_word (request : Request) (token : string) :
  presents request token ->
  token <> "" /\ solid token = true
  /\ forall token', presents request token' -> token' = token.
Proof.
  intros (scheme & tokb & Hs & _ & Hd). apply bytes_decode_Some in Hd as ->.
  pose proof (split_go_words "" (get_authorization_header request) eq_refl) as Hw.
  fold (split (get_authorization_header request)) in Hw. rewrite Hs in Hw.
  inversion Hw as [|? ? _ Hw']. inversion Hw' as [|? ? [Hne Hsol] _]. subst.
  split; [exact Hne|]. split; [exact Hsol|].
  intros token' (scheme' & tokb' & Hs' & _ & Hd'). rewrite Hs in Hs'.
  injection Hs' as _ <-. now apply bytes_decode_Some in Hd'.
Qed.

End Further.

(** * The properties at work *)

Import Demo.

Lemma presents_bearer (t : string) :
  bytes_decode t = Some t -> split ("Bearer " ++ t) = ["Bearer"; t] ->
  presents (bearer t) t.
Proof. intros Hd Hs. exists "Bearer", t. cbn. auto. Defined.



(** The token of the scenario with an audience the service does not have. *)
Lemma wrong_audience_or_signature_rejected_witness :
  (forall payload w', validate_token "tok-aud" w_warm <> (Return payload, w'))
  /\ exists detail w',
       authenticate (bearer "tok-aud") w_warm = (Raise (AuthenticationFailed detail), w').
Proof.
  apply (wrong_audience_or_signature_rejected (H := libraries)
           (bearer "tok-aud") "tok-aud" jws_aud w_warm).
  - apply presents_bearer; reflexivity.
  - reflexivity.
  - left. eexists. split; [reflexivity|]. split; [reflexivity|].
    intros audience [= <-] [E | (l & E & _)]; discriminate E.
Defined.

(** The token of the scenario, expired a thousand seconds ago. *)
Lemma expired_token_rejected_witness :
  exists w',
    validate_token "tok-exp" w_warm = (Raise (AuthenticationFailed "Token has expired"), w')
    /\ authenticate (bearer "tok-exp") w_warm =
       (Raise (AuthenticationFailed "Authentication failed: Token has expired"), w').
Proof.
  assert (Hp : presents (bearer "tok-exp") "tok-exp") by (apply presents_bearer; reflexivity).
  assert (Hn : forall key w1,
             get_key_for_token (H := libraries) "tok-exp" w_warm = (Return key, w1) ->
             1000 < expiry_reading
                      [("sub", PStr "u1"); ("iss", PStr "https://idp.example/");
                       ("aud", PStr "app1"); ("exp", PInt 1000)] w1).
  { intros key w1 E. vm_compute in E. injection E as _ <-. reflexivity. }
  destruct (expired_token_rejected (H := libraries) (bearer "tok-exp") "tok-exp" jws_exp
              [("sub", PStr "u1"); ("iss", PStr "https://idp.example/");
               ("aud", PStr "app1"); ("exp", PInt 1000)] 1000 w_warm
              Hp eq_refl eq_refl eq_refl eq_refl Hn) as (_ & _ & Hb).
  apply (Hb "P" (set_ticks 1 w_warm) (set_ticks 1 w_warm)); reflexivity.
Defined.


Lemma header_state_machine_witness :
  authenticate (MkRequest None) w_warm = (Return None, w_warm)
  /\ authenticate (MkRequest (Some "Basic dXNlcjpwYXNz")) w_warm = (Return None, w_warm)
  /\ authenticate (MkRequest (Some "bearer")) w_warm = (Raise malformed_header, w_warm)
  /\ authenticate (bearer "tok-u1") w_warm
     = try_except (authenticate_token "tok-u1") authentication_failed w_warm.
Proof.
  split; [|split; [|split]].
  - apply (header_state_machine (H := libraries) (MkRequest None) w_warm). reflexivity.
  - apply (proj1 (proj2 (proj2 (header_state_machine (H := libraries)
             (MkRequest (Some "Basic dXNlcjpwYXNz")) w_warm))) "Basic" ["dXNlcjpwYXNz"]).
    + reflexivity.
    + discriminate.
  - apply (proj1 (proj2 (proj2 (proj2 (header_state_machine (H := libraries)
             (MkRequest (Some "bearer")) w_warm)))) "bearer" []).
    + reflexivity.
    + reflexivity.
    + discriminate.
  - apply (header_state_machine (H := libraries) (bearer "tok-u1") w_warm).
    apply presents_bearer; reflexivity.
Defined.

(** A cold start at 2000, a second call at 2500, a third at 3000. *)
Lemma jwks_cache_ttl_discipline_witness :
  exists w1 w2 w3 r3,
    get_jwks w_ticking = (Return jwks_k1, w1) /\ requests w1 = [jwks_endpoint]
    /\ get_jwks w1 = (Return jwks_k1, w2) /\ requests w2 = requests w1
    /\ get_jwks w2 = (r3, w3) /\ requests w3 = jwks_endpoint :: requests w2.
Proof.
  destruct (jwks_cache_ttl_discipline w_ticking jwks_endpoint eq_refl)
    as (_ & _ & Hcalls).
  apply (Hcalls (PDict [("keys", jwks_k1)]) jwks_k1); try reflexivity; cbn; lia.
Defined.

(** The endpoint is down and the instance has keys. *)
Lemma stale_cache_degradation_witness :
  exists w',
    visible_cache w' = visible_cache w_unreachable
    /\ get_jwks w_unreachable = (Return jwks_k1, w').
Proof.
  destruct (stale_cache_degradation w_unreachable jwks_endpoint
              eq_refl eq_refl) as (Hdown & _).
  destruct (Hdown "Connection refused" eq_refl) as (w' & Hc & Hkeep & _).
  exists w'. split; [exact Hc|]. apply Hkeep. discriminate.
Defined.

(** The endpoint answers with an empty key set while the instance has
    keys: [get_jwks] raises instead of returning them. *)
Lemma stale_cache_degradation_counterexample :
  ~ degrades_on_every_failure.
Proof.
  intros Hclaim.
  destruct (Hclaim w_empty_reply jwks_endpoint) as (w' & Hg & _).
  - reflexivity.
  - reflexivity.
  - discriminate.
  - intros body [= <-]. reflexivity.
  - vm_compute in Hg. discriminate Hg.
Qed.

Lemma missing_configuration_fails_request_witness :
  validate_token "tok-u1" w_unconfigured
  = (Raise (AuthenticationFailed "OIDC configuration incomplete"), w_unconfigured)
  /\ forall request, presents request "tok-u1" ->
       authenticate request w_unconfigured =
       (Raise (AuthenticationFailed "Authentication failed: OIDC configuration incomplete"),
        w_unconfigured).
Proof.
  apply (missing_configuration_fails_request (H := libraries) "tok-u1" w_unconfigured).
  left. reflexivity.
Defined.

(** Without an issuer, the request of a Bearer token fails with
    [AuthenticationFailed]. *)
Lemma missing_configuration_counterexample :
  ~ missing_configuration_is_not_a_request_failure (H := libraries).
Proof.
  intros Hclaim.
  assert (Hp : presents (bearer "tok-u1") "tok-u1") by (apply presents_bearer; reflexivity).
  apply (Hclaim (bearer "tok-u1") "tok-u1" w_unconfigured Hp (or_introl eq_refl)
           "Authentication failed: OIDC configuration incomplete" w_unconfigured).
  reflexivity.
Qed.

(** The scenario of the specification: a stale first name, a token with
    a new [given_name]. *)
Lemma reconciliation_frame_witness :
  exists customer w2 r',
    authenticate_token "tok-new" w_warm = (Return (Some (customer, "tok-new")), w2)
    /\ writes w2 = [Update "u1" [first_name_col]]
    /\ customers w2 !! "u1" = Some r'
    /\ row_address r' = Some "1 Main St".
Proof.
  destruct (reconciliation_frame (H := libraries) "tok-new"
              [("sub", PStr "u1"); ("given_name", PStr "New");
               ("iss", PStr "https://idp.example/"); ("aud", PStr "app1"); ("exp", PInt 5000)]
              w_warm (set_ticks 2 w_warm) "u1" old_customer eq_refl eq_refl eq_refl eq_refl)
    as (customer & w2 & r' & Ha & _ & Hw & _ & _ & Hl & _ & Haddr & _).
  exists customer, w2, r'. auto.
Defined.

Lemma only_RS256_accepted_witness :
  (forall payload w', validate_token "tok-hs256" w_warm <> (Return payload, w'))
  /\ exists detail w',
       authenticate (bearer "tok-hs256") w_warm = (Raise (AuthenticationFailed detail), w').
Proof.
  destruct (only_RS256_accepted (H := libraries) "tok-hs256" jws_hs256 w_warm eq_refl)
    as (_ & Hv & Ha).
  - discriminate.
  - split; [exact Hv|]. apply Ha. apply presents_bearer; reflexivity.
Defined.

(** ** Where the code departs from the claims *)

(** C2. The token of [u1], signed by [k1], from the issuer and not
    expired, without an [aud] claim: the audience is not checked,
    [validate_token] returns the payload and [authenticate] the customer.
    The same token with the audience of another service is refused. *)
Theorem token_without_audience_is_accepted :
  fst (validate_token (H := Scenarios.more_libraries) "tok-noaud" w_warm)
  = Return [("sub", PStr "u1"); ("iss", PStr "https://idp.example/"); ("exp", PInt 5000)]
  /\ fst (authenticate (H := Scenarios.more_libraries) (bearer "tok-noaud") w_warm)
     = Return (Some (MkCustomer (PStr "u1") (PStr "Old") (PStr "Name")
                       (PStr "old@example.com") (PStr "+9876543210") (Some "1 Main St"),
                     "tok-noaud"))
  /\ fst (authenticate (H := Scenarios.more_libraries) (bearer "tok-aud") w_warm)
     = Raise (AuthenticationFailed
                "Authentication failed: Token audience invalid. Expected: app1").
Proof. repeat split; vm_compute; reflexivity. Qed.

(** C6. Two instances of the authenticator in one process: the first
    loads the key set at 2000 and does not request it again at that time;
    the dict of the class has no keys still, and the second instance, at
    the same time, sends a request of its own. *)
Theorem second_instance_fetches_again :
  let w1 := snd (get_jwks w_cold) in
  fst (get_jwks w_cold) = Return jwks_k1
  /\ requests w1 = [jwks_endpoint]
  /\ clock w1 (ticks w1) - last_updated (visible_cache w1) <= CACHE_TTL w1
  /\ requests (snd (get_jwks w1)) = [jwks_endpoint]
  /\ keys (class_cache w1) = PNone
  /\ fst (get_jwks (new_instance w1)) = Return jwks_k1
  /\ requests (snd (get_jwks (new_instance w1))) = [jwks_endpoint; jwks_endpoint].
Proof. repeat split; vm_compute; try reflexivity. discriminate. Qed.

(** C7. The instance has the key set fetched at 1900; at 3000 the
    endpoint answers with an empty [keys]: [get_jwks] raises instead of
    returning the set it has, and [authenticate] fails for the token of
    the scenario.  With the endpoint down at the same time the set is
    returned. *)
Theorem invalid_reply_is_not_degraded :
  keys (visible_cache w_empty_reply) = jwks_k1
  /\ fst (get_jwks w_empty_reply) = Raise (AuthenticationFailed "Invalid JWKS format")
  /\ visible_cache (snd (get_jwks w_empty_reply)) = visible_cache w_empty_reply
  /\ fst (authenticate (bearer "tok-u1") w_empty_reply)
     = Raise (AuthenticationFailed "Authentication failed: Invalid JWKS format")
  /\ fst (get_jwks w_unreachable) = Return jwks_k1.
Proof. repeat split; vm_compute; reflexivity. Qed.

(** ** The cases of the repository's tests, run on the model *)

Example test_no_token :
  authenticate (MkRequest None) w_cold = (Return None, w_cold)
  /\ authenticate (MkRequest (Some "Basic dXNlcjpwYXNz")) w_cold = (Return None, w_cold).
Proof. split; reflexivity. Qed.

Example test_invalid_audience :
  fst (authenticate (bearer "tok-aud") w_cold)
  = Raise (AuthenticationFailed
             "Authentication failed: Token audience invalid. Expected: app1").
Proof. vm_compute. reflexivity. Qed.

Example test_expired_token :
  fst (authenticate (bearer "tok-exp") w_cold)
  = Raise (AuthenticationFailed "Authentication failed: Token has expired").
Proof. vm_compute. reflexivity. Qed.

Example test_invalid_signature :
  fst (authenticate (bearer "tok-forged") w_cold)
  = Raise (AuthenticationFailed
             "Authentication failed: Token validation failed: Signature verification failed.").
Proof. vm_compute. reflexivity. Qed.

Example test_missing_kid :
  authenticate (bearer "tok-nokid") w_cold
  = (Raise (AuthenticationFailed
              "Authentication failed: Invalid token header: Token missing key ID (kid)"),
     w_cold).
Proof. reflexivity. Qed.

Example test_kid_not_found :
  fst (authenticate (bearer "tok-unknown") w_cold)
  = Raise (AuthenticationFailed "Authentication failed: Key ID unknown not found in JWKS")
  /\ requests (snd (authenticate (bearer "tok-unknown") w_cold))
     = [jwks_endpoint; jwks_endpoint].
Proof. split; vm_compute; reflexivity. Qed.

Example test_jwks_caching :
  three_calls (bearer "tok-u1") w_short_ttl = (1, 1, 2)%nat.
Proof. vm_compute. reflexivity. Qed.

Example test_user_profile_update :
  fst (authenticate (bearer "tok-profile") w_warm)
  = Return (Some (MkCustomer (PStr "u1") (PStr "New") (PStr "Person")
                    (PStr "new@example.com") (PStr "+1234567890") (Some "1 Main St"),
                  "tok-profile"))
  /\ writes (snd (authenticate (bearer "tok-profile") w_warm))
     = [Update "u1" [first_name_col; last_name_col; email_col; phone_col]].
Proof. split; vm_compute; reflexivity. Qed.

(** A second instance in the process of one that has loaded the keys
    sends its own request. *)
Example second_instance_requests :
  let w1 := snd (get_jwks w_cold) in
  requests w1 = [jwks_endpoint]
  /\ requests (snd (get_jwks (new_instance w1))) = [jwks_endpoint; jwks_endpoint].
Proof. split; vm_compute; reflexivity. Qed.

(** ** The further properties at work *)

Import Scenarios.

(** A first visit with a null [given_name]: the INSERT is refused. *)
Lemma failed_authentication_changes_no_row_witness :
  customers (snd (authenticate (H := more_libraries) (bearer "tok-null") w_warm))
  = customers w_warm
  /\ writes (snd (authenticate (H := more_libraries) (bearer "tok-null") w_warm))
     = [InsertRefused (PStr "u3")].
Proof.
  split; [|reflexivity].
  apply (failed_authentication_changes_no_row (H := more_libraries) (bearer "tok-null") w_warm
           (snd (authenticate (H := more_libraries) (bearer "tok-null") w_warm))
           (AuthenticationFailed "Authentication failed: NOT NULL constraint failed")).
  reflexivity.
Defined.

(** The unknown [kid] at a cold start: the two requests. *)
Lemma authenticate_sends_at_most_two_requests_witness :
  exists sent,
    requests (snd (authenticate (bearer "tok-unknown") w_cold)) = (sent ++ requests w_cold)%list
    /\ (length sent <= 2)%nat
    /\ forall u, In u sent -> jwks_url (env w_cold) = Some u.
Proof.
  apply (authenticate_sends_at_most_two_requests (H := libraries) (bearer "tok-unknown") w_cold
           (snd (authenticate (bearer "tok-unknown") w_cold))
           (fst (authenticate (bearer "tok-unknown") w_cold))).
  reflexivity.
Defined.

(** After a successful [authenticate] the class-level dict has no keys
    still, and a new instance sends a request of its own. *)
Lemma class_cache_is_never_loaded_witness :
  keys (class_cache (snd (authenticate (bearer "tok-u1") w_cold))) = PNone
  /\ requests (snd (get_jwks (new_instance (snd (authenticate (bearer "tok-u1") w_cold)))))
     = [jwks_endpoint; jwks_endpoint].
Proof.
  destruct (class_cache_is_never_loaded (H := libraries) (bearer "tok-u1") w_cold
              (snd (authenticate (bearer "tok-u1") w_cold))
              (fst (authenticate (bearer "tok-u1") w_cold))
              (surjective_pairing _)) as [Hk Hn].
  split; [exact Hk|]. exact (Hn eq_refl jwks_endpoint eq_refl).
Defined.

Lemma get_jwks_returns_the_cached_set_witness :
  visible_cache (snd (get_jwks w_cold)) = Cache jwks_k1 2000.
Proof.
  destruct (get_jwks_returns_the_cached_set w_cold (snd (get_jwks w_cold)) jwks_k1 eq_refl)
    as (_ & _ & [(Hs & _) | [(url & m & _ & Hu & Hn & _) | (url & body & _ & _ & _ & _ & _ & Hc & _)]]).
  - discriminate Hs.
  - injection Hu as <-. discriminate Hn.
  - exact Hc.
Defined.

(** The key of [tok-u1] is the second entry of the set. *)
Lemma first_matching_key_decides_witness :
  fst (get_key_for_token (H := libraries) "tok-u1" w_two_keys) = Return "P".
Proof.
  destruct (first_matching_key_decides (H := libraries) "tok-u1" jws_u1
              [PDict key_k2] [] key_k1 w_two_keys (snd (get_jwks w_two_keys))
              eq_refl eq_refl eq_refl) as [Hk _].
  - constructor; [|constructor]. exists key_k2. split; reflexivity.
  - reflexivity.
  - rewrite Hk. reflexivity.
Defined.

Lemma unknown_kid_with_unreachable_endpoint_witness :
  exists w2,
    get_key_for_token (H := libraries) "tok-unknown" w_unreachable
    = (Raise (AuthenticationFailed "Key ID unknown not found in JWKS"), w2)
    /\ visible_cache w2 = Cache jwks_k1 0
    /\ requests w2 = [jwks_endpoint; jwks_endpoint].
Proof.
  destruct (unknown_kid_with_unreachable_endpoint (H := libraries) "tok-unknown" jws_unknown
              jwks_k1 w_unreachable (snd (get_jwks w_unreachable)) jwks_endpoint
              "Connection refused" eq_refl eq_refl eq_refl eq_refl eq_refl eq_refl eq_refl)
    as (w2 & Hg & Hc & Hr & _).
  exists w2. auto.
Defined.

Lemma unreachable_endpoint_without_keys_witness :
  exists w',
    authenticate (bearer "tok-u1") w_down
    = (Raise (AuthenticationFailed "Error fetching JWKS"), w')
    /\ requests w' = [jwks_endpoint]
    /\ visible_cache w' = visible_cache w_down.
Proof.
  apply (unreachable_endpoint_without_keys (H := libraries) (bearer "tok-u1") "tok-u1" jws_u1
           w_down jwks_endpoint "Connection refused"); try reflexivity.
  apply presents_bearer; reflexivity.
Defined.

Lemma accepted_payload_is_verified_witness :
  exists j key,
    jws_load (Libraries := libraries) "tok-u1" = Ok j
    /\ key_verify key (jws_signing_input j) (jws_signature j) = true.
Proof.
  assert (Ev : validate_token (H := libraries) "tok-u1" w_cold
               = (Return [("sub", PStr "u1"); ("iss", PStr "https://idp.example/");
                          ("aud", PStr "app1"); ("exp", PInt 5000)],
                  snd (validate_token "tok-u1" w_cold))) by reflexivity.
  destruct (accepted_payload_is_verified (H := libraries) _ _ _ _ Ev)
    as (issuer & audience & j & key & l & d & _ & (Hj & _) & (_ & _ & _ & _ & Hv) & _).
  exists j, key. auto.
Defined.

(** A signed token of the issuer without a subject. *)
Lemma missing_subject_fails_witness :
  authenticate (H := more_libraries) (bearer "tok-nosub") w_warm
  = (Raise (AuthenticationFailed "Authentication failed: Token missing sub claim"),
     set_ticks 2 w_warm)
  /\ customers (set_ticks 2 w_warm) = customers w_warm
  /\ writes (set_ticks 2 w_warm) = writes w_warm.
Proof.
  apply (missing_subject_fails (H := more_libraries) (bearer "tok-nosub") "tok-nosub"
           [("iss", PStr "https://idp.example/"); ("aud", PStr "app1"); ("exp", PInt 5000)]
           w_warm (set_ticks 2 w_warm)).
  - apply presents_bearer; reflexivity.
  - reflexivity.
  - reflexivity.
Defined.

Lemma authenticated_customer_is_the_subject_witness :
  presents (bearer "tok-u1") "tok-u1"
  /\ exists payload w1 sub,
       validate_token (H := libraries) "tok-u1" w_cold = (Return payload, w1)
       /\ dict_get payload "sub" = PStr sub /\ sub <> ""
       /\ PStr "u1" = PStr sub
       /\ is_Some (customers (snd (authenticate (bearer "tok-u1") w_cold)) !! sub)
       /\ (forall k, k <> sub ->
             customers (snd (authenticate (bearer "tok-u1") w_cold)) !! k
             = customers w_cold !! k)
       /\ (writes (snd (authenticate (bearer "tok-u1") w_cold)) = writes w_cold
           \/ exists st, writes (snd (authenticate (bearer "tok-u1") w_cold))
                         = st :: writes w_cold).
Proof.
  apply (authenticated_customer_is_the_subject (H := libraries) (bearer "tok-u1")
           (MkCustomer (PStr "u1") (PStr "") (PStr "") (PStr "") (PStr "") None)
           "tok-u1" w_cold (snd (authenticate (bearer "tok-u1") w_cold))).
  reflexivity.
Defined.

(** A first visit of [u2], whose token has a given name and an e-mail
    address. *)
Lemma first_sight_creates_the_customer_witness :
  exists customer w2,
    authenticate_token (H := more_libraries) "tok-u2" w_warm
    = (Return (Some (customer, "tok-u2")), w2)
    /\ writes w2 = [Insert "u2" (Row "Ann" "" "ann@example.com" "" None)]
    /\ customers w2 !! "u1" = Some old_customer.
Proof.
  destruct (first_sight_creates_the_customer (H := more_libraries) "tok-u2"
              [("sub", PStr "u2"); ("given_name", PStr "Ann"); ("email", PStr "ann@example.com");
               ("iss", PStr "https://idp.example/"); ("aud", PStr "app1"); ("exp", PInt 5000)]
              w_warm (set_ticks 2 w_warm) "u2" eq_refl eq_refl)
    as (customer & w2 & Ha & _ & _ & Hw & _ & Hk & _).
  - discriminate.
  - reflexivity.
  - intros k [<- | [<- | [<- | [<- | []]]]]; discriminate.
  - exists customer, w2. split; [exact Ha|]. split; [exact Hw|].
    rewrite Hk by discriminate. reflexivity.
Defined.

(** A token of another issuer. *)
Lemma wrong_issuer_or_premature_rejected_witness :
  (forall payload w', validate_token (H := more_libraries) "tok-iss" w_warm
                      <> (Return payload, w'))
  /\ exists detail w',
       authenticate (H := more_libraries) (bearer "tok-iss") w_warm
       = (Raise (AuthenticationFailed detail), w').
Proof.
  apply (wrong_issuer_or_premature_rejected (H := more_libraries)
           (bearer "tok-iss") "tok-iss" jws_other_iss
           [("sub", PStr "u1"); ("iss", PStr "https://other.example/");
            ("aud", PStr "app1"); ("exp", PInt 5000)] w_warm).
  - apply presents_bearer; reflexivity.
  - reflexivity.
  - reflexivity.
  - left. intros issuer [= <-]. discriminate.
Defined.

Lemma JWTError_clause_is_never_taken_witness :
  authenticate (bearer "tok-exp") w_warm
  = (Raise (AuthenticationFailed "Authentication failed: Token has expired"),
     snd (authenticate (bearer "tok-exp") w_warm))
  /\ (exists e0, authenticate_token (H := libraries) "tok-exp" w_warm
                 = (Raise e0, snd (authenticate (bearer "tok-exp") w_warm))
                 /\ is_JWTError e0 = false).
Proof.
  split; [reflexivity|].
  apply (JWTError_clause_is_never_taken (H := libraries) (bearer "tok-exp") "tok-exp"
           (AuthenticationFailed "Authentication failed: Token has expired")
           w_warm (snd (authenticate (bearer "tok-exp") w_warm))).
  - intros n url e. discriminate.
  - apply presents_bearer; reflexivity.
  - reflexivity.
Defined.

Lemma jwks_url_derivation_witness :
  exists base, OIDC_ISSUER (env w_cold) = Some (base ++ "/")
               /\ jwks_endpoint = base ++ "/.well-known/jwks.json".
Proof.
  destruct (jwks_url_derivation w_cold w_cold jwks_endpoint eq_refl)
    as (_ & _ & [Hu | (_ & issuer & Hi & _ & _ & [(Hc & _) | [(_ & He & _) | (_ & base & Hb & Hu)]])]).
  - discriminate Hu.
  - injection Hi as <-. discriminate Hc.
  - injection Hi as <-. discriminate He.
  - injection Hi as <-. exists base. rewrite <- Hb. auto.
Defined.

Lemma trailing_slash_is_immaterial_witness :
  resolve_jwks_url w_no_slash = (Return jwks_endpoint, w_no_slash)
  /\ resolve_jwks_url w_cold = (Return jwks_endpoint, w_cold).
Proof.
  apply (trailing_slash_is_immaterial w_no_slash w_cold "https://idp.example");
    try reflexivity.
  discriminate.
Defined.

(** The scheme in capitals, the parts apart and the header padded. *)
Lemma bearer_header_is_read_loosely_witness :
  presents (MkRequest (Some "  BEARER   tok-u1 ")) "tok-u1"
  /\ forall w, authenticate (H := libraries) (MkRequest (Some "  BEARER   tok-u1 ")) w
              = try_except (authenticate_token "tok-u1") authentication_failed w.
Proof.
  apply (bearer_header_is_read_loosely (H := libraries) "  " "BEARER" "   " "tok-u1" " " "tok-u1");
    try reflexivity; discriminate.
Defined.

Lemma presented_token_is_one_word_witness :
  "tok-u1" <> "" /\ solid "tok-u1" = true
  /\ forall token', presents (bearer "tok-u1") token' -> token' = "tok-u1".
Proof.
  apply (presented_token_is_one_word (bearer "tok-u1") "tok-u1").
  apply presents_bearer; reflexivity.
Defined.
